(** * Vancouver Rezoning Guide: the interaction layer of [script.js]

    A shallow embedding of the client-side controllers (tabs, detail
    panels, decision tree, glossary, search, persistence) and the
    properties the specification states about them.

    The presentation tree is a list of elements in document order; an
    element handle is its index.  The document is in standards mode, so
    class names and attribute values compare as they are written.

    Strings are sequences of code units below 256 (Latin-1), on which
    [toLowerCase], [trim] and [parseInt] do what the JavaScript built-ins
    do: the capitals of both halves of the range are folded, and the
    no-break space counts as white space.

    Numbers are the doubles with an integer value, the two infinities and
    NaN: what [parseInt] returns and what a subtraction of 1 makes of it.
    Values are rounded to the nearest double (ties to even), as the engines
    do in [parseInt] for every number of digits, and a number is printed
    with the fewest digits that read back as the same double, with an
    exponent from 10^21 on.

    A selector text built from an id or a name is read by the rules of
    CSS where they settle it: a plain value selects by equality of the
    attribute, a line break inside the quotes makes the text invalid.  A
    value with a quote, a backslash or a NUL character can turn the text
    into any selector; what [querySelector] makes of it is a parameter, as
    are the click listeners of the page that [node.click()] runs and the
    JSON built-ins.

    Timer callbacks are recorded in the trace of effects and not run:
    every function below is one synchronous turn of the event loop. *)

From Stdlib Require Import String Ascii ZArith List Bool Lia DecimalString.
From stdpp Require Import base option list gmap strings.

Open Scope string_scope.
Open Scope list_scope.

(** ** JavaScript strings and numbers *)

Module Js.

(** Lower case of one code unit below 256: the letters A-Z, and the
    Latin-1 capitals from 192 to 222 except the multiplication sign (215);
    each is 32 below its lower-case form. *)
Definition lowerChar (c : ascii) : ascii :=
  let n := nat_of_ascii c in
  if ((65 <=? n)%nat && (n <=? 90)%nat) ||
     ((192 <=? n)%nat && (n <=? 222)%nat && negb (n =? 215)%nat)
  then ascii_of_nat (n + 32) else c.

(** [String.prototype.toLowerCase] *)
Fixpoint toLowerCase (s : string) : string :=
  match s with
  | EmptyString => EmptyString
  | String c r => String (lowerChar c) (toLowerCase r)
  end.

(** White space and line terminators in the sense of [trim] and
    [parseInt], among the code units below 256: TAB, LF, VT, FF, CR, space
    and the no-break space (160). *)
Definition isWhiteSpace (c : ascii) : bool :=
  let n := nat_of_ascii c in
  ((9 <=? n)%nat && (n <=? 13)%nat) || (n =? 32)%nat || (n =? 160)%nat.

Fixpoint trimStart (s : string) : string :=
  match s with
  | EmptyString => EmptyString
  | String c r => if isWhiteSpace c then trimStart r else s
  end.

Fixpoint trimEnd (s : string) : string :=
  match s with
  | EmptyString => EmptyString
  | String c r =>
      match trimEnd r with
      | EmptyString => if isWhiteSpace c then EmptyString else String c EmptyString
      | r' => String c r'
      end
  end.

(** [String.prototype.trim] *)
Definition trim (s : string) : string := trimEnd (trimStart s).

(** [s.includes(t)]: [t] occurs in [s] as a contiguous run. *)
Fixpoint includes (s t : string) : bool :=
  String.prefix t s ||
  match s with
  | EmptyString => false
  | String _ r => includes r t
  end.

(** A string is truthy when it is not empty. *)
Definition truthy (s : string) : bool :=
  match s with EmptyString => false | _ => true end.

(** The numbers of the decision tree: the values [parseInt] returns and
    what [goBackDecision] makes of them.  [Int z] is the double whose value
    is the integer [z] (the two zeros are one value here: they print, compare
    and subtract alike). *)
Inductive Num := Int (z : Z) | NaN | Infinity (negative : bool).

#[global] Instance Num_eq_dec : EqDecision Num.
Proof. solve_decision. Defined.

(** The double nearest to an integer, ties to the even significand; from
    2^1024 - 2^970 on the result is infinite. *)
Definition roundDouble (z : Z) : Num :=
  let a := Z.abs z in
  if (a <? 2 ^ 53)%Z then Int z
  else
    let e := (Z.log2 a - 52)%Z in
    let q := Z.shiftr a e in
    let r := (a - Z.shiftl q e)%Z in
    let half := (2 ^ (e - 1))%Z in
    let q' := if (half <? r)%Z || ((r =? half)%Z && Z.odd q)
              then (q + 1)%Z else q in
    let m := Z.shiftl q' e in
    if (2 ^ 1024 <=? m)%Z then Infinity (z <? 0)%Z
    else Int (Z.sgn z * m).

Definition digitValue (c : ascii) : option Z :=
  let n := nat_of_ascii c in
  if (48 <=? n)%nat && (n <=? 57)%nat then Some (Z.of_nat (n - 48))
  else if (97 <=? n)%nat && (n <=? 122)%nat then Some (Z.of_nat (n - 87))
  else if (65 <=? n)%nat && (n <=? 90)%nat then Some (Z.of_nat (n - 55))
  else None.

Fixpoint parseDigits (radix : Z) (acc : option Z) (s : string) : option Z :=
  match s with
  | EmptyString => acc
  | String c r =>
      match digitValue c with
      | Some d =>
          if (d <? radix)%Z
          then parseDigits radix (Some (default 0%Z acc * radix + d)%Z) r
          else acc
      | None => acc
      end
  end.

(** [parseInt(s)] with no radix: leading white space, a sign, an
    optional 0x prefix, then the longest run of digits, whose value is
    rounded to a double. *)
Definition parseInt (s : string) : Num :=
  let s1 := trimStart s in
  let '(neg, s2) :=
    match s1 with
    | String "-" r => (true, r)
    | String "+" r => (false, r)
    | _ => (false, s1)
    end in
  let '(radix, s3) :=
    match s2 with
    | String "0" (String "x" r) => (16%Z, r)
    | String "0" (String "X" r) => (16%Z, r)
    | _ => (10%Z, s2)
    end in
  match parseDigits radix None s3 with
  | None => NaN
  | Some v => roundDouble (if neg : bool then - v else v)
  end.

Definition decimal (z : Z) : string := NilZero.string_of_int (Z.to_int z).

(** [v] reads back as the double [x]. *)
Definition readsAs (v x : Z) : bool :=
  match roundDouble v with Int y => (y =? x)%Z | _ => false end.

(** The multiple of [u] nearest to [x] among those that read back as
    [x], if there is one. *)
Definition near (x u : Z) : option Z :=
  let lo := (x / u * u)%Z in
  let hi := (lo + u)%Z in
  let okLo := readsAs lo x && (0 <? lo)%Z in
  let okHi := readsAs hi x in
  if okLo && okHi then
    Some (if (x - lo <? hi - x)%Z then lo
          else if (hi - x <? x - lo)%Z then hi
          else if Z.even (lo / u) then lo else hi)
  else if okLo then Some lo
  else if okHi then Some hi
  else None.

Fixpoint shortestFrom (x : Z) (k : nat) : Z :=
  match k with
  | 0 => x
  | S k' =>
      match near x (10 ^ Z.of_nat k) with
      | Some v => v
      | None => shortestFrom x k'
      end
  end.

(** The integer with the fewest significant digits that reads back as
    the double [x > 0]: the digits that [Number.prototype.toString]
    prints. *)
Definition shortest (x : Z) : Z :=
  shortestFrom x (String.length (decimal x) - 1).

Fixpoint stripZeros (fuel : nat) (s : Z) : Z :=
  match fuel with
  | 0 => s
  | S f => if (s mod 10 =? 0)%Z then stripZeros f (s / 10) else s
  end.

(** The notation with an exponent: d.ddde+n. *)
Definition exponential (v : Z) : string :=
  let n := String.length (decimal v) in
  match decimal (stripZeros n v) with
  | String d EmptyString => String d EmptyString
  | String d r => String d ("." +:+ r)
  | EmptyString => EmptyString
  end +:+ "e+" +:+ decimal (Z.of_nat (n - 1)).

Definition positiveToString (x : Z) : string :=
  let v := shortest x in
  if (v <? 10 ^ 21)%Z then decimal v else exponential v.

(** A number inside a template literal. *)
Definition numToString (n : Num) : string :=
  match n with
  | Int z =>
      if (z =? 0)%Z then "0"
      else if (z <? 0)%Z then "-" +:+ positiveToString (- z)
      else positiveToString z
  | NaN => "NaN"
  | Infinity neg => if neg then "-Infinity" else "Infinity"
  end.

Definition natToString (n : nat) : string :=
  NilZero.string_of_uint (Nat.to_uint n).

(** [a > b] and [a - b] on these numbers for an integer [b]; NaN
    compares false, and the difference is rounded. *)
Definition gt (a : Num) (b : Z) : bool :=
  match a with
  | Int z => (b <? z)%Z
  | NaN => false
  | Infinity neg => negb neg
  end.

Definition sub (a : Num) (b : Z) : Num :=
  match a with
  | Int z => roundDouble (z - b)
  | NaN => NaN
  | Infinity neg => Infinity neg
  end.

(** [String(b)] for a boolean, as [setAttribute] stores it. *)
Definition boolToString (b : bool) : string :=
  if b then "true" else "false".

Definition dquote : string := String (ascii_of_nat 34) EmptyString.

End Js.

(** ** The presentation tree *)

Module Dom.

(** One element node.  [parentNode] is the handle of the enclosing
    element (none for a child of the body); [textContent] is the text of
    the node with its descendants, which the script only reads;
    [expandWired] says that [initializeTimeline] attached its click
    listener to the node. *)
Record Element := mkElement {
  tagName : string;
  elementId : string;
  classList : list string;
  attributes : gmap string string;
  hidden : bool;
  opacity : string;
  textContent : string;
  parentNode : option nat;
  expandWired : bool
}.

Abbreviation Document := (list Element).

Definition setClassList (cl : list string) (e : Element) : Element :=
  mkElement (tagName e) (elementId e) cl (attributes e) (hidden e)
            (opacity e) (textContent e) (parentNode e) (expandWired e).

Definition setAttributes (a : gmap string string) (e : Element) : Element :=
  mkElement (tagName e) (elementId e) (classList e) a (hidden e)
            (opacity e) (textContent e) (parentNode e) (expandWired e).

Definition setHidden (h : bool) (e : Element) : Element :=
  mkElement (tagName e) (elementId e) (classList e) (attributes e) h
            (opacity e) (textContent e) (parentNode e) (expandWired e).

Definition setOpacity (o : string) (e : Element) : Element :=
  mkElement (tagName e) (elementId e) (classList e) (attributes e) (hidden e)
            o (textContent e) (parentNode e) (expandWired e).

Definition setExpandWired (b : bool) (e : Element) : Element :=
  mkElement (tagName e) (elementId e) (classList e) (attributes e) (hidden e)
            (opacity e) (textContent e) (parentNode e) b.

(** [el.getAttribute(name)], [el.setAttribute(name, v)], [el.dataset.name] *)
Definition getAttribute (name : string) (e : Element) : option string :=
  attributes e !! name.

Definition setAttribute (name v : string) (e : Element) : Element :=
  setAttributes (<[name := v]> (attributes e)) e.

Definition dataset (name : string) (e : Element) : option string :=
  attributes e !! ("data-" +:+ name).

(** [el.classList]: contains, add, remove, toggle(name, force) *)
Definition contains (c : string) (e : Element) : bool :=
  bool_decide (c ∈ classList e).

Definition classAdd (c : string) (e : Element) : Element :=
  if contains c e then e else setClassList (classList e ++ [c]) e.

Definition classRemove (c : string) (e : Element) : Element :=
  setClassList (List.filter (fun x => negb (String.eqb x c)) (classList e)) e.

Definition classToggle (c : string) (force : bool) (e : Element) : Element :=
  if force then classAdd c e else classRemove c e.

(** Selectors are predicates on elements. *)
Definition Selector := Element -> bool.

Definition byClass (c : string) : Selector := contains c.
Definition byTag (t : string) : Selector := fun e => String.eqb (tagName e) t.
(** The attribute is present and equal to [v]. *)
Definition byAttr (name v : string) : Selector :=
  fun e => bool_decide (getAttribute name e = Some v).
Definition both (p q : Selector) : Selector := fun e => p e && q e.

(** The text [[name="value"]] that a template literal builds. *)
Definition attrText (name value : string) : string :=
  "[" +:+ name +:+ "=" +:+ Js.dquote +:+ value +:+ Js.dquote +:+ "]".

(** How a value reads between the quotes of such a text.  A value of
    ordinary characters stands for itself.  A line break (LF, FF, CR)
    ends the string token badly, and the text is no selector.  A quote, a
    backslash or a NUL character ends or escapes the string, and what the
    rest of the text means is up to the parser of the browser. *)
Inductive ValueKind := PlainValue | BrokenString | Escaping.

Definition isLineBreak (c : ascii) : bool :=
  let n := nat_of_ascii c in (n =? 10)%nat || (n =? 12)%nat || (n =? 13)%nat.

Definition isSpecial (c : ascii) : bool :=
  let n := nat_of_ascii c in (n =? 0)%nat || (n =? 34)%nat || (n =? 92)%nat.

Fixpoint classify (value : string) : ValueKind :=
  match value with
  | EmptyString => PlainValue
  | String c r =>
      if isLineBreak c then BrokenString
      else if isSpecial c then Escaping
      else classify r
  end.

Fixpoint matchesFrom (sel : Selector) (k : nat) (d : Document) : list nat :=
  match d with
  | [] => []
  | e :: r => if sel e then k :: matchesFrom sel (S k) r
              else matchesFrom sel (S k) r
  end.

(** [document.querySelectorAll]: the handles of the matching elements,
    in document order. *)
Definition querySelectorAll (sel : Selector) (d : Document) : list nat :=
  matchesFrom sel 0 d.

(** [document.querySelector]: the first match, or null. *)
Definition querySelector (sel : Selector) (d : Document) : option nat :=
  head (querySelectorAll sel d).

(** [document.getElementById]: the first element with that id; the
    empty id names no element. *)
Definition getElementById (x : string) (d : Document) : option nat :=
  if Js.truthy x then querySelector (fun e => String.eqb (elementId e) x) d
  else None.

(** [querySelectorAll(sel).forEach(el => ...)] with a body that updates
    only [el]. *)
Definition forEachMatch (sel : Selector) (f : Element -> Element)
    (d : Document) : Document :=
  map (fun e => if sel e then f e else e) d.

(** An update of the element behind a handle. *)
Definition update (i : nat) (f : Element -> Element) (d : Document) : Document :=
  alter f i d.

(** [j] lies strictly below [i] in the tree. *)
Fixpoint hasAncestor (fuel : nat) (d : Document) (i j : nat) : bool :=
  match fuel with
  | 0 => false
  | S fuel' =>
      match d !! j with
      | Some e =>
          match parentNode e with
          | Some p => (p =? i)%nat || hasAncestor fuel' d i p
          | None => false
          end
      | None => false
      end
  end.

(** [el.querySelector(sel)]: the first descendant that matches. *)
Definition querySelectorIn (i : nat) (sel : Selector) (d : Document) : option nat :=
  head (List.filter (hasAncestor (length d) d i) (querySelectorAll sel d)).

Fixpoint closestFrom (fuel : nat) (sel : Selector) (d : Document) (i : nat)
    : option nat :=
  match fuel with
  | 0 => None
  | S fuel' =>
      match d !! i with
      | Some e =>
          if sel e then Some i
          else match parentNode e with
               | Some p => closestFrom fuel' sel d p
               | None => None
               end
      | None => None
      end
  end.

(** [el.closest(sel)]: the element itself or its nearest ancestor that
    matches.  A chain of parents is no longer than the document. *)
Definition closest (sel : Selector) (d : Document) (i : nat) : option nat :=
  closestFrom (length d) sel d i.

End Dom.

(** ** Interaction state, the browser around it, and effects *)

Import Dom.

(** The [state] object of the script. *)
Record State := mkState {
  activeTab : string;
  expandedPanels : list string;
  decisionTreeStep : Js.Num;
  glossaryOpen : bool
}.

Definition initialState : State := mkState "resident" [] (Js.Int 1) false.

Definition setActiveTab (t : string) (s : State) : State :=
  mkState t (expandedPanels s) (decisionTreeStep s) (glossaryOpen s).
Definition setExpandedPanels (l : list string) (s : State) : State :=
  mkState (activeTab s) l (decisionTreeStep s) (glossaryOpen s).
Definition setDecisionTreeStep (n : Js.Num) (s : State) : State :=
  mkState (activeTab s) (expandedPanels s) n (glossaryOpen s).
Definition setGlossaryOpen (b : bool) (s : State) : State :=
  mkState (activeTab s) (expandedPanels s) (decisionTreeStep s) b.

(** What a statement can throw. *)
Inductive JsError :=
| TypeError (what : string)
| SecurityError
| QuotaExceededError
| SyntaxError
| InvalidSelector (text : string).

(** The browser's [localStorage]: access may be denied (private mode) and
    a write may exceed the quota. *)
Record Storage := mkStorage {
  accessDenied : bool;
  quota : nat;
  items : gmap string string
}.

(** The callbacks handed to [setTimeout]. *)
Inductive Callback :=
| ScrollPanelIntoView (panel : nat)
| ClearHighlights
| DismissNotification (node : nat)
| FocusGlossarySearch.

(** What a turn does besides changing the tree and the state. *)
Inductive Effect :=
| Alert (message : string)
| ConsoleWarn (message : string) (e : JsError)
| ConsoleLog (args : list string)
| ScrollIntoView (node : nat) (block : string)
| Focus (node : nat)
| SetTimeout (cb : Callback) (ms : nat)
| Reported (e : JsError).

Record World := mkWorld {
  doc : Document;
  state : State;
  bodyOverflow : string;
  localStorage : Storage;
  trace : list Effect
}.

Definition setDoc (d : Document) (w : World) : World :=
  mkWorld d (state w) (bodyOverflow w) (localStorage w) (trace w).
Definition setState (s : State) (w : World) : World :=
  mkWorld (doc w) s (bodyOverflow w) (localStorage w) (trace w).
Definition setBodyOverflow (o : string) (w : World) : World :=
  mkWorld (doc w) (state w) o (localStorage w) (trace w).
Definition setLocalStorage (s : Storage) (w : World) : World :=
  mkWorld (doc w) (state w) (bodyOverflow w) s (trace w).
Definition emit (e : Effect) (w : World) : World :=
  mkWorld (doc w) (state w) (bodyOverflow w) (localStorage w) (trace w ++ [e]).

(** A statement either completes or throws; both leave a world behind. *)
Inductive Outcome (A : Type) :=
| Return (a : A) (w : World)
| Throw (e : JsError) (w : World).
Arguments Return {A} a w.
Arguments Throw {A} e w.

Definition M (A : Type) : Type := World -> Outcome A.

#[global] Instance M_ret : MRet M := fun A a w => Return a w.
#[global] Instance M_bind : MBind M := fun A B f m w =>
  match m w with
  | Return a w' => f a w'
  | Throw e w' => Throw e w'
  end.

Definition throw {A} (e : JsError) : M A := fun w => Throw e w.
Definition lift (f : World -> World) : M unit := fun w => Return tt (f w).
Definition getWorld : M World := fun w => Return w w.

(** [try { body } catch (e) { handler(e) }] *)
Definition tryCatch (body : M unit) (handler : JsError -> M unit) : M unit :=
  fun w =>
    match body w with
    | Return a w' => Return a w'
    | Throw e w' => handler e w'
    end.

(** A value that must not be null to be dereferenced. *)
Definition deref {A} (what : string) (o : option A) : M A :=
  match o with
  | Some a => mret a
  | None => throw (TypeError what)
  end.

(** [list.forEach(x => ...)] with a body that may throw. *)
Fixpoint forEach {A} (l : list A) (body : A -> M unit) : M unit :=
  match l with
  | [] => mret tt
  | x :: r => body x ≫= fun _ => forEach r body
  end.

Definition worldOf {A} (o : Outcome A) : World :=
  match o with Return _ w => w | Throw _ w => w end.

(** A listener run by the event dispatcher: an exception is reported and
    does not reach the code that dispatched the event. *)
Definition listenerTurn (listener : M unit) (w : World) : World :=
  match listener w with
  | Return _ w' => w'
  | Throw e w' => emit (Reported e) w'
  end.

Section Browser.

(** The selector parser of the browser, for the texts whose meaning is
    not settled above: no result stands for a SyntaxError, and otherwise
    the result is the first match in the tree, if any. *)
Variable selectorEngine : string -> Document -> option (option nat).

(** What [node.click()] does: the click listeners of the page. *)
Variable click : nat -> World -> World.

(** [document.querySelector(text)] for a text built around [value];
    [sel] is what the text selects when the value is plain. *)
Definition selectWith (text value : string) (sel : Selector) (d : Document)
    : option (option nat) :=
  match classify value with
  | PlainValue => Some (querySelector sel d)
  | BrokenString => None
  | Escaping => selectorEngine text d
  end.

Definition querySelectorWith (text value : string) (sel : Selector)
    : M (option nat) :=
  fun w =>
    match selectWith text value sel (doc w) with
    | Some found => Return found w
    | None => Throw (InvalidSelector text) w
    end.

(** ** Tab navigation *)

Definition trackEvent (category action label : string) (w : World) : World :=
  emit (ConsoleLog ["Event:"; category; action; label]) w.

Definition highlightRelevantSteps (tabId : string) (d : Document) : Document :=
  let reset := forEachMatch (byClass "timeline-item") (setOpacity "1") d in
  if String.eqb tabId "resident" then
    forEachMatch (byClass "timeline-item")
      (fun item => if negb (contains "has-influence" item)
                   then setOpacity "0.7" item else item) reset
  else if String.eqb tabId "developer" then
    forEachMatch (byClass "timeline-item") (setOpacity "1") reset
  else reset.

(** The two guarded updates in the loop of [collapseAllPanels]. *)
Definition collapseNodes (panel button : option nat) (d : Document) : Document :=
  let d1 := match panel with
            | Some p => update p (setHidden true) d
            | None => d
            end in
  match button with
  | Some b => update b (setAttribute "aria-expanded" "false") d1
  | None => d1
  end.

(** The body of the loop of [collapseAllPanels] for one panel id: both
    nodes are looked up before either is changed. *)
Definition collapsePanel (panelId : string) : M unit :=
  w ← getWorld;
  let panel := getElementById panelId (doc w) in
  button ← querySelectorWith (attrText "aria-controls" panelId) panelId
             (byAttr "aria-controls" panelId);
  lift (fun w => setDoc (collapseNodes panel button (doc w)) w).

Definition collapseAllPanels : M unit :=
  w ← getWorld;
  forEach (expandedPanels (state w)) collapsePanel ;;
  lift (fun w => setState (setExpandedPanels [] (state w)) w).

(** The two loops of [switchTab] over the tab controls and the tab
    panels. *)
Definition markTabs (tabId : string) (d : Document) : Document :=
  forEachMatch (byClass "tab")
    (fun tab =>
       let isActive := bool_decide (dataset "tab" tab = Some tabId) in
       setAttribute "aria-selected" (Js.boolToString isActive)
         (classToggle "active" isActive tab)) d.

Definition showTabPanel (tabId : string) (d : Document) : Document :=
  forEachMatch (byClass "tab-content")
    (fun panel =>
       let isActive := String.eqb (elementId panel) (tabId +:+ "-panel") in
       setHidden (negb isActive) (classToggle "active" isActive panel)) d.

(** [switchTab] as declared (the script later rebinds the name to a
    wrapper and keeps this one as [originalSwitchTab]). *)
Definition originalSwitchTab (tabId : string) : M unit :=
  lift (fun w => setState (setActiveTab tabId (state w)) w) ;;
  lift (fun w => setDoc (markTabs tabId (doc w)) w) ;;
  lift (fun w => setDoc (showTabPanel tabId (doc w)) w) ;;
  collapseAllPanels ;;
  lift (fun w => setDoc (highlightRelevantSteps tabId (doc w)) w).

(** [switchTab] as every caller sees it: the tracking wrapper. *)
Definition switchTab (tabId : string) : M unit :=
  lift (trackEvent "Navigation" "Tab Switch" tabId) ;;
  originalSwitchTab tabId.

(** ** Timeline and detail panels *)

Definition initializeTimeline (w : World) : World :=
  setDoc (forEachMatch (byClass "btn-expand") (setExpandWired true) (doc w)) w.

(** [toggleDetailPanel(panelId, button)]; [button] is the handle of the
    trigger, and a handle that names no element stands for a missing
    argument. *)
Definition toggleDetailPanel (panelId : string) (button : nat) : M unit :=
  fun w =>
    let panel := getElementById panelId (doc w) in
    match doc w !! button with
    | None => Throw (TypeError "button.getAttribute") w
    | Some b =>
        let isExpanded :=
          bool_decide (getAttribute "aria-expanded" b = Some "true") in
        match panel with
        | None => Throw (TypeError "panel.hidden") w
        | Some p =>
            if isExpanded then
              let d := update button (setAttribute "aria-expanded" "false")
                         (update p (setHidden true) (doc w)) in
              let l := List.filter (fun id => negb (String.eqb id panelId))
                         (expandedPanels (state w)) in
              Return tt (setState (setExpandedPanels l (state w)) (setDoc d w))
            else
              let d := update button (setAttribute "aria-expanded" "true")
                         (update p (setHidden false) (doc w)) in
              let l := (expandedPanels (state w) ++ [panelId])%list in
              Return tt
                (emit (SetTimeout (ScrollPanelIntoView p) 100)
                   (setState (setExpandedPanels l (state w)) (setDoc d w)))
        end
    end.

(** The click listener that [initializeTimeline] attaches, with the
    trigger as [this]:
    [toggleDetailPanel(this.getAttribute('aria-controls'), this)].  A
    missing attribute reads as null, which [getElementById] takes as the
    text null. *)
Definition expandListener (this : nat) : M unit :=
  fun w =>
    match doc w !! this with
    | Some b =>
        toggleDetailPanel (default "null" (getAttribute "aria-controls" b)) this w
    | None => Throw (TypeError "this.getAttribute") w
    end.

(** ** Decision tree modal *)

(** [showDecisionStep(stepNumber)].  The text of a number holds digits,
    letters, a sign and a point only, so the value in the selector is
    plain. *)
Definition showDecisionStep (stepNumber : Js.Num) (w : World) : World :=
  let w1 := setState (setDecisionTreeStep stepNumber (state w)) w in
  let d1 := forEachMatch (byClass "decision-step") (classRemove "active") (doc w1) in
  let d2 := forEachMatch (byClass "decision-result") (classRemove "active") d1 in
  let currentStep :=
    querySelector (both (byClass "decision-step")
                        (byAttr "data-step" (Js.numToString stepNumber))) d2 in
  match currentStep with
  | Some i => setDoc (update i (classAdd "active") d2) w1
  | None => setDoc d2 w1
  end.

Definition showDecisionResult (resultType : string) : M unit :=
  lift (fun w => setDoc (forEachMatch (byClass "decision-step")
                           (classRemove "active") (doc w)) w) ;;
  lift (fun w => setDoc (forEachMatch (byClass "decision-result")
                           (classRemove "active") (doc w)) w) ;;
  resultElement ← querySelectorWith
                    (".decision-result" +:+ attrText "data-result" resultType)
                    resultType
                    (both (byClass "decision-result")
                          (byAttr "data-result" resultType));
  match resultElement with
  | Some i => lift (fun w => setDoc (update i (classAdd "active") (doc w)) w)
  | None => mret tt
  end.

Definition openDecisionTreeModal : M unit :=
  w ← getWorld;
  modal ← deref "modal.hidden" (getElementById "decisionTreeModal" (doc w));
  lift (fun w => setDoc (update modal (setHidden false) (doc w)) w) ;;
  lift (setBodyOverflow "hidden") ;;
  lift (fun w => setState (setDecisionTreeStep (Js.Int 1) (state w)) w) ;;
  lift (showDecisionStep (Js.Int 1)) ;;
  w ← getWorld;
  match querySelectorIn modal (byTag "button") (doc w) with
  | Some firstFocusable => lift (emit (Focus firstFocusable))
  | None => mret tt
  end.

Definition closeDecisionTree : M unit :=
  w ← getWorld;
  modal ← deref "modal.hidden" (getElementById "decisionTreeModal" (doc w));
  lift (fun w => setDoc (update modal (setHidden true) (doc w)) w) ;;
  lift (setBodyOverflow "") ;;
  w ← getWorld;
  opener ← deref "openDecisionTree.focus" (getElementById "openDecisionTree" (doc w));
  lift (emit (Focus opener)).

(** A [dataset] entry is followed when it is a non-empty string. *)
Definition carries (ref : option string) : bool :=
  match ref with Some s => Js.truthy s | None => false end.

(** [handleDecisionTreeChoice(button)] only reads the button. *)
Definition handleDecisionTreeChoice (button : Element) : M unit :=
  let nextStep := dataset "next" button in
  let result := dataset "result" button in
  if carries nextStep then
    lift (showDecisionStep (Js.parseInt (default "" nextStep)))
  else if carries result then
    showDecisionResult (default "" result)
  else mret tt.

Definition goBackDecision (w : World) : World :=
  if Js.gt (decisionTreeStep (state w)) 1 then
    showDecisionStep (Js.sub (decisionTreeStep (state w)) 1) w
  else w.

(** ** Glossary *)

Definition toggleGlossary : M unit :=
  w ← getWorld;
  let glossary := getElementById "glossary" (doc w) in
  let toggleButton := getElementById "glossaryToggle" (doc w) in
  lift (fun w => setState (setGlossaryOpen (negb (glossaryOpen (state w))) (state w)) w) ;;
  g ← deref "glossary.hidden" glossary;
  lift (fun w => setDoc (update g (setHidden (negb (glossaryOpen (state w)))) (doc w)) w) ;;
  t ← deref "toggleButton.setAttribute" toggleButton;
  lift (fun w => setDoc (update t (setAttribute "aria-expanded"
                                     (Js.boolToString (glossaryOpen (state w)))) (doc w)) w) ;;
  w ← getWorld;
  if glossaryOpen (state w) then lift (emit (SetTimeout FocusGlossarySearch 100))
  else mret tt.

(** [item.dataset.term || item.textContent.toLowerCase()] *)
Definition searchableText (item : Element) : string :=
  match dataset "term" item with
  | Some t => if Js.truthy t then t else Js.toLowerCase (textContent item)
  | None => Js.toLowerCase (textContent item)
  end.

Definition filterGlossary (searchTerm : string) (w : World) : World :=
  let term := Js.trim (Js.toLowerCase searchTerm) in
  setDoc
    (forEachMatch (byClass "glossary-item")
       (fun item =>
          let matches := Js.includes (searchableText item) term in
          setHidden (negb (String.eqb term "") && negb matches) item)
       (doc w)) w.

(** ** Search *)

Inductive MatchType := Timeline | Detail.

(** One entry of the [matches] array of [performSearch]. *)
Record Match := mkMatch {
  mtype : MatchType;
  element : option nat;
  title : string
}.

Definition elementAt (what : string) (i : nat) : M Element :=
  w ← getWorld; deref what (doc w !! i).

(** [showNotification(message, type)] appends a status node to the body
    and schedules its removal. *)
Definition showNotification (message type : string) (w : World) : World :=
  let notification :=
    mkElement "div" "" ["notification"; "notification-" +:+ type]
      (<["aria-live" := "polite"]> (<["role" := "status"]> ∅))
      false "" message None false in
  emit (SetTimeout (DismissNotification (length (doc w))) 5000)
    (setDoc (doc w ++ [notification])%list w).

(** The body of the loop over the timeline cards. *)
Definition timelineMatch (searchTerm : string) (card : nat) : M (option Match) :=
  w ← getWorld;
  c ← elementAt "card.textContent" card;
  let text := Js.toLowerCase (textContent c) in
  if Js.includes text searchTerm then
    h4 ← deref "card.querySelector('h4').textContent"
           (querySelectorIn card (byTag "h4") (doc w));
    heading ← elementAt "h4.textContent" h4;
    mret (Some (mkMatch Timeline
                  (closest (byClass "timeline-item") (doc w) card)
                  (textContent heading)))
  else mret None.

(** The body of the loop over the detail panels. *)
Definition detailMatch (searchTerm : string) (panel : nat) : M (option Match) :=
  w ← getWorld;
  p ← elementAt "panel.textContent" panel;
  let text := Js.toLowerCase (textContent p) in
  if Js.includes text searchTerm then
    h3 ← deref "panel.querySelector('h3').textContent"
           (querySelectorIn panel (byTag "h3") (doc w));
    heading ← elementAt "h3.textContent" h3;
    mret (Some (mkMatch Detail (Some panel) (textContent heading)))
  else mret None.

(** A loop that pushes at most one match per element. *)
Fixpoint collectMatches (l : list nat) (body : nat -> M (option Match))
    (matches : list Match) : M (list Match) :=
  match l with
  | [] => mret matches
  | x :: r =>
      m ← body x;
      collectMatches r body
        (match m with Some v => (matches ++ [v])%list | None => matches end)
  end.

(** The two scans of [performSearch]: timeline cards, then detail panels. *)
Definition findMatches (searchTerm : string) : M (list Match) :=
  w ← getWorld;
  let timelineCards := querySelectorAll (byClass "timeline-card") (doc w) in
  let detailPanels := querySelectorAll (byClass "detail-panel") (doc w) in
  found ← collectMatches timelineCards (timelineMatch searchTerm) [];
  collectMatches detailPanels (detailMatch searchTerm) found.

(** The body of the loop of [highlightSearchResults]. *)
Definition highlightMatch (m : Match) : M unit :=
  el ← deref "match.element.classList" (element m);
  lift (fun w => setDoc (update el (classAdd "search-highlight") (doc w)) w) ;;
  match mtype m with
  | Detail =>
      e ← elementAt "match.element.id" el;
      let panelId := elementId e in
      found ← querySelectorWith (attrText "aria-controls" panelId) panelId
                (byAttr "aria-controls" panelId);
      match found with
      | Some button =>
          b ← elementAt "button.getAttribute" button;
          if bool_decide (getAttribute "aria-expanded" b = Some "false")
          then lift (click button)
          else mret tt
      | None => mret tt
      end
  | Timeline => mret tt
  end.

Definition highlightSearchResults (matches : list Match) : M unit :=
  lift (fun w => setDoc (forEachMatch (byClass "search-highlight")
                           (classRemove "search-highlight") (doc w)) w) ;;
  forEach matches highlightMatch ;;
  lift (emit (SetTimeout ClearHighlights 5000)).

Definition foundMessage (n : nat) (searchTerm : string) : string :=
  "Found " +:+ Js.natToString n +:+ " result(s) for " +:+
  Js.dquote +:+ searchTerm +:+ Js.dquote.

Definition notFoundMessage (searchTerm : string) : string :=
  "No results found for " +:+ Js.dquote +:+ searchTerm +:+ Js.dquote.

Definition performSearch (query : string) : M unit :=
  let searchTerm := Js.trim (Js.toLowerCase query) in
  if String.eqb searchTerm "" then
    lift (emit (Alert "Please enter a search term"))
  else
    matches ← findMatches searchTerm;
    match matches with
    | first :: _ =>
        highlightSearchResults matches ;;
        target ← deref "matches[0].element.scrollIntoView" (element first);
        lift (emit (ScrollIntoView target "center")) ;;
        lift (showNotification (foundMessage (length matches) searchTerm) "info")
    | [] =>
        lift (showNotification (notFoundMessage searchTerm) "warning")
    end.

End Browser.

(** ** Persistence *)

(** [localStorage.setItem] and [localStorage.getItem] *)
Definition setItem (key value : string) : M unit := fun w =>
  let s := localStorage w in
  if accessDenied s then Throw SecurityError w
  else if (quota s <? String.length value)%nat then Throw QuotaExceededError w
  else Return tt (setLocalStorage
                    (mkStorage (accessDenied s) (quota s) (<[key := value]> (items s))) w).

Definition getItem (key : string) : M (option string) := fun w =>
  let s := localStorage w in
  if accessDenied s then Throw SecurityError w
  else Return (items s !! key) w.

(** The own properties of a parsed blob that the state object has. *)
Record Parsed := mkParsed {
  pActiveTab : option string;
  pExpandedPanels : option (list string);
  pDecisionTreeStep : option Js.Num;
  pGlossaryOpen : option bool
}.

(** [Object.assign(state, parsed)] *)
Definition assign (s : State) (p : Parsed) : State :=
  mkState (default (activeTab s) (pActiveTab p))
          (default (expandedPanels s) (pExpandedPanels p))
          (default (decisionTreeStep s) (pDecisionTreeStep p))
          (default (glossaryOpen s) (pGlossaryOpen p)).

Section Persistence.

(** The JSON built-ins: [stringify] on a state, and [parse], which
    throws a SyntaxError on text that is not JSON. *)
Variable JSON_stringify : State -> string.
Variable JSON_parse : string -> option Parsed.

Definition saveState : M unit :=
  tryCatch
    (w ← getWorld;
     setItem "rezoningGuideState" (JSON_stringify (state w)))
    (fun e => lift (emit (ConsoleWarn "Could not save state to localStorage:" e))).

Definition loadState : M unit :=
  tryCatch
    (saved ← getItem "rezoningGuideState";
     if carries saved then
       parsed ← match JSON_parse (default "" saved) with
                | Some p => mret p
                | None => throw SyntaxError
                end;
       lift (fun w => setState (assign (state w) parsed) w)
     else mret tt)
    (fun e => lift (emit (ConsoleWarn "Could not load state from localStorage:" e))).

End Persistence.

(** ** Keyboard navigation of the tabs *)

(** [Array.from(tabs).indexOf(node)]: the first position of the node, or -1. *)
Fixpoint indexOf (node : nat) (tabs : list nat) : Z :=
  match tabs with
  | [] => (-1)%Z
  | t :: r =>
      if (t =? node)%nat then 0%Z
      else let k := indexOf node r in
           if (k <? 0)%Z then (-1)%Z else (k + 1)%Z
  end.

(** [tabs[i]] for a number [i]: undefined outside the list. *)
Definition item (tabs : list nat) (i : Z) : option nat :=
  if (i <? 0)%Z then None else tabs !! Z.to_nat i.

(** The index that the [switch] of [handleTabKeyboard] computes for a
    key, or none for a key without a case. *)
Definition newIndexFor (key : string) (currentIndex len : Z) : option Z :=
  if String.eqb key "ArrowLeft" then
    let newIndex := (currentIndex - 1)%Z in
    Some (if (newIndex <? 0)%Z then (len - 1)%Z else newIndex)
  else if String.eqb key "ArrowRight" then
    let newIndex := (currentIndex + 1)%Z in
    Some (if (len <=? newIndex)%Z then 0%Z else newIndex)
  else if String.eqb key "Home" then Some 0%Z
  else if String.eqb key "End" then Some (len - 1)%Z
  else None.

Section TabKeyboard.

(** What [node.click()] does on a tab: the click listeners of the page. *)
Variable clickTab : nat -> World -> World.

(** [handleTabKeyboard(e, tabs)] for an event with key [key] and target
    [target]; the result says whether [e.preventDefault()] was called. *)
Definition handleTabKeyboard (key : string) (target : nat) (tabs : list nat)
    : M bool :=
  let currentIndex := indexOf target tabs in
  match newIndexFor key currentIndex (Z.of_nat (length tabs)) with
  | Some newIndex =>
      tab ← deref "tabs[newIndex].focus" (item tabs newIndex);
      lift (emit (Focus tab)) ;;
      lift (clickTab tab) ;;
      mret true
  | None => mret false
  end.

End TabKeyboard.

(** ** A small page

    Two tabs with their panels, a timeline of two items (each a card with
    a heading, a trigger and a detail panel), the decision tree modal with
    two questions and a result, and a glossary of two entries. *)

Module Page.

Definition node (tag ident : string) (classes : list string)
    (attrs : list (string * string)) (hid : bool) (text : string)
    (parent : option nat) : Element :=
  mkElement tag ident classes (list_to_map attrs) hid "" text parent false.

Definition page : Document :=
  [ (* 0 *) node "button" "" ["tab"; "active"]
      [("data-tab", "resident"); ("aria-selected", "true")] false "Residents" None;
    (* 1 *) node "button" "" ["tab"]
      [("data-tab", "developer"); ("aria-selected", "false")] false "Developers" None;
    (* 2 *) node "section" "resident-panel" ["tab-content"; "active"] [] false
      "How residents can take part" None;
    (* 3 *) node "section" "developer-panel" ["tab-content"] [] true
      "What applicants submit" None;
    (* 4 *) node "li" "" ["timeline-item"; "has-influence"] [] false
      "Open House Expand Open house details Public comment period" None;
    (* 5 *) node "div" "" ["timeline-card"] [] false "Open House Expand" (Some 4);
    (* 6 *) node "h4" "" [] [] false "Open House" (Some 5);
    (* 7 *) node "button" "" ["btn-expand"]
      [("aria-controls", "detail-1"); ("aria-expanded", "false")] false "Expand" (Some 5);
    (* 8 *) node "div" "detail-1" ["detail-panel"] [] true
      "Open house details Public comment period" (Some 4);
    (* 9 *) node "h3" "" [] [] false "Open house details" (Some 8);
    (* 10 *) node "li" "" ["timeline-item"] [] false
      "Staff Review Expand Review details Density and height" None;
    (* 11 *) node "div" "" ["timeline-card"] [] false "Staff Review Expand" (Some 10);
    (* 12 *) node "h4" "" [] [] false "Staff Review" (Some 11);
    (* 13 *) node "button" "" ["btn-expand"]
      [("aria-controls", "detail-2"); ("aria-expanded", "false")] false "Expand" (Some 11);
    (* 14 *) node "div" "detail-2" ["detail-panel"] [] true
      "Review details Density and height" (Some 10);
    (* 15 *) node "h3" "" [] [] false "Review details" (Some 14);
    (* 16 *) node "div" "decisionTreeModal" ["modal"] [] true "" None;
    (* 17 *) node "div" "" ["decision-step"; "active"] [("data-step", "1")] false
      "Does the project fit the zoning?" (Some 16);
    (* 18 *) node "button" "" ["btn-decision"]
      [("data-answer", "no"); ("data-next", "2")] false "No" (Some 17);
    (* 19 *) node "div" "" ["decision-step"] [("data-step", "2")] false
      "Is there a policy that supports it?" (Some 16);
    (* 20 *) node "button" "" ["btn-decision"]
      [("data-answer", "yes"); ("data-result", "rezoning-required")] false "Yes" (Some 19);
    (* 21 *) node "div" "" ["decision-result"] [("data-result", "rezoning-required")] false
      "A rezoning application is required" (Some 16);
    (* 22 *) node "button" "openDecisionTree" [] [] false "Do I need a rezoning?" None;
    (* 23 *) node "dt" "" ["glossary-item"] [("data-term", "fsr")] false
      "FSR Floor space ratio" None;
    (* 24 *) node "dt" "" ["glossary-item"] [] false
      "Rezoning A change of the zoning of a site" None ].

Definition storage0 : Storage := mkStorage false 4096 ∅.

(** A trigger whose panel is not in the page. *)
Definition orphanTrigger : Element :=
  setExpandWired true
    (node "button" "" ["btn-expand"]
       [("aria-controls", "detail-9"); ("aria-expanded", "false")] false "Expand" None).

(** A glossary entry whose term tag is written in capitals. *)
Definition upperTermEntry : Element :=
  node "dt" "" ["glossary-item"] [("data-term", "FSR")] false
    "FSR Floor space ratio" None.

(** A decision button that carries both references, and one with none. *)
Definition bothButton : Element :=
  node "button" "" ["btn-decision"]
    [("data-next", "2"); ("data-result", "rezoning-required")] false "Maybe" None.

Definition bareButton : Element :=
  node "button" "" ["btn-decision"] [("data-answer", "skip")] false "Skip" None.

(** The page once [initializeTimeline] has attached its listeners. *)
Definition world0 : World :=
  initializeTimeline (mkWorld page initialState "" storage0 []).

(** The same page when the browser denies access to the storage. *)
Definition worldDenied : World :=
  setLocalStorage (mkStorage true 0 ∅) world0.

(** The page with the orphan trigger appended (handle 25). *)
Definition worldOrphan : World :=
  setDoc (doc world0 ++ [orphanTrigger])%list world0.

(** A glossary of three entries: a lower-case tag, a tag in capitals, and
    an entry without a tag. *)
Definition worldGlossary : World :=
  mkWorld
    [ node "dt" "" ["glossary-item"] [("data-term", "fsr")] false
        "FSR Floor space ratio" None;
      upperTermEntry;
      node "dt" "" ["glossary-item"] [] false "FSR Floor space ratio" None ]
    initialState "" storage0 [].

(** The page after a reload, once [loadState] has merged a blob that
    [saveState] wrote while the first detail panel was open: the state
    lists the panel, the fresh tree shows it collapsed. *)
Definition reloaded : World :=
  setState (setExpandedPanels ["detail-1"] initialState) world0.

End Page.

(** ** Notions for the further properties *)

(** The parsed form of a blob that holds every field of a state. *)
Definition asParsed (s : State) : Parsed :=
  mkParsed (Some (activeTab s)) (Some (expandedPanels s))
           (Some (decisionTreeStep s)) (Some (glossaryOpen s)).

(** The panels and the state agree.  [expandedPanels] lists no id twice,
    and every node that carries the click listener of [initializeTimeline]
    is the first control of a panel that exists, with the trigger's
    [aria-expanded] attribute and the panel's [hidden] flag both saying
    whether the id of the panel is in [expandedPanels]. *)
Definition InSync (w : World) : Prop :=
  NoDup (expandedPanels (state w)) /\
  forall i b, doc w !! i = Some b -> expandWired b = true ->
    exists P p e,
      getAttribute "aria-controls" b = Some P /\
      querySelector (byAttr "aria-controls" P) (doc w) = Some i /\
      getElementById P (doc w) = Some p /\
      doc w !! p = Some e /\
      getAttribute "aria-expanded" b =
        Some (Js.boolToString (bool_decide (P ∈ expandedPanels (state w)))) /\
      hidden e = negb (bool_decide (P ∈ expandedPanels (state w))).

(** The same, as a check that runs on a concrete page. *)
Definition inSyncAt (w : World) (i : nat) (b : Element) : bool :=
  if expandWired b then
    match getAttribute "aria-controls" b with
    | Some P =>
        match getElementById P (doc w) with
        | Some p =>
            match doc w !! p with
            | Some e =>
                bool_decide (querySelector (byAttr "aria-controls" P) (doc w) = Some i) &&
                bool_decide (getAttribute "aria-expanded" b =
                  Some (Js.boolToString (bool_decide (P ∈ expandedPanels (state w))))) &&
                bool_decide (hidden e = negb (bool_decide (P ∈ expandedPanels (state w))))
            | None => false
            end
        | None => false
        end
    | None => false
    end
  else true.

Definition inSyncb (w : World) : bool :=
  bool_decide (NoDup (expandedPanels (state w))) &&
  forallb (fun i => match doc w !! i with Some b => inSyncAt w i b | None => true end)
          (seq 0 (length (doc w))).

(** The bodies of the two scans leave the world as it is. *)
Definition pureAt (body : nat -> M (option Match)) (w : World) : Prop :=
  forall i, (exists r, body i w = Return r w) \/
            (exists what, body i w = Throw (TypeError what) w).

(** Two trees of the same length whose elements have the same classes
    and the same ids. *)
Definition sameClasses (d d' : Document) : Prop :=
  length d' = length d /\
  forall i e, d !! i = Some e ->
    exists e', d' !! i = Some e' /\ classList e' = classList e /\
               elementId e' = elementId e.

(** The tree after a call of [toggleDetailPanel] that completes. *)
Definition toggled (panel button : nat) (x : bool) (d : Document) : Document :=
  update button (setAttribute "aria-expanded" (Js.boolToString (negb x)))
    (update panel (setHidden x) d).

(** What [collapseAllPanels] may do to an element: set its
    [aria-expanded] attribute to false and hide it, and nothing else. *)
Definition settled (e e' : Element) : Prop :=
  (tagName e' = tagName e /\ opacity e' = opacity e /\
   textContent e' = textContent e /\ parentNode e' = parentNode e) /\
  elementId e' = elementId e /\
  classList e' = classList e /\
  expandWired e' = expandWired e /\
  (forall k, k <> "aria-expanded" -> attributes e' !! k = attributes e !! k) /\
  (getAttribute "aria-expanded" e' = getAttribute "aria-expanded" e \/
   getAttribute "aria-expanded" e' = Some "false") /\
  (hidden e' = hidden e \/ hidden e' = true).

(** The two loops of [switchTab] over the tab controls and the tab
    panels, as one function of the tree. *)
Definition tabLoops (T : string) (d : Document) : Document :=
  forEachMatch (byClass "tab-content")
    (fun panel =>
       setHidden (negb (String.eqb (elementId panel) (T +:+ "-panel")))
         (classToggle "active" (String.eqb (elementId panel) (T +:+ "-panel")) panel))
    (forEachMatch (byClass "tab")
       (fun tab =>
          setAttribute "aria-selected"
            (Js.boolToString (bool_decide (dataset "tab" tab = Some T)))
            (classToggle "active" (bool_decide (dataset "tab" tab = Some T)) tab))
       d).

(** No panel that a trigger controls is a tab panel. *)
Definition panelsApart (d : Document) : Prop :=
  forall i b P p e,
    d !! i = Some b -> expandWired b = true ->
    getAttribute "aria-controls" b = Some P ->
    getElementById P d = Some p -> d !! p = Some e ->
    byClass "tab-content" e = false.

Definition panelsApartAt (d : Document) (b : Element) : bool :=
  if expandWired b then
    match getAttribute "aria-controls" b with
    | Some P =>
        match getElementById P d with
        | Some p =>
            match d !! p with
            | Some e => negb (byClass "tab-content" e)
            | None => true
            end
        | None => true
        end
    | None => true
    end
  else true.

(** ** More sample data *)

Module Samples.

(** A selector parser that refuses every text it is asked about.  The
    ids and names of the sample pages are plain, so it is never asked. *)
Definition engine : string -> Document -> option (option nat) :=
  fun _ _ => None.

(** What [node.click()] does on [Page.page] once the initializers have
    run: the tabs carry the listener of [initializeTabs], the triggers
    that of [initializeTimeline], and the opening button that of
    [initializeDecisionTree], which stops there since the page has no
    close button. *)
Definition click (i : nat) (w : World) : World :=
  if (i =? 0)%nat then listenerTurn (switchTab engine "resident") w
  else if (i =? 1)%nat then listenerTurn (switchTab engine "developer") w
  else if (i =? 7)%nat || (i =? 13)%nat then listenerTurn (expandListener i) w
  else if (i =? 22)%nat then listenerTurn openDecisionTreeModal w
  else w.

(** The tabs of [Page.page], and what a click on each of them does. *)
Definition tabs : list nat := [0; 1].

Definition clickTab (i : nat) (w : World) : World := click i w.

(** The page with the glossary overlay (handle 25) and the control that
    toggles it (handle 26). *)
Definition glossaryWorld : World :=
  setDoc
    (doc Page.world0 ++
     [ Page.node "aside" "glossary" ["glossary"] [] true "Glossary" None;
       Page.node "button" "glossaryToggle" []
         [("aria-expanded", "false")] false "Glossary" None ])
    Page.world0.

(** A page whose only element is a detail panel without a heading. *)
Definition headlessWorld : World :=
  mkWorld
    [ Page.node "div" "detail-3" ["detail-panel"] [] true "Density bonus" None ]
    initialState "" Page.storage0 [].

(** A decision button whose next reference is no number. *)
Definition wordButton : Element :=
  Page.node "button" "" ["btn-decision"] [("data-next", "two")] false "Next" None.

End Samples.

(** ** Vocabulary of the statements *)

(** A query that is empty or all white space. *)
Definition allWhiteSpace (s : string) : bool :=
  forallb Js.isWhiteSpace (list_ascii_of_string s).

(** The nodes of the decision tree: questions and results.  A node is
    shown when it carries the class [active]. *)
Definition isDecisionNode : Selector :=
  fun e => byClass "decision-step" e || byClass "decision-result" e.

Definition visibleDecisionNode : Selector :=
  both isDecisionNode (byClass "active").

Definition visibleDecisionNodes (w : World) : list nat :=
  querySelectorAll visibleDecisionNode (doc w).

(** The question with step identity [n]; the result named [r]. *)
Definition questionWithStep (n : Js.Num) : Selector :=
  both (byClass "decision-step") (byAttr "data-step" (Js.numToString n)).

Definition resultNamed (r : string) : Selector :=
  both (byClass "decision-result") (byAttr "data-result" r).

(** The text that [showDecisionResult] hands to [querySelector]. *)
Definition resultText (r : string) : string :=
  ".decision-result" +:+ attrText "data-result" r.

(** A sequence of calls of the two display functions, each from a turn
    of its own: a call that throws leaves its world to the next one. *)
Inductive DecisionCall :=
| ShowStep (n : Js.Num)
| ShowResult (r : string).

Definition runCall (engine : string -> Document -> option (option nat))
    (w : World) (c : DecisionCall) : World :=
  match c with
  | ShowStep n => showDecisionStep n w
  | ShowResult r => worldOf (showDecisionResult engine r w)
  end.

Definition runCalls (engine : string -> Document -> option (option nat))
    (calls : list DecisionCall) (w : World) : World :=
  foldl (runCall engine) w calls.

(** The two loops at the head of [showDecisionStep] and
    [showDecisionResult], on the tree and on one element. *)
Definition deactivateAll (d : Document) : Document :=
  forEachMatch (byClass "decision-result") (classRemove "active")
    (forEachMatch (byClass "decision-step") (classRemove "active") d).

Definition deactivate (e : Element) : Element :=
  let e1 := if byClass "decision-step" e then classRemove "active" e else e in
  if byClass "decision-result" e1 then classRemove "active" e1 else e1.

(** The lookup of the call returns no node from outside the decision
    tree. *)
Definition staysInTree (engine : string -> Document -> option (option nat))
    (c : DecisionCall) (w : World) : Prop :=
  match c with
  | ShowStep _ => True
  | ShowResult r =>
      forall i e,
        selectWith engine (resultText r) r (resultNamed r) (deactivateAll (doc w)) =
          Some (Some i) ->
        doc w !! i = Some e -> isDecisionNode e = true
  end.

(** A result name that closes the quoted value and goes on with a
    selector of its own, and a parser that reads the text built around it
    as the list of selectors it then is: the result named x, or a heading
    of level 4, or a node whose attribute y is empty. *)
Module Injected.

Definition name : string :=
  "x" +:+ Js.dquote +:+ "], h4, [y=" +:+ Js.dquote.

Definition engine (text : string) (d : Document) : option (option nat) :=
  if String.eqb text (resultText name) then
    Some (querySelector
            (fun e => resultNamed "x" e || byTag "h4" e || byAttr "y" "" e) d)
  else None.

End Injected.

(** Every id of a list is plain in a selector. *)
Definition allPlain (ids : list string) : Prop :=
  Forall (fun x => classify x = PlainValue) ids.

(** The tab control with identity [T] and the panel that belongs to it;
    a tab control marked selected; a tab panel that is shown. *)
Definition tabControl (T : string) : Selector :=
  both (byClass "tab") (byAttr "data-tab" T).

Definition tabPanel (T : string) : Selector :=
  both (byClass "tab-content")
       (fun e => String.eqb (elementId e) (T +:+ "-panel")).

Definition selectedTab : Selector :=
  both (byClass "tab") (byAttr "aria-selected" "true").

Definition visibleTabPanel : Selector :=
  both (byClass "tab-content") (fun e => negb (hidden e)).

(** The normalised query occurs in the lower-cased text of the element. *)
Definition textMatches (term : string) : Selector :=
  fun e => Js.includes (Js.toLowerCase (textContent e)) term.

(** A detail panel with its trigger, as the data model pairs them: the id
    of the panel is plain and names it, the first control that refers to
    the id is the trigger, and the trigger's [aria-expanded] attribute and
    the panel's [hidden] flag both say whether the panel is open ([x]). *)
Definition detailPanelPair (d : Document) (panel button : nat)
    (p b : Element) (x : bool) : Prop :=
  d !! panel = Some p /\
  d !! button = Some b /\
  classify (elementId p) = PlainValue /\
  getElementById (elementId p) d = Some panel /\
  querySelector (byAttr "aria-controls" (elementId p)) d = Some button /\
  getAttribute "aria-expanded" b = Some (Js.boolToString x) /\
  hidden p = negb x.

(** A click on [button] runs the listener of [initializeTimeline] and no
    other. *)
Definition clicksExpand (click : nat -> World -> World) (button : nat) : Prop :=
  forall w, click button w = listenerTurn (expandListener button) w.

(** ** Notions used in the proofs *)

(** What a pass of the loop of [collapseAllPanels] does for an id whose
    selector needs no parser, and the whole of [collapseAllPanels],
    [switchTab], [showDecisionResult] and [handleDecisionTreeChoice] when
    every id and name is of that kind. *)
Definition collapsePlain (d : Document) (panelId : string) : Document :=
  let panel := getElementById panelId d in
  let button := querySelector (byAttr "aria-controls" panelId) d in
  let d1 := match panel with
            | Some p => update p (setHidden true) d
            | None => d
            end in
  match button with
  | Some b => update b (setAttribute "aria-expanded" "false") d1
  | None => d1
  end.

Definition collapseAllPlain (w : World) : World :=
  let d := foldl collapsePlain (doc w) (expandedPanels (state w)) in
  setState (setExpandedPanels [] (state w)) (setDoc d w).

Definition originalSwitchTabPlain (tabId : string) (w : World) : World :=
  let w1 := setState (setActiveTab tabId (state w)) w in
  let tabs :=
    forEachMatch (byClass "tab")
      (fun tab =>
         let isActive := bool_decide (dataset "tab" tab = Some tabId) in
         setAttribute "aria-selected" (Js.boolToString isActive)
           (classToggle "active" isActive tab)) (doc w1) in
  let panels :=
    forEachMatch (byClass "tab-content")
      (fun panel =>
         let isActive := String.eqb (elementId panel) (tabId +:+ "-panel") in
         setHidden (negb isActive) (classToggle "active" isActive panel)) tabs in
  let w2 := collapseAllPlain (setDoc panels w1) in
  setDoc (highlightRelevantSteps tabId (doc w2)) w2.

Definition switchTabPlain (tabId : string) (w : World) : World :=
  originalSwitchTabPlain tabId (trackEvent "Navigation" "Tab Switch" tabId w).

Definition showResultPlain (resultType : string) (w : World) : World :=
  let d1 := forEachMatch (byClass "decision-step") (classRemove "active") (doc w) in
  let d2 := forEachMatch (byClass "decision-result") (classRemove "active") d1 in
  let resultElement :=
    querySelector (both (byClass "decision-result")
                        (byAttr "data-result" resultType)) d2 in
  match resultElement with
  | Some i => setDoc (update i (classAdd "active") d2) w
  | None => setDoc d2 w
  end.

(** What one round of [collapseAllPanels] may change in an element: the
    [aria-expanded] attribute, and the [hidden] flag when the id of the
    element is among the collapsed ones. *)
Definition collapsed (ids : list string) (e e' : Element) : Prop :=
  classList e' = classList e /\
  elementId e' = elementId e /\
  (forall k, k <> "aria-expanded" -> attributes e' !! k = attributes e !! k) /\
  (hidden e' = hidden e \/ (hidden e' = true /\ elementId e ∈ ids)).

(** [highlightRelevantSteps] only sets opacities. *)
Definition sameButOpacity (e e' : Element) : Prop :=
  classList e' = classList e /\ elementId e' = elementId e /\
  attributes e' = attributes e /\ hidden e' = hidden e.

(** The tree once [highlightSearchResults] has cleared the old markers
    and marked the matched panel. *)
Definition highlighted (panel : nat) (d : Document) : Document :=
  update panel (classAdd "search-highlight")
    (forEachMatch (byClass "search-highlight") (classRemove "search-highlight") d).

(** The marking changes class lists only. *)
Definition classOnly (e e' : Element) : Prop :=
  tagName e' = tagName e /\ elementId e' = elementId e /\
  attributes e' = attributes e /\ hidden e' = hidden e /\
  expandWired e' = expandWired e.

(** The world in which [highlightSearchResults] leaves a single detail
    match: the panel is marked, and its trigger is clicked when it says
    that the panel is closed. *)
Definition afterHighlight (w : World) (panel button : nat) (x : bool) : World :=
  emit (SetTimeout ClearHighlights 5000)
    (if x then setDoc (highlighted panel (doc w)) w
     else listenerTurn (expandListener button) (setDoc (highlighted panel (doc w)) w)).

(** * Properties *)

(** Case analysis on every conditional of the goal. *)
Ltac case_ifs :=
  repeat match goal with
         | |- context [if ?b then _ else _] => destruct b
         end.

(** ** Strings *)

Lemma prefix_app (t b : string) : String.prefix t (t +:+ b) = true.
Proof.
  induction t as [|c t IH]; simpl.
  - by destruct b.
  - destruct (ascii_dec c c); [exact IH | congruence].
Qed.

Lemma prefix_split (t s : string) :
  String.prefix t s = true -> exists b, s = t +:+ b.
Proof.
  revert s. induction t as [|c t IH]; intros s H.
  - by exists s.
  - destruct s as [|c' s]; simpl in H; [discriminate|].
    destruct (ascii_dec c c') as [->|]; [|discriminate].
    destruct (IH _ H) as [b ->]. by exists b.
Qed.

Lemma includes_unfold (s t : string) :
  Js.includes s t =
  String.prefix t s ||
  match s with EmptyString => false | String _ r => Js.includes r t end.
Proof. by destruct s. Qed.

(** [includes] is containment as a contiguous substring. *)
Lemma includes_spec (s t : string) :
  Js.includes s t = true <-> exists a b, s = a +:+ t +:+ b.
Proof.
  split.
  - induction s as [|c s IH]; rewrite includes_unfold;
      intros [H|H]%orb_true_iff.
    + destruct (prefix_split _ _ H) as [b ->]. by exists EmptyString, b.
    + discriminate.
    + destruct (prefix_split _ _ H) as [b ->]. by exists EmptyString, b.
    + destruct (IH H) as (a & b & ->). by exists (String c a), b.
  - intros (a & b & ->). induction a as [|c a IH].
    + rewrite includes_unfold.
      change (EmptyString +:+ t +:+ b) with (t +:+ b). by rewrite prefix_app.
    + change (String c a +:+ t +:+ b) with (String c (a +:+ t +:+ b)).
      rewrite includes_unfold, IH. apply orb_true_r.
Qed.

Lemma lowerChar_whiteSpace (c : ascii) :
  Js.isWhiteSpace c = true -> Js.lowerChar c = c.
Proof.
  destruct c as [[] [] [] [] [] [] [] []]; first [reflexivity | discriminate].
Qed.

(** An empty or all-white-space query normalises to the empty string. *)
Lemma normalise_blank (q : string) :
  allWhiteSpace q = true -> Js.trim (Js.toLowerCase q) = "".
Proof.
  unfold allWhiteSpace, Js.trim. induction q as [|c q IH]; simpl; [done|].
  intros [Hc Hq]%andb_true_iff.
  rewrite (lowerChar_whiteSpace _ Hc), Hc. auto.
Qed.

(** ** The text of a number is plain in a selector *)

Lemma classify_app (a b : string) :
  classify a = PlainValue -> classify (a +:+ b) = classify b.
Proof.
  induction a as [|c a IH]; [done|].
  change (String c a +:+ b) with (String c (a +:+ b)). simpl.
  destruct (isLineBreak c); [done|]. by destruct (isSpecial c).
Qed.

Lemma classify_tail (c : ascii) (r : string) :
  classify (String c r) = PlainValue ->
  classify r = PlainValue /\ forall s, classify (String c s) = classify s.
Proof.
  simpl. destruct (isLineBreak c); [done|]. by destruct (isSpecial c).
Qed.

Lemma classify_uint (d : Decimal.uint) :
  classify (NilEmpty.string_of_uint d) = PlainValue.
Proof. induction d; simpl; done. Qed.

Lemma classify_decimal (z : Z) : classify (Js.decimal z) = PlainValue.
Proof.
  unfold Js.decimal, NilZero.string_of_int, NilZero.string_of_uint.
  destruct (Z.to_int z) as [d|d]; destruct d; simpl; try done; apply classify_uint.
Qed.

Lemma classify_exponential (v : Z) : classify (Js.exponential v) = PlainValue.
Proof.
  unfold Js.exponential.
  pose proof (classify_decimal (Js.stripZeros (String.length (Js.decimal v)) v)) as H.
  assert (classify ("e+" +:+ Js.decimal (Z.of_nat (String.length (Js.decimal v) - 1))) =
          PlainValue) as He by (rewrite classify_app by done; apply classify_decimal).
  destruct (Js.decimal (Js.stripZeros _ v)) as [|d r]; [exact He|].
  destruct (classify_tail d r H) as [Hr Hd].
  destruct r as [|c r].
  - change (String d "" +:+ ?s) with (String d s). by rewrite Hd.
  - change (String d ("." +:+ String c r) +:+ ?s)
      with (String d (("." +:+ String c r) +:+ s)).
    rewrite Hd, classify_app; [exact He|]. by rewrite classify_app.
Qed.

Lemma classify_positive (x : Z) : classify (Js.positiveToString x) = PlainValue.
Proof.
  unfold Js.positiveToString.
  destruct (_ <? _)%Z; [apply classify_decimal | apply classify_exponential].
Qed.

(** The value that [showDecisionStep] puts between the quotes of its
    selector stands for itself, whatever the number. *)
Lemma numToString_plain (n : Js.Num) : classify (Js.numToString n) = PlainValue.
Proof.
  destruct n as [z| |[]]; try done. unfold Js.numToString.
  destruct (z =? 0)%Z; [done|].
  destruct (z <? 0)%Z; [|apply classify_positive].
  rewrite classify_app by done. apply classify_positive.
Qed.

(** ** Lists of handles *)

Lemma matchesFrom_shift (sel : Selector) (k : nat) (d : Document) :
  matchesFrom sel (S k) d = map S (matchesFrom sel k d).
Proof.
  revert k. induction d as [|e d IH]; intros k; simpl; [done|].
  destruct (sel e); simpl; by rewrite IH.
Qed.

Lemma querySelectorAll_cons (sel : Selector) (e : Element) (d : Document) :
  querySelectorAll sel (e :: d) =
  if sel e then 0 :: map S (querySelectorAll sel d)
  else map S (querySelectorAll sel d).
Proof. unfold querySelectorAll. simpl. by rewrite matchesFrom_shift. Qed.

Lemma elem_of_querySelectorAll (sel : Selector) (d : Document) (i : nat) :
  i ∈ querySelectorAll sel d <-> exists e, d !! i = Some e /\ sel e = true.
Proof.
  revert i. induction d as [|e d IH]; intros i.
  - split; [by intros ?%elem_of_nil | by intros (? & ? & _)].
  - rewrite querySelectorAll_cons. split.
    + intros H. destruct (sel e) eqn:E.
      * apply elem_of_cons in H as [->|H]; [by exists e|].
        apply list_elem_of_fmap in H as (j & -> & H). by apply IH in H.
      * apply list_elem_of_fmap in H as (j & -> & H). by apply IH in H.
    + intros (x & Hx & Hs). destruct i as [|i]; simpl in Hx.
      * injection Hx as ->. rewrite Hs. apply elem_of_cons. by left.
      * assert (S i ∈ map S (querySelectorAll sel d)).
        { apply list_elem_of_fmap. exists i. split; [done|]. apply IH. eauto. }
        destruct (sel e); [apply elem_of_cons; by right | done].
Qed.

(** Two documents that agree on a selector, element by element, give
    the same matches. *)
Lemma querySelectorAll_ext (sel sel' : Selector) (d d' : Document) :
  length d = length d' ->
  (forall i e e', d !! i = Some e -> d' !! i = Some e' -> sel e = sel' e') ->
  querySelectorAll sel d = querySelectorAll sel' d'.
Proof.
  revert d'. induction d as [|e d IH]; intros [|e' d'] Hl H; try discriminate.
  - done.
  - rewrite !querySelectorAll_cons.
    rewrite (H 0 e e' eq_refl eq_refl).
    rewrite (IH d'); [done | by injection Hl |].
    intros i x x' Hx Hx'. by apply (H (S i)).
Qed.

Lemma querySelectorAll_none (sel : Selector) (d : Document) :
  (forall i e, d !! i = Some e -> sel e = false) -> querySelectorAll sel d = [].
Proof.
  induction d as [|e d IH]; intros H; [done|].
  rewrite querySelectorAll_cons, (H 0 e eq_refl), IH; [done|].
  intros i x. apply (H (S i)).
Qed.

(** Exactly the element behind [i] matches. *)
Lemma querySelectorAll_single (sel : Selector) (d : Document) (i : nat) (e : Element) :
  d !! i = Some e -> sel e = true ->
  (forall j x, j <> i -> d !! j = Some x -> sel x = false) ->
  querySelectorAll sel d = [i].
Proof.
  revert i. induction d as [|x d IH]; intros i Hi Hs H; [done|].
  rewrite querySelectorAll_cons. destruct i as [|i]; simpl in Hi.
  - injection Hi as ->. rewrite Hs, querySelectorAll_none; [done|].
    intros j y. by apply (H (S j)).
  - rewrite (H 0 x) by done. rewrite (IH i); [done..|].
    intros j y Hj. apply (H (S j)). congruence.
Qed.

Lemma querySelector_Some (sel : Selector) (d : Document) (i : nat) :
  querySelector sel d = Some i ->
  exists e, d !! i = Some e /\ sel e = true.
Proof.
  unfold querySelector. intros H. apply elem_of_querySelectorAll.
  destruct (querySelectorAll sel d); [discriminate|].
  injection H as ->. apply elem_of_cons. by left.
Qed.

Lemma querySelector_None (sel : Selector) (d : Document) (i : nat) (e : Element) :
  querySelector sel d = None -> d !! i = Some e -> sel e = false.
Proof.
  unfold querySelector. intros H Hi. destruct (sel e) eqn:E; [|done].
  assert (Hin : i ∈ querySelectorAll sel d) by (apply elem_of_querySelectorAll; eauto).
  destruct (querySelectorAll sel d); [by apply elem_of_nil in Hin | discriminate].
Qed.

Lemma querySelector_ext (sel sel' : Selector) (d d' : Document) :
  length d = length d' ->
  (forall i e e', d !! i = Some e -> d' !! i = Some e' -> sel e = sel' e') ->
  querySelector sel d = querySelector sel' d'.
Proof. intros. unfold querySelector. by erewrite querySelectorAll_ext. Qed.

Lemma lookup_forEachMatch (sel : Selector) (f : Element -> Element)
    (d : Document) (i : nat) :
  forEachMatch sel f d !! i = (fun e => if sel e then f e else e) <$> d !! i.
Proof. apply list_lookup_fmap. Qed.

Lemma length_forEachMatch (sel : Selector) (f : Element -> Element) (d : Document) :
  length (forEachMatch sel f d) = length d.
Proof. apply length_map. Qed.

Lemma lookup_update (i j : nat) (f : Element -> Element) (d : Document) :
  update i f d !! j = (if decide (i = j) then f else fun e => e) <$> d !! j.
Proof.
  unfold update. rewrite list_lookup_alter.
  destruct (decide (i = j)) as [->|]; [done | by destruct (d !! j)].
Qed.

Lemma length_update (i : nat) (f : Element -> Element) (d : Document) :
  length (update i f d) = length d.
Proof. apply length_alter. Qed.

(** ** Class lists *)

Lemma contains_classRemove (c c' : string) (e : Element) :
  contains c (classRemove c' e) = contains c e && negb (String.eqb c c').
Proof.
  unfold contains, classRemove. simpl.
  apply eq_true_iff_eq. rewrite andb_true_iff, !bool_decide_eq_true.
  rewrite !list_elem_of_In, filter_In. done.
Qed.

Lemma contains_classAdd (c c' : string) (e : Element) :
  contains c (classAdd c' e) = contains c e || String.eqb c c'.
Proof.
  unfold classAdd. destruct (contains c' e) eqn:E.
  - destruct (String.eqb_spec c c') as [->|]; [by rewrite E | by rewrite orb_false_r].
  - unfold contains. simpl. apply eq_true_iff_eq.
    rewrite orb_true_iff, !bool_decide_eq_true, elem_of_app, list_elem_of_singleton.
    by rewrite String.eqb_eq.
Qed.

Lemma attributes_classRemove (c : string) (e : Element) :
  attributes (classRemove c e) = attributes e.
Proof. done. Qed.

Lemma attributes_classAdd (c : string) (e : Element) :
  attributes (classAdd c e) = attributes e.
Proof. unfold classAdd. by destruct (contains c e). Qed.

(** ** Decision tree *)

Lemma lookup_deactivateAll (d : Document) (i : nat) :
  deactivateAll d !! i = deactivate <$> d !! i.
Proof.
  unfold deactivateAll. rewrite !lookup_forEachMatch. by destruct (d !! i).
Qed.

Lemma length_deactivateAll (d : Document) : length (deactivateAll d) = length d.
Proof. unfold deactivateAll. by rewrite !length_forEachMatch. Qed.

Lemma deactivate_class (c : string) (e : Element) :
  c <> "active" -> byClass c (deactivate e) = byClass c e.
Proof.
  intros Hc. unfold deactivate, byClass.
  assert (String.eqb c "active" = false) as Hne by by apply String.eqb_neq.
  case_ifs;
    rewrite ?contains_classRemove, ?Hne, ?andb_true_r; done.
Qed.

Lemma deactivate_attributes (e : Element) : attributes (deactivate e) = attributes e.
Proof.
  unfold deactivate.
  case_ifs; done.
Qed.

Lemma deactivate_hides (e : Element) : visibleDecisionNode (deactivate e) = false.
Proof.
  unfold visibleDecisionNode, both, isDecisionNode.
  rewrite !deactivate_class by done.
  unfold deactivate, byClass.
  destruct (contains "decision-step" e) eqn:E1; simpl.
  - destruct (contains "decision-result" (classRemove "active" e));
      rewrite ?contains_classRemove; simpl; by rewrite ?andb_false_r.
  - destruct (contains "decision-result" e) eqn:E2; simpl; [|done].
    by rewrite contains_classRemove, andb_false_r.
Qed.

(** After the two loops, a selector on classes other than [active] and on
    attributes finds what it found before. *)
Lemma querySelector_deactivateAll (c name v : string) (d : Document) :
  c <> "active" ->
  querySelector (both (byClass c) (byAttr name v)) (deactivateAll d) =
  querySelector (both (byClass c) (byAttr name v)) d.
Proof.
  intros Hc. apply querySelector_ext; [apply length_deactivateAll|].
  intros i e e'. rewrite lookup_deactivateAll. intros He Hd.
  rewrite Hd in He. injection He as <-.
  unfold both, byAttr, getAttribute.
  by rewrite deactivate_class, deactivate_attributes.
Qed.

(** Activating one decision node of a cleared tree shows exactly it. *)
Lemma visible_after_activation (c : string) (d : Document) (i : nat) (e : Element) :
  c = "decision-step" \/ c = "decision-result" ->
  d !! i = Some e -> byClass c e = true ->
  querySelectorAll visibleDecisionNode (update i (classAdd "active") (deactivateAll d)) = [i].
Proof.
  intros Hc Hi Hcl.
  apply querySelectorAll_single with (e := classAdd "active" (deactivate e)).
  - rewrite lookup_update, lookup_deactivateAll, Hi. simpl.
    by rewrite decide_True.
  - unfold visibleDecisionNode, both, isDecisionNode, byClass.
    rewrite !contains_classAdd. simpl. rewrite !orb_false_r, orb_true_r, andb_true_r.
    fold (byClass "decision-step" (deactivate e)).
    fold (byClass "decision-result" (deactivate e)).
    rewrite !deactivate_class by done.
    destruct Hc as [-> | ->]; rewrite Hcl; by rewrite ?orb_true_r.
  - intros j x Hj. rewrite lookup_update, lookup_deactivateAll.
    rewrite decide_False by done.
    destruct (d !! j) as [y|]; [|done]. simpl. intros [= <-].
    apply deactivate_hides.
Qed.

Lemma visible_after_clearing (d : Document) :
  querySelectorAll visibleDecisionNode (deactivateAll d) = [].
Proof.
  apply querySelectorAll_none. intros i e. rewrite lookup_deactivateAll.
  destruct (d !! i); [|done]. intros [= <-]. apply deactivate_hides.
Qed.

Lemma showDecisionStep_visible (n : Js.Num) (w : World) :
  visibleDecisionNodes (showDecisionStep n w) =
  option_list (querySelector (questionWithStep n) (doc w)).
Proof.
  unfold visibleDecisionNodes, showDecisionStep, questionWithStep. simpl.
  fold (deactivateAll (doc w)).
  rewrite querySelector_deactivateAll by done.
  destruct (querySelector _ (doc w)) as [i|] eqn:E; simpl.
  - apply querySelector_Some in E as (e & Hi & [Hc _]%andb_true_iff).
    eapply (visible_after_activation "decision-step"); eauto.
  - apply visible_after_clearing.
Qed.

Lemma showResultPlain_visible (r : string) (w : World) :
  visibleDecisionNodes (showResultPlain r w) =
  option_list (querySelector (resultNamed r) (doc w)).
Proof.
  unfold visibleDecisionNodes, showResultPlain, resultNamed. simpl.
  fold (deactivateAll (doc w)).
  rewrite querySelector_deactivateAll by done.
  destruct (querySelector _ (doc w)) as [i|] eqn:E; simpl.
  - apply querySelector_Some in E as (e & Hi & [Hc _]%andb_true_iff).
    eapply (visible_after_activation "decision-result"); eauto.
  - apply visible_after_clearing.
Qed.

Lemma showDecisionStep_state (n : Js.Num) (w : World) :
  state (showDecisionStep n w) = setDecisionTreeStep n (state w).
Proof. unfold showDecisionStep. by destruct (querySelector _ _). Qed.

Lemma showResultPlain_state (r : string) (w : World) :
  state (showResultPlain r w) = state w.
Proof. unfold showResultPlain. by destruct (querySelector _ _). Qed.

Lemma querySelector_update (sel : Selector) (i : nat) (f : Element -> Element)
    (d : Document) :
  (forall e, sel (f e) = sel e) ->
  querySelector sel (update i f d) = querySelector sel d.
Proof.
  intros H. apply querySelector_ext; [apply length_update|].
  intros j e e' He He'. rewrite lookup_update, He' in He. simpl in He.
  injection He as <-. by destruct (decide (i = j)).
Qed.

Lemma isDecisionNode_active (e : Element) :
  isDecisionNode (classAdd "active" (deactivate e)) = isDecisionNode e.
Proof.
  unfold isDecisionNode, byClass. rewrite !contains_classAdd. simpl.
  rewrite !orb_false_r.
  fold (byClass "decision-step" (deactivate e)).
  fold (byClass "decision-result" (deactivate e)).
  by rewrite !deactivate_class.
Qed.

(** Marking any one node of a cleared tree shows that node if it is a
    node of the decision tree, and nothing otherwise. *)
Lemma visible_after_marking (d : Document) (i : nat) :
  querySelectorAll visibleDecisionNode (update i (classAdd "active") (deactivateAll d)) =
  match d !! i with
  | Some e => if isDecisionNode e then [i] else []
  | None => []
  end.
Proof.
  destruct (d !! i) as [e|] eqn:Hi.
  - destruct (isDecisionNode e) eqn:Hd.
    + unfold isDecisionNode in Hd. apply orb_true_iff in Hd as [Hd | Hd].
      * eapply (visible_after_activation "decision-step"); eauto.
      * eapply (visible_after_activation "decision-result"); eauto.
    + apply querySelectorAll_none. intros j x.
      rewrite lookup_update, lookup_deactivateAll.
      destruct (decide (i = j)) as [<-|].
      * rewrite Hi. simpl. intros [= <-].
        unfold visibleDecisionNode, both. by rewrite isDecisionNode_active, Hd.
      * destruct (d !! j); [|done]. simpl. intros [= <-]. apply deactivate_hides.
  - apply querySelectorAll_none. intros j x.
    rewrite lookup_update, lookup_deactivateAll.
    destruct (decide (i = j)) as [<-|].
    + by rewrite Hi.
    + destruct (d !! j); [|done]. simpl. intros [= <-]. apply deactivate_hides.
Qed.

Section DecisionDisplay.

Variable engine : string -> Document -> option (option nat).

Lemma selectWith_plain (text value : string) (sel : Selector) (d : Document) :
  classify value = PlainValue ->
  selectWith engine text value sel d = Some (querySelector sel d).
Proof. intros H. unfold selectWith. by rewrite H. Qed.

(** [showDecisionResult] by the outcome of its lookup, which runs on the
    cleared tree. *)
Lemma showDecisionResult_cases (r : string) (w : World) :
  showDecisionResult engine r w =
  match selectWith engine (resultText r) r (resultNamed r) (deactivateAll (doc w)) with
  | Some (Some i) =>
      Return tt (setDoc (update i (classAdd "active") (deactivateAll (doc w))) w)
  | Some None => Return tt (setDoc (deactivateAll (doc w)) w)
  | None => Throw (InvalidSelector (resultText r)) (setDoc (deactivateAll (doc w)) w)
  end.
Proof.
  unfold showDecisionResult, mbind, M_bind, lift, querySelectorWith. simpl.
  fold (deactivateAll (doc w)). fold (resultText r). fold (resultNamed r).
  by destruct (selectWith _ _ _ _ _) as [[i|]|].
Qed.

Lemma showDecisionResult_plain (r : string) (w : World) :
  classify r = PlainValue ->
  showDecisionResult engine r w = Return tt (showResultPlain r w).
Proof.
  intros H. rewrite showDecisionResult_cases, selectWith_plain by done.
  unfold showResultPlain. fold (deactivateAll (doc w)). fold (resultNamed r).
  by destruct (querySelector _ _).
Qed.

Lemma showDecisionResult_state (r : string) (w : World) :
  state (worldOf (showDecisionResult engine r w)) = state w.
Proof.
  rewrite showDecisionResult_cases. by destruct (selectWith _ _ _ _ _) as [[i|]|].
Qed.

(** Only the node that the lookup returns can be visible afterwards. *)
Lemma showDecisionResult_visible (r : string) (w : World) :
  visibleDecisionNodes (worldOf (showDecisionResult engine r w)) =
  match selectWith engine (resultText r) r (resultNamed r) (deactivateAll (doc w)) with
  | Some (Some i) =>
      match doc w !! i with
      | Some e => if isDecisionNode e then [i] else []
      | None => []
      end
  | _ => []
  end.
Proof.
  rewrite showDecisionResult_cases. unfold visibleDecisionNodes.
  destruct (selectWith _ _ _ _ _) as [[i|]|]; simpl.
  - apply visible_after_marking.
  - apply visible_after_clearing.
  - apply visible_after_clearing.
Qed.


End DecisionDisplay.

Lemma openDecisionTreeModal_returns (w : World) (modal : nat) :
  getElementById "decisionTreeModal" (doc w) = Some modal ->
  exists tr,
    openDecisionTreeModal w =
    Return tt
      (mkWorld
         (doc (showDecisionStep (Js.Int 1)
                 (setDoc (update modal (setHidden false) (doc w)) w)))
         (setDecisionTreeStep (Js.Int 1) (state w))
         "hidden" (localStorage w) tr).
Proof.
  intros H. unfold openDecisionTreeModal, mbind, M_bind, getWorld, deref, lift.
  rewrite H. simpl.
  unfold showDecisionStep. simpl.
  destruct (querySelector _ _); simpl;
    destruct (querySelectorIn _ _ _); simpl; eauto.
Qed.

(** Below 2^53 the difference of a number and 1 is exact. *)
Lemma sub_exact (N : Z) :
  (1 <= N <= 2 ^ 53)%Z -> Js.sub (Js.Int N) 1 = Js.Int (N - 1).
Proof.
  intros H. unfold Js.sub, Js.roundDouble.
  assert ((Z.abs (N - 1) <? 2 ^ 53)%Z = true) as -> by (apply Z.ltb_lt; lia).
  done.
Qed.

(** C4 as amended: opening the modal completes (when the modal node
    exists), sets the step to 1 and shows the question of step 1, whatever
    the step was before; [goBackDecision] at step 1 changes nothing; at a
    step N with 1 < N <= 2^53 it is [showDecisionStep (N - 1)], after which
    the step is N - 1 and the visible decision nodes are the first question
    whose step identity is the text of N - 1: exactly that question when the
    page has one, and none otherwise. *)
Theorem decision_tree_session_and_back (w : World) :
  (forall modal : nat,
      getElementById "decisionTreeModal" (doc w) = Some modal ->
      exists w',
        openDecisionTreeModal w = Return tt w' /\
        decisionTreeStep (state w') = Js.Int 1 /\
        visibleDecisionNodes w' =
          option_list (querySelector (questionWithStep (Js.Int 1)) (doc w))) /\
  (decisionTreeStep (state w) = Js.Int 1 -> goBackDecision w = w) /\
  (forall N : Z,
      decisionTreeStep (state w) = Js.Int N -> (1 < N <= 2 ^ 53)%Z ->
      goBackDecision w = showDecisionStep (Js.Int (N - 1)) w /\
      decisionTreeStep (state (goBackDecision w)) = Js.Int (N - 1) /\
      visibleDecisionNodes (goBackDecision w) =
        option_list (querySelector (questionWithStep (Js.Int (N - 1))) (doc w)) /\
      forall q, querySelector (questionWithStep (Js.Int (N - 1))) (doc w) = Some q ->
        visibleDecisionNodes (goBackDecision w) = [q]).
Proof.
  split; [|split].
  - intros modal H. destruct (openDecisionTreeModal_returns w modal H) as [tr E].
    eexists. split; [exact E|]. split; [done|].
    unfold visibleDecisionNodes. simpl.
    fold (visibleDecisionNodes
            (showDecisionStep (Js.Int 1)
               (setDoc (update modal (setHidden false) (doc w)) w))).
    rewrite showDecisionStep_visible. simpl.
    by rewrite querySelector_update.
  - intros H. unfold goBackDecision. by rewrite H.
  - intros N H HN.
    assert (goBackDecision w = showDecisionStep (Js.Int (N - 1)) w) as E.
    { unfold goBackDecision. rewrite H, sub_exact by lia. simpl.
      by assert ((1 <? N)%Z = true) as -> by (apply Z.ltb_lt; lia). }
    rewrite E. split; [done|]. split; [by rewrite showDecisionStep_state|].
    split; [apply showDecisionStep_visible|].
    intros q Hq. by rewrite showDecisionStep_visible, Hq.
Qed.

(** A session that was left at step 2: opening starts again at step 1,
    and going back from step 2 shows the first question (handle 17). *)
Lemma decision_tree_session_and_back_witness :
  (exists w',
      openDecisionTreeModal (showDecisionStep (Js.Int 2) Page.world0) = Return tt w' /\
      decisionTreeStep (state w') = Js.Int 1 /\
      visibleDecisionNodes w' = [17]) /\
  goBackDecision Page.world0 = Page.world0 /\
  decisionTreeStep (state (goBackDecision (showDecisionStep (Js.Int 2) Page.world0))) =
    Js.Int 1 /\
  visibleDecisionNodes (goBackDecision (showDecisionStep (Js.Int 2) Page.world0)) = [17].
Proof.
  destruct (decision_tree_session_and_back (showDecisionStep (Js.Int 2) Page.world0))
    as (Hopen & _ & Hback).
  destruct (decision_tree_session_and_back Page.world0) as (_ & Hone & _).
  destruct (Hopen 16 eq_refl) as (w' & E & Hs & Hv).
  destruct (Hback 2%Z eq_refl ltac:(lia)) as (_ & Hs2 & _ & Hv2).
  split; [|split; [|split]].
  - exists w'. repeat split; [exact E | exact Hs | by rewrite Hv].
  - by apply Hone.
  - exact Hs2.
  - by apply Hv2.
Defined.

(** C4 as stated fails in two ways.  On [Page.page], which has the
    questions of steps 1 and 2 only, going back from step 4 sets the step
    to 3 and leaves no question visible.  And from the step
    9007199254740994, which the choice with that next reference reaches,
    going back sets the step to 9007199254740992 and not to the number one
    below: the difference is rounded. *)
Lemma goBack_without_question_or_beyond_exact_range :
  decisionTreeStep (state (goBackDecision (showDecisionStep (Js.Int 4) Page.world0))) =
    Js.Int 3 /\
  visibleDecisionNodes (goBackDecision (showDecisionStep (Js.Int 4) Page.world0)) = [] /\
  Js.parseInt "9007199254740994" = Js.Int 9007199254740994 /\
  decisionTreeStep
    (state (goBackDecision (showDecisionStep (Js.parseInt "9007199254740994") Page.world0))) =
    Js.Int 9007199254740992.
Proof. vm_compute. repeat split; reflexivity. Qed.

Section DecisionChoice.

Variable engine : string -> Document -> option (option nat).

(** C10: a choice that carries both a next-step reference and a result
    reference completes as [showDecisionStep] of the parsed next step, so
    only the question of that step can be visible and the outcome does not
    depend on the result reference, which is never looked up; a choice that
    carries neither leaves the world as it is. *)
Theorem choice_follows_next_reference (button : Element) (w : World) :
  (carries (dataset "next" button) = true ->
   carries (dataset "result" button) = true ->
   handleDecisionTreeChoice engine button w =
     Return tt (showDecisionStep (Js.parseInt (default "" (dataset "next" button))) w) /\
   visibleDecisionNodes (worldOf (handleDecisionTreeChoice engine button w)) =
     option_list (querySelector
       (questionWithStep (Js.parseInt (default "" (dataset "next" button)))) (doc w)) /\
   forall other : Element,
     dataset "next" other = dataset "next" button ->
     handleDecisionTreeChoice engine other w = handleDecisionTreeChoice engine button w) /\
  (carries (dataset "next" button) = false ->
   carries (dataset "result" button) = false ->
   handleDecisionTreeChoice engine button w = Return tt w).
Proof.
  split.
  - intros Hn _. unfold handleDecisionTreeChoice. rewrite Hn.
    split; [done|]. split; [apply showDecisionStep_visible|].
    intros other ->. by rewrite Hn.
  - intros Hn Hr. unfold handleDecisionTreeChoice. by rewrite Hn, Hr.
Qed.

End DecisionChoice.

(** A button with both references goes to the question of step 2
    (handle 19); a button with none changes nothing. *)
Lemma choice_follows_next_reference_witness :
  handleDecisionTreeChoice Samples.engine Page.bothButton Page.world0 =
    Return tt (showDecisionStep (Js.Int 2) Page.world0) /\
  visibleDecisionNodes
    (worldOf (handleDecisionTreeChoice Samples.engine Page.bothButton Page.world0)) = [19] /\
  handleDecisionTreeChoice Samples.engine Page.bareButton Page.world0 =
    Return tt Page.world0.
Proof.
  destruct (choice_follows_next_reference Samples.engine Page.bothButton Page.world0)
    as [Hboth _].
  destruct (choice_follows_next_reference Samples.engine Page.bareButton Page.world0)
    as [_ Hbare].
  destruct (Hboth eq_refl eq_refl) as (E & Hv & _).
  split; [exact E | split; [by rewrite Hv | by apply Hbare]].
Defined.


(** ** Search with a blank query *)

Section BlankSearch.

Variable engine : string -> Document -> option (option nat).
Variable click : nat -> World -> World.

(** C8: a query that is empty or all white space only raises the
    blocking notice: the call completes, the tree, the state and the
    storage are as before, and the notice is the one new effect (no
    match is computed, no highlight set or cleared, no click, no scroll),
    whatever the selector parser and the click listeners of the page. *)
Theorem blank_search_only_alerts (q : string) (w : World) :
  allWhiteSpace q = true ->
  performSearch engine click q w =
    Return tt (emit (Alert "Please enter a search term") w) /\
  doc (worldOf (performSearch engine click q w)) = doc w /\
  state (worldOf (performSearch engine click q w)) = state w /\
  localStorage (worldOf (performSearch engine click q w)) = localStorage w /\
  trace (worldOf (performSearch engine click q w)) =
    (trace w ++ [Alert "Please enter a search term"])%list.
Proof.
  intros H. unfold performSearch. rewrite (normalise_blank q H). by simpl.
Qed.

End BlankSearch.

(** A query of a space, a tabulation and a no-break space. *)
Lemma blank_search_only_alerts_witness :
  allWhiteSpace (String " " (String (ascii_of_nat 9) (String (ascii_of_nat 160) ""))) = true /\
  performSearch Samples.engine Samples.click
      (String " " (String (ascii_of_nat 9) (String (ascii_of_nat 160) ""))) Page.world0 =
    Return tt (emit (Alert "Please enter a search term") Page.world0).
Proof.
  split; [reflexivity|].
  apply (blank_search_only_alerts Samples.engine Samples.click
           (String " " (String (ascii_of_nat 9) (String (ascii_of_nat 160) ""))) Page.world0).
  reflexivity.
Defined.

(** ** Persistence *)

Section PersistenceProperties.

Variable JSON_stringify : State -> string.
Variable JSON_parse : string -> option Parsed.

Lemma saveState_cases (w : World) :
  saveState JSON_stringify w =
  let s := localStorage w in
  let blob := JSON_stringify (state w) in
  if accessDenied s then
    Return tt (emit (ConsoleWarn "Could not save state to localStorage:" SecurityError) w)
  else if (quota s <? String.length blob)%nat then
    Return tt (emit (ConsoleWarn "Could not save state to localStorage:" QuotaExceededError) w)
  else
    Return tt (setLocalStorage
                 (mkStorage (accessDenied s) (quota s)
                    (<["rezoningGuideState" := blob]> (items s))) w).
Proof.
  unfold saveState, tryCatch, mbind, M_bind, getWorld, setItem, lift. simpl.
  destruct (accessDenied (localStorage w)); [done|].
  by destruct (quota (localStorage w) <? _)%nat.
Qed.

Lemma loadState_cases (w : World) :
  loadState JSON_parse w =
  let s := localStorage w in
  if accessDenied s then
    Return tt (emit (ConsoleWarn "Could not load state from localStorage:" SecurityError) w)
  else
    let saved := items s !! "rezoningGuideState" in
    if carries saved then
      match JSON_parse (default "" saved) with
      | Some parsed => Return tt (setState (assign (state w) parsed) w)
      | None =>
          Return tt (emit (ConsoleWarn "Could not load state from localStorage:" SyntaxError) w)
      end
    else Return tt w.
Proof.
  unfold loadState, tryCatch, mbind, M_bind, getItem, lift, throw, mret, M_ret. simpl.
  destruct (accessDenied (localStorage w)); [done|].
  destruct (carries _); [|done].
  by destruct (JSON_parse _).
Qed.

(** C9: [saveState] and [loadState] complete whatever the storage does.
    When the storage denies access, when the write exceeds the quota, or
    when the saved blob does not parse, the call logs one warning and
    leaves the tree and the in-memory state as they are. *)
Theorem persistence_never_raises (w : World) :
  (exists w', saveState JSON_stringify w = Return tt w' /\
     state w' = state w /\ doc w' = doc w /\
     (forall e, setItem "rezoningGuideState" (JSON_stringify (state w)) w = Throw e w ->
        w' = emit (ConsoleWarn "Could not save state to localStorage:" e) w)) /\
  (exists w', loadState JSON_parse w = Return tt w' /\ doc w' = doc w /\
     (forall e, getItem "rezoningGuideState" w = Throw e w ->
        w' = emit (ConsoleWarn "Could not load state from localStorage:" e) w) /\
     (forall saved, getItem "rezoningGuideState" w = Return (Some saved) w ->
        Js.truthy saved = true -> JSON_parse saved = None ->
        w' = emit (ConsoleWarn "Could not load state from localStorage:" SyntaxError) w)).
Proof.
  split.
  - rewrite saveState_cases. unfold setItem. simpl.
    destruct (accessDenied (localStorage w)).
    { eexists. repeat split; try done. by intros e [= <-]. }
    destruct (quota (localStorage w) <? _)%nat.
    { eexists. repeat split; try done. by intros e [= <-]. }
    eexists. repeat split; try done.
  - rewrite loadState_cases. unfold getItem. simpl.
    destruct (accessDenied (localStorage w)).
    { eexists. repeat split; try done. by intros e [= <-]. }
    destruct (items (localStorage w) !! "rezoningGuideState") as [saved|] eqn:E; simpl.
    + destruct (Js.truthy saved) eqn:T.
      * destruct (JSON_parse saved) eqn:P; eexists; repeat split; try done.
        -- intros s [= <-]. congruence.
      * eexists. repeat split; try done. intros s [= <-]. congruence.
    + eexists. repeat split; done.
Qed.

End PersistenceProperties.

(** With the storage denied both calls still complete, each with one
    warning and the state untouched. *)
Lemma persistence_never_raises_witness :
  saveState (fun _ => "{}") Page.worldDenied =
    Return tt (emit (ConsoleWarn "Could not save state to localStorage:" SecurityError)
                 Page.worldDenied) /\
  loadState (fun _ => None) Page.worldDenied =
    Return tt (emit (ConsoleWarn "Could not load state from localStorage:" SecurityError)
                 Page.worldDenied).
Proof.
  destruct (persistence_never_raises (fun _ => "{}") (fun _ => None) Page.worldDenied)
    as [(w1 & E1 & _ & _ & F1) (w2 & E2 & _ & F2 & _)].
  rewrite E1, E2.
  by rewrite (F1 SecurityError eq_refl), (F2 SecurityError eq_refl).
Defined.

(** ** Missing nodes *)

(** [collapsePlain] skips an id that names no panel and no trigger. *)
Lemma collapsePanel_missing (d : Document) (panelId : string) :
  getElementById panelId d = None ->
  querySelector (byAttr "aria-controls" panelId) d = None ->
  collapsePlain d panelId = d.
Proof. intros Hp Hb. unfold collapsePlain. by rewrite Hp, Hb. Qed.

(** [toggleDetailPanel] does not: it dereferences the panel unguarded. *)
Lemma toggleDetailPanel_missing (panelId : string) (button : nat) (w : World) :
  getElementById panelId (doc w) = None ->
  exists e, toggleDetailPanel panelId button w = Throw e w.
Proof.
  intros H. unfold toggleDetailPanel. rewrite H.
  destruct (doc w !! button); eauto.
Qed.

(** C2, at the failing input: the trigger of a panel that is not in the
    page.  [collapseAllPanels] completes and skips the id of that panel
    without a trace, [toggleDetailPanel] throws a TypeError before it
    changes anything. *)
Theorem toggleDetailPanel_missing_panel_raises :
  getElementById "detail-9" (doc Page.worldOrphan) = None /\
  Page.worldOrphan.(doc) !! 25 = Some Page.orphanTrigger /\
  (forall engine : string -> Document -> option (option nat),
     collapseAllPanels engine
       (setState (setExpandedPanels ["detail-9"] initialState) Page.worldOrphan) =
     Return tt Page.worldOrphan) /\
  toggleDetailPanel "detail-9" 25 Page.worldOrphan =
    Throw (TypeError "panel.hidden") Page.worldOrphan.
Proof.
  split; [vm_compute; reflexivity|].
  split; [vm_compute; reflexivity|].
  split; [intros engine; vm_compute; reflexivity|].
  vm_compute. reflexivity.
Qed.

(** ** Glossary filter *)

(** What [filterGlossary] leaves in the [hidden] flag of an entry. *)
Lemma filterGlossary_hidden (searchTerm : string) (w : World) (i : nat) (item : Element) :
  doc w !! i = Some item -> byClass "glossary-item" item = true ->
  hidden <$> doc (filterGlossary searchTerm w) !! i =
  Some (negb (String.eqb (Js.trim (Js.toLowerCase searchTerm)) "") &&
        negb (Js.includes (searchableText item) (Js.trim (Js.toLowerCase searchTerm)))).
Proof.
  intros Hi Hc. unfold filterGlossary. simpl.
  by rewrite lookup_forEachMatch, Hi; simpl; rewrite Hc.
Qed.

(** A blank query shows every entry. *)
Lemma filterGlossary_blank (q : string) (w : World) (i : nat) (item : Element) :
  allWhiteSpace q = true ->
  doc w !! i = Some item -> byClass "glossary-item" item = true ->
  hidden <$> doc (filterGlossary q w) !! i = Some false.
Proof.
  intros Hq Hi Hc. rewrite (filterGlossary_hidden q w i item Hi Hc).
  by rewrite (normalise_blank q Hq).
Qed.

(** C3, at the failing input: the three entries of [Page.worldGlossary]
    have the same text and differ in the term tag.  The query FSR, in
    either case, occurs in the lower-cased text of each; the entry whose
    tag is written in capitals is hidden all the same, since the tag is
    compared as it stands with the lower-cased query. *)
Theorem filterGlossary_upper_case_tag_hidden :
  map hidden (doc (filterGlossary "fsr" Page.worldGlossary)) = [false; true; false] /\
  map hidden (doc (filterGlossary "FSR" Page.worldGlossary)) = [false; true; false] /\
  map (fun item => Js.includes (Js.toLowerCase (textContent item))
                               (Js.trim (Js.toLowerCase "FSR")))
      (doc Page.worldGlossary) = [true; true; true] /\
  map (fun item => Js.includes (Js.toLowerCase (searchableText item))
                               (Js.trim (Js.toLowerCase "FSR")))
      (doc Page.worldGlossary) = [true; true; true].
Proof. vm_compute. repeat split; reflexivity. Qed.

(** ** Toggling a detail panel twice *)

Lemma getElementById_update (x : string) (i : nat) (f : Element -> Element)
    (d : Document) :
  (forall e, elementId (f e) = elementId e) ->
  getElementById x (update i f d) = getElementById x d.
Proof.
  intros H. unfold getElementById. destruct (Js.truthy x); [|done].
  apply querySelector_update. intros e. by rewrite H.
Qed.

Lemma elem_of_remove_id (x : string) (l : list string) :
  bool_decide (x ∈ List.filter (fun id => negb (String.eqb id x)) l) = false.
Proof.
  apply bool_decide_eq_false. rewrite list_elem_of_In, filter_In.
  intros [_ H]. by rewrite String.eqb_refl in H.
Qed.

Lemma elem_of_push_id (x : string) (l : list string) :
  bool_decide (x ∈ l ++ [x]) = true.
Proof. apply bool_decide_eq_true, elem_of_app. right. by apply list_elem_of_singleton. Qed.

(** One call, when the panel node exists: the flag read off the trigger
    is flipped, the panel is shown or hidden to match, and the id is
    pushed or filtered out. *)
Lemma toggleDetailPanel_returns (panelId : string) (button panel : nat)
    (b : Element) (w : World) :
  getElementById panelId (doc w) = Some panel ->
  doc w !! button = Some b ->
  let x := bool_decide (getAttribute "aria-expanded" b = Some "true") in
  exists tr,
    toggleDetailPanel panelId button w =
    Return tt
      (mkWorld
         (update button (setAttribute "aria-expanded" (Js.boolToString (negb x)))
            (update panel (setHidden x) (doc w)))
         (setExpandedPanels
            (if x then List.filter (fun id => negb (String.eqb id panelId))
                        (expandedPanels (state w))
             else expandedPanels (state w) ++ [panelId])
            (state w))
         (bodyOverflow w) (localStorage w) tr).
Proof.
  intros Hp Hb x. unfold toggleDetailPanel. rewrite Hp, Hb. fold x.
  destruct x; simpl; eauto.
Qed.

(** C5 as amended: when the panel node exists and the trigger's
    [aria-expanded] attribute ("true" or "false"), the panel's [hidden]
    flag and the membership of the id in [expandedPanels] agree, two
    calls in succession complete and restore all three. *)
Theorem toggle_twice_restores (panelId : string) (button panel : nat)
    (b p : Element) (x : bool) (w : World) :
  getElementById panelId (doc w) = Some panel ->
  doc w !! button = Some b ->
  doc w !! panel = Some p ->
  getAttribute "aria-expanded" b = Some (Js.boolToString x) ->
  hidden p = negb x ->
  bool_decide (panelId ∈ expandedPanels (state w)) = x ->
  exists w1 w2,
    toggleDetailPanel panelId button w = Return tt w1 /\
    toggleDetailPanel panelId button w1 = Return tt w2 /\
    hidden <$> doc w2 !! panel = Some (hidden p) /\
    getAttribute "aria-expanded" <$> doc w2 !! button =
      Some (getAttribute "aria-expanded" b) /\
    bool_decide (panelId ∈ expandedPanels (state w2)) =
      bool_decide (panelId ∈ expandedPanels (state w)).
Proof.
  intros Hp Hb Hpn Ha Hh Hm.
  destruct (toggleDetailPanel_returns panelId button panel b w Hp Hb) as [tr1 E1].
  assert (bool_decide (getAttribute "aria-expanded" b = Some "true") = x) as Hx.
  { rewrite Ha. by destruct x. }
  rewrite Hx in E1.
  set (d1 := update button (setAttribute "aria-expanded" (Js.boolToString (negb x)))
               (update panel (setHidden x) (doc w))) in *.
  set (b1 := setAttribute "aria-expanded" (Js.boolToString (negb x))
               ((if decide (panel = button) then setHidden x else fun e => e) b)).
  assert (d1 !! button = Some b1) as Hb1.
  { unfold d1. rewrite !lookup_update, Hb. simpl. by rewrite decide_True. }
  assert (getElementById panelId d1 = Some panel) as Hp1.
  { unfold d1. by rewrite !getElementById_update. }
  match type of E1 with _ = Return tt ?w => set (w1 := w) in * end.
  destruct (toggleDetailPanel_returns panelId button panel b1 w1 Hp1 Hb1) as [tr2 E2].
  assert (bool_decide (getAttribute "aria-expanded" b1 = Some "true") = negb x) as Hx1.
  { unfold b1, getAttribute, setAttribute. simpl. rewrite lookup_insert_eq.
    by destruct x. }
  rewrite Hx1, negb_involutive in E2.
  eexists _, _. split; [exact E1|]. split; [exact E2|]. simpl.
  split; [|split].
  - unfold d1. rewrite !lookup_update, Hpn. simpl. rewrite Hh.
    repeat (case_decide; simpl); congruence.
  - unfold d1. rewrite !lookup_update, Hb. simpl.
    unfold getAttribute, setAttribute in *.
    repeat (case_decide; simpl); try congruence;
      by rewrite ?lookup_insert_eq, Ha.
  - rewrite Hm. destruct x.
    + apply elem_of_push_id.
    + apply elem_of_remove_id.
Qed.

(** The second timeline item of the page, collapsed, toggled twice. *)
Lemma toggle_twice_restores_witness :
  exists w1 w2,
    toggleDetailPanel "detail-2" 13 Page.world0 = Return tt w1 /\
    toggleDetailPanel "detail-2" 13 w1 = Return tt w2 /\
    hidden <$> doc w2 !! 14 = Some true /\
    getAttribute "aria-expanded" <$> doc w2 !! 13 = Some (Some "false") /\
    bool_decide ("detail-2" ∈ expandedPanels (state w2)) = false.
Proof.
  refine (toggle_twice_restores "detail-2" 13 14 _ _ false Page.world0
            eq_refl eq_refl eq_refl eq_refl eq_refl eq_refl).
Defined.

(** C5 as stated fails on [Page.reloaded], where the state lists the
    panel and the tree shows it collapsed: both calls complete, the tree
    is back where it was, and the id has left [expandedPanels]. *)
Lemma toggle_twice_loses_membership :
  exists w1 w2,
    toggleDetailPanel "detail-1" 7 Page.reloaded = Return tt w1 /\
    toggleDetailPanel "detail-1" 7 w1 = Return tt w2 /\
    doc w2 = doc Page.reloaded /\
    bool_decide ("detail-1" ∈ expandedPanels (state Page.reloaded)) = true /\
    bool_decide ("detail-1" ∈ expandedPanels (state w2)) = false.
Proof.
  eexists _, _. split; [reflexivity|]. split; [vm_compute; reflexivity|].
  vm_compute. repeat split; reflexivity.
Qed.

(** [Page.reloaded] is what [loadState] makes of the fresh page when the
    storage holds such a blob. *)
Example loadState_gives_reloaded :
  loadState
    (fun _ => Some (mkParsed None (Some ["detail-1"]) None None))
    (setLocalStorage
       (mkStorage false 4096 {["rezoningGuideState" := "saved"]}) Page.world0) =
  Return tt
    (setLocalStorage
       (mkStorage false 4096 {["rezoningGuideState" := "saved"]}) Page.reloaded).
Proof. vm_compute. reflexivity. Qed.

(** ** Switching tabs *)

Lemma contains_classToggle (c c' : string) (force : bool) (e : Element) :
  c <> c' -> contains c (classToggle c' force e) = contains c e.
Proof.
  intros Hc. assert (String.eqb c c' = false) as Hne by by apply String.eqb_neq.
  unfold classToggle. destruct force.
  - by rewrite contains_classAdd, Hne, orb_false_r.
  - by rewrite contains_classRemove, Hne, andb_true_r.
Qed.

Lemma contains_classToggle_same (c : string) (force : bool) (e : Element) :
  contains c (classToggle c force e) = force.
Proof.
  unfold classToggle. destruct force.
  - by rewrite contains_classAdd, String.eqb_refl, orb_true_r.
  - by rewrite contains_classRemove, String.eqb_refl, andb_false_r.
Qed.

Lemma classToggle_fields (c : string) (force : bool) (e : Element) :
  attributes (classToggle c force e) = attributes e /\
  hidden (classToggle c force e) = hidden e /\
  elementId (classToggle c force e) = elementId e.
Proof.
  unfold classToggle, classAdd. destruct force; [|done].
  by destruct (contains c e).
Qed.

Lemma getElementById_Some (x : string) (d : Document) (i : nat) :
  getElementById x d = Some i -> exists e, d !! i = Some e /\ elementId e = x.
Proof.
  unfold getElementById. destruct (Js.truthy x); [|done].
  intros (e & He & Hx%String.eqb_eq)%querySelector_Some. eauto.
Qed.

Lemma collapsePanel_lookup (d : Document) (panelId : string) (i : nat) (e' : Element) :
  collapsePlain d panelId !! i = Some e' ->
  exists e, d !! i = Some e /\ collapsed [panelId] e e'.
Proof.
  unfold collapsePlain.
  destruct (getElementById panelId d) as [p|] eqn:Hp;
    destruct (querySelector _ d) as [b|] eqn:Hb;
    rewrite ?lookup_update; destruct (d !! i) as [e|] eqn:Hi; simpl; try done;
    intros [= <-]; exists e; split; try done;
    repeat case_decide; subst; unfold collapsed; simpl;
    repeat split; try tauto;
    try (intros k Hk; by rewrite lookup_insert_ne);
    try (right; split; [done|]; apply getElementById_Some in Hp as (x & Hx & <-);
         rewrite Hi in Hx; injection Hx as <-; apply list_elem_of_singleton; done).
Qed.

Lemma length_collapsePanel (d : Document) (panelId : string) :
  length (collapsePlain d panelId) = length d.
Proof.
  unfold collapsePlain.
  destruct (getElementById panelId d); destruct (querySelector _ d);
    by rewrite ?length_update.
Qed.

Lemma collapse_lookup (ids : list string) (d : Document) (i : nat) (e' : Element) :
  foldl collapsePlain d ids !! i = Some e' ->
  exists e, d !! i = Some e /\ collapsed ids e e'.
Proof.
  revert d e'. induction ids as [|x ids IH]; intros d e'; simpl.
  - intros H. exists e'. split; [done|]. unfold collapsed. tauto.
  - intros H. apply IH in H as (e1 & H1 & Hc1 & Hi1 & Ha1 & Hh1).
    apply collapsePanel_lookup in H1 as (e & He & Hc & Hi & Ha & Hh).
    exists e. split; [done|]. unfold collapsed. repeat split.
    + congruence.
    + congruence.
    + intros k Hk. by rewrite Ha1, Ha.
    + destruct Hh1 as [Hh1|[Hh1 Hin1]].
      * destruct Hh as [Hh|[Hh Hin]]; [left; congruence|].
        right. split; [congruence|].
        apply list_elem_of_singleton in Hin. rewrite Hin. apply elem_of_cons. by left.
      * right. split; [done|]. rewrite <- Hi. apply elem_of_cons. by right.
Qed.

Lemma length_collapse (ids : list string) (d : Document) :
  length (foldl collapsePlain d ids) = length d.
Proof.
  revert d. induction ids as [|x ids IH]; intros d; simpl; [done|].
  by rewrite IH, length_collapsePanel.
Qed.

Lemma highlightRelevantSteps_lookup (tabId : string) (d : Document) (i : nat) (e' : Element) :
  highlightRelevantSteps tabId d !! i = Some e' ->
  exists e, d !! i = Some e /\ sameButOpacity e e'.
Proof.
  unfold highlightRelevantSteps.
  destruct (String.eqb tabId "resident"); [|destruct (String.eqb tabId "developer")];
    rewrite !lookup_forEachMatch; destruct (d !! i) as [e|]; simpl; try done;
    intros [= <-]; exists e; split; try done; unfold sameButOpacity;
    case_ifs; done.
Qed.

Lemma length_highlightRelevantSteps (tabId : string) (d : Document) :
  length (highlightRelevantSteps tabId d) = length d.
Proof.
  unfold highlightRelevantSteps.
  destruct (String.eqb tabId "resident"); [|destruct (String.eqb tabId "developer")];
    by rewrite !length_forEachMatch.
Qed.

Lemma switchTab_doc (T : string) (w : World) :
  doc (switchTabPlain T w) =
  highlightRelevantSteps T
    (foldl collapsePlain
       (forEachMatch (byClass "tab-content")
          (fun panel =>
             setHidden (negb (String.eqb (elementId panel) (T +:+ "-panel")))
               (classToggle "active" (String.eqb (elementId panel) (T +:+ "-panel")) panel))
          (forEachMatch (byClass "tab")
             (fun tab =>
                setAttribute "aria-selected"
                  (Js.boolToString (bool_decide (dataset "tab" tab = Some T)))
                  (classToggle "active" (bool_decide (dataset "tab" tab = Some T)) tab))
             (doc w)))
       (expandedPanels (state w))).
Proof. done. Qed.

Lemma length_switchTab (T : string) (w : World) :
  length (doc (switchTabPlain T w)) = length (doc w).
Proof.
  rewrite switchTab_doc, length_highlightRelevantSteps, length_collapse.
  by rewrite !length_forEachMatch.
Qed.

(** The element behind a handle after [switchTabPlain], read against the one
    before. *)
Lemma switchTab_lookup (T : string) (w : World) (i : nat) (e e' : Element) :
  doc w !! i = Some e ->
  doc (switchTabPlain T w) !! i = Some e' ->
  byClass "tab" e' = byClass "tab" e /\
  byClass "tab-content" e' = byClass "tab-content" e /\
  (byClass "tab" e = true ->
   getAttribute "aria-selected" e' =
     Some (Js.boolToString (bool_decide (dataset "tab" e = Some T)))) /\
  (byClass "tab-content" e = true ->
   hidden e' = negb (String.eqb (elementId e) (T +:+ "-panel")) \/
   (hidden e' = true /\ elementId e ∈ expandedPanels (state w))).
Proof.
  intros He H. rewrite switchTab_doc in H.
  apply highlightRelevantSteps_lookup in H as (e3 & H & Hc3 & Hi3 & Ha3 & Hh3).
  apply collapse_lookup in H as (e2 & H & Hc2 & Hi2 & Ha2 & Hh2).
  rewrite !lookup_forEachMatch, He in H. simpl in H. injection H as <-.
  unfold byClass, contains, getAttribute. rewrite Hc3, Hc2, Ha3, Ha2 by done.
  fold (contains "tab" e) (contains "tab-content" e).
  rewrite Hh3.
  set (sel := bool_decide (dataset "tab" e = Some T)) in *.
  set (e1 := if byClass "tab" e
             then setAttribute "aria-selected" (Js.boolToString sel)
                    (classToggle "active" sel e)
             else e) in *.
  assert (contains "tab" e1 = contains "tab" e /\
          contains "tab-content" e1 = contains "tab-content" e /\
          elementId e1 = elementId e /\
          (byClass "tab" e = true ->
           attributes e1 !! "aria-selected" = Some (Js.boolToString sel)))
    as (Ht1 & Hp1 & Hi1 & Hs1).
  { unfold e1, byClass. destruct (contains "tab" e) eqn:Et; [|done].
    unfold contains in *. simpl.
    fold (contains "tab" (classToggle "active" sel e)).
    fold (contains "tab-content" (classToggle "active" sel e)).
    rewrite !contains_classToggle by done.
    destruct (classToggle_fields "active" sel e) as (_ & _ & ->).
    unfold contains. rewrite Et. repeat split; try done.
    intros _. by rewrite lookup_insert_eq. }
  unfold byClass in *. rewrite Hp1 in *.
  destruct (contains "tab-content" e) eqn:Ep.
  - set (act := String.eqb (elementId e1) (T +:+ "-panel")) in *.
    destruct (classToggle_fields "active" act e1) as (Hat & _ & Hit).
    simpl in *. rewrite Hat.
    fold (contains "tab" (classToggle "active" act e1)).
    fold (contains "tab-content" (classToggle "active" act e1)).
    rewrite !contains_classToggle by done.
    repeat split; try done.
    intros _. rewrite Hit in Hh2. unfold act in Hh2. by rewrite Hi1 in Hh2.
  - repeat split; done.
Qed.

(** After [switchTabPlain T] the tab controls marked selected are those with
    identity [T], whatever the page. *)
Lemma switchTab_selected (T : string) (w : World) :
  querySelectorAll selectedTab (doc (switchTabPlain T w)) =
  querySelectorAll (tabControl T) (doc w).
Proof.
  apply querySelectorAll_ext; [apply length_switchTab|].
  intros i e' e He' He.
  destruct (switchTab_lookup T w i e e' He He') as (Ht & _ & Hs & _).
  unfold selectedTab, tabControl, both, byAttr. rewrite Ht.
  destruct (byClass "tab" e) eqn:E; [|done]. simpl.
  rewrite (Hs eq_refl). unfold getAttribute, dataset.
  change ("data-" +:+ "tab") with "data-tab".
  by destruct (bool_decide (attributes e !! "data-tab" = Some T)).
Qed.

(** The tab panels shown are those with id [T-panel], as long as that id
    is not among the expanded detail panels. *)
Lemma switchTab_visible (T : string) (w : World) :
  (T +:+ "-panel") ∉ expandedPanels (state w) ->
  querySelectorAll visibleTabPanel (doc (switchTabPlain T w)) =
  querySelectorAll (tabPanel T) (doc w).
Proof.
  intros Hn. apply querySelectorAll_ext; [apply length_switchTab|].
  intros i e' e He' He.
  destruct (switchTab_lookup T w i e e' He He') as (_ & Hp & _ & Hh).
  unfold visibleTabPanel, tabPanel, both. rewrite Hp.
  destruct (byClass "tab-content" e) eqn:E; [|done]. simpl.
  destruct (Hh eq_refl) as [->|[-> Hin]]; [by rewrite negb_involutive|].
  simpl. symmetry. apply String.eqb_neq. intros Heq.
  rewrite Heq in Hin. contradiction.
Qed.

(** ** The controllers when every id is plain *)

Lemma world_eta (w : World) :
  mkWorld (doc w) (state w) (bodyOverflow w) (localStorage w) (trace w) = w.
Proof. by destruct w. Qed.

Section PlainIds.

Variable engine : string -> Document -> option (option nat).

Lemma collapsePanel_plain (panelId : string) (w : World) :
  classify panelId = PlainValue ->
  collapsePanel engine panelId w = Return tt (setDoc (collapsePlain (doc w) panelId) w).
Proof.
  intros H.
  unfold collapsePanel, mbind, M_bind, getWorld, querySelectorWith, selectWith, lift.
  by rewrite H.
Qed.

Lemma forEach_collapsePanel (l : list string) (w : World) :
  allPlain l ->
  forEach l (collapsePanel engine) w =
  Return tt (setDoc (foldl collapsePlain (doc w) l) w).
Proof.
  revert w. induction l as [|x l IH]; intros w H.
  - simpl. unfold setDoc. by rewrite world_eta.
  - apply Forall_cons in H as [Hx Hl]. simpl. unfold mbind, M_bind.
    rewrite collapsePanel_plain by done. by rewrite IH.
Qed.

Lemma collapseAllPanels_plain (w : World) :
  allPlain (expandedPanels (state w)) ->
  collapseAllPanels engine w = Return tt (collapseAllPlain w).
Proof.
  intros H. unfold collapseAllPanels, mbind, M_bind, getWorld, lift.
  by rewrite forEach_collapsePanel.
Qed.

Lemma switchTab_plain (T : string) (w : World) :
  allPlain (expandedPanels (state w)) ->
  switchTab engine T w = Return tt (switchTabPlain T w).
Proof.
  intros H. unfold switchTab, originalSwitchTab, mbind, M_bind, lift. simpl.
  by rewrite collapseAllPanels_plain.
Qed.

(** C1 as amended: for a tab id [T] of the page (exactly one tab control
    carries it and exactly one tab panel is named [T-panel]), when every
    id in [expandedPanels] is plain in a selector and none of them is
    [T-panel], [switchTab T] completes and leaves exactly that control
    marked selected and exactly that panel shown, records [T] as the active
    tab and empties [expandedPanels]. *)
Theorem switchTab_selects_one (T : string) (w : World) (tab panel : nat) :
  querySelectorAll (tabControl T) (doc w) = [tab] ->
  querySelectorAll (tabPanel T) (doc w) = [panel] ->
  allPlain (expandedPanels (state w)) ->
  (T +:+ "-panel") ∉ expandedPanels (state w) ->
  exists w',
    switchTab engine T w = Return tt w' /\
    querySelectorAll selectedTab (doc w') = [tab] /\
    querySelectorAll visibleTabPanel (doc w') = [panel] /\
    expandedPanels (state w') = [] /\
    activeTab (state w') = T.
Proof.
  intros Ht Hp Hpl Hn. eexists. split; [by apply switchTab_plain|].
  rewrite switchTab_selected, switchTab_visible by done.
  by rewrite Ht, Hp.
Qed.

End PlainIds.

(** Switching to the developer tab while a detail panel is open. *)
Lemma switchTab_selects_one_witness :
  exists w',
    switchTab Samples.engine "developer"
      (worldOf (toggleDetailPanel "detail-1" 7 Page.world0)) = Return tt w' /\
    querySelectorAll selectedTab (doc w') = [1] /\
    querySelectorAll visibleTabPanel (doc w') = [3] /\
    expandedPanels (state w') = [] /\
    activeTab (state w') = "developer".
Proof.
  apply (switchTab_selects_one Samples.engine "developer"
           (worldOf (toggleDetailPanel "detail-1" 7 Page.world0)) 1 3).
  - vm_compute. reflexivity.
  - vm_compute. reflexivity.
  - repeat constructor.
  - refine (bool_decide_eq_false_1 _ _). vm_compute. reflexivity.
Defined.

(** C1 as stated fails when the id of the tab panel is in
    [expandedPanels], which one call of [toggleDetailPanel] with that id
    brings about: [switchTab] shows the panel in its second loop and
    [collapseAllPanels] hides it again, so that no tab panel is visible. *)
Lemma switchTab_hides_listed_tab_panel :
  expandedPanels (state (worldOf (toggleDetailPanel "developer-panel" 7 Page.world0))) =
    ["developer-panel"] /\
  querySelectorAll (tabControl "developer")
    (doc (worldOf (toggleDetailPanel "developer-panel" 7 Page.world0))) = [1] /\
  querySelectorAll (tabPanel "developer")
    (doc (worldOf (toggleDetailPanel "developer-panel" 7 Page.world0))) = [3] /\
  exists w',
    (forall engine,
       switchTab engine "developer"
         (worldOf (toggleDetailPanel "developer-panel" 7 Page.world0)) = Return tt w') /\
    querySelectorAll selectedTab (doc w') = [1] /\
    querySelectorAll visibleTabPanel (doc w') = [] /\
    expandedPanels (state w') = [].
Proof.
  split; [vm_compute; reflexivity|].
  split; [vm_compute; reflexivity|].
  split; [vm_compute; reflexivity|].
  exists (switchTabPlain "developer"
            (worldOf (toggleDetailPanel "developer-panel" 7 Page.world0))).
  split.
  - intros engine. apply switchTab_plain. repeat constructor.
  - vm_compute. repeat split; reflexivity.
Qed.


(** ** Search *)

Lemma NoDup_querySelectorAll (sel : Selector) (d : Document) :
  NoDup (querySelectorAll sel d).
Proof.
  induction d as [|e d IH]; [constructor|].
  rewrite querySelectorAll_cons.
  assert (NoDup (map S (querySelectorAll sel d))) as Hm
    by (by apply (NoDup_fmap_2 S)).
  destruct (sel e); [|done].
  constructor; [|done].
  intros (j & Hj & _)%list_elem_of_fmap. discriminate.
Qed.

Lemma collectMatches_miss (l : list nat) (body : nat -> M (option Match))
    (matches : list Match) (w : World) :
  (forall i, i ∈ l -> body i w = Return None w) ->
  collectMatches l body matches w = Return matches w.
Proof.
  revert matches. induction l as [|x l IH]; intros matches H; [done|].
  simpl. unfold mbind, M_bind. rewrite H by (apply elem_of_cons; by left).
  apply IH. intros i Hi. apply H, elem_of_cons. by right.
Qed.

Lemma collectMatches_one (l : list nat) (body : nat -> M (option Match))
    (matches : list Match) (w : World) (hit : nat) (m : Match) :
  NoDup l -> hit ∈ l ->
  body hit w = Return (Some m) w ->
  (forall i, i ∈ l -> i <> hit -> body i w = Return None w) ->
  collectMatches l body matches w = Return (matches ++ [m]) w.
Proof.
  revert matches. induction l as [|x l IH]; intros matches Hnd Hin Hhit Hmiss.
  - by apply elem_of_nil in Hin.
  - apply NoDup_cons in Hnd as [Hx Hnd]. simpl. unfold mbind, M_bind.
    destruct (decide (x = hit)) as [->|Hne].
    + rewrite Hhit. apply collectMatches_miss.
      intros i Hi. apply Hmiss; [apply elem_of_cons; by right|].
      intros ->. contradiction.
    + rewrite Hmiss by (try apply elem_of_cons; auto).
      apply IH; try done.
      * apply elem_of_cons in Hin as [->|]; [congruence | done].
      * intros i Hi. apply Hmiss, elem_of_cons. by right.
Qed.

Lemma timelineMatch_miss (searchTerm : string) (card : nat) (c : Element) (w : World) :
  doc w !! card = Some c ->
  Js.includes (Js.toLowerCase (textContent c)) searchTerm = false ->
  timelineMatch searchTerm card w = Return None w.
Proof.
  intros Hc Hm. unfold timelineMatch, elementAt, mbind, M_bind, getWorld, deref.
  rewrite Hc. simpl. by rewrite Hm.
Qed.

Lemma detailMatch_miss (searchTerm : string) (panel : nat) (p : Element) (w : World) :
  doc w !! panel = Some p ->
  Js.includes (Js.toLowerCase (textContent p)) searchTerm = false ->
  detailMatch searchTerm panel w = Return None w.
Proof.
  intros Hp Hm. unfold detailMatch, elementAt, mbind, M_bind, getWorld, deref.
  rewrite Hp. simpl. by rewrite Hm.
Qed.

Lemma detailMatch_hit (searchTerm : string) (panel h3 : nat) (p heading : Element)
    (w : World) :
  doc w !! panel = Some p ->
  Js.includes (Js.toLowerCase (textContent p)) searchTerm = true ->
  querySelectorIn panel (byTag "h3") (doc w) = Some h3 ->
  doc w !! h3 = Some heading ->
  detailMatch searchTerm panel w =
  Return (Some (mkMatch Detail (Some panel) (textContent heading))) w.
Proof.
  intros Hp Hm Hh Hhe. unfold detailMatch, elementAt, mbind, M_bind, getWorld, deref.
  rewrite Hp. simpl. rewrite Hm, Hh. simpl. by rewrite Hhe.
Qed.

(** The two scans find the one detail panel whose text holds the term. *)
Lemma findMatches_single (term : string) (w : World) (panel h3 : nat)
    (p heading : Element) :
  (forall i e, doc w !! i = Some e -> byClass "timeline-card" e = true ->
               textMatches term e = false) ->
  doc w !! panel = Some p -> byClass "detail-panel" p = true ->
  textMatches term p = true ->
  (forall i e, i <> panel -> doc w !! i = Some e ->
               byClass "detail-panel" e = true -> textMatches term e = false) ->
  querySelectorIn panel (byTag "h3") (doc w) = Some h3 ->
  doc w !! h3 = Some heading ->
  findMatches term w =
  Return [mkMatch Detail (Some panel) (textContent heading)] w.
Proof.
  intros Hcards Hp Hcl Hhit Hothers Hh Hhe.
  unfold findMatches, mbind, M_bind, getWorld.
  rewrite collectMatches_miss.
  - apply (collectMatches_one _ _ [] w panel).
    + apply NoDup_querySelectorAll.
    + apply elem_of_querySelectorAll. eauto.
    + by eapply detailMatch_hit.
    + intros i (e & He & Hc)%elem_of_querySelectorAll Hne.
      eapply detailMatch_miss; [done|]. by eapply Hothers.
  - intros i (e & He & Hc)%elem_of_querySelectorAll.
    eapply timelineMatch_miss; [done|]. by eapply Hcards.
Qed.

Lemma classOnly_classAdd (c : string) (e : Element) : classOnly e (classAdd c e).
Proof. unfold classOnly, classAdd. by destruct (contains c e). Qed.

Lemma classOnly_classRemove (c : string) (e : Element) : classOnly e (classRemove c e).
Proof. done. Qed.

Lemma classOnly_trans (e1 e2 e3 : Element) :
  classOnly e1 e2 -> classOnly e2 e3 -> classOnly e1 e3.
Proof. unfold classOnly. intuition congruence. Qed.

Lemma classOnly_refl (e : Element) : classOnly e e.
Proof. done. Qed.

Lemma highlighted_lookup (panel : nat) (d : Document) (i : nat) (e : Element) :
  d !! i = Some e ->
  exists e', highlighted panel d !! i = Some e' /\ classOnly e e' /\
             (i = panel -> contains "search-highlight" e' = true).
Proof.
  intros He. unfold highlighted. rewrite lookup_update, lookup_forEachMatch, He. simpl.
  eexists. split; [done|]. split.
  - eapply classOnly_trans; [|case_decide; [apply classOnly_classAdd | apply classOnly_refl]].
    destruct (byClass _ e); [apply classOnly_classRemove | apply classOnly_refl].
  - intros ->. rewrite decide_True by done.
    by rewrite contains_classAdd, String.eqb_refl, orb_true_r.
Qed.

Lemma length_highlighted (panel : nat) (d : Document) :
  length (highlighted panel d) = length d.
Proof. unfold highlighted. by rewrite length_update, length_forEachMatch. Qed.

Lemma querySelector_highlighted (sel : Selector) (panel : nat) (d : Document) :
  (forall e e', classOnly e e' -> sel e' = sel e) ->
  querySelector sel (highlighted panel d) = querySelector sel d.
Proof.
  intros H. apply querySelector_ext; [apply length_highlighted|].
  intros i e' e He' He.
  destruct (highlighted_lookup panel d i e He) as (x & Hx & Hc & _).
  rewrite Hx in He'. injection He' as <-. by apply H.
Qed.

Lemma getElementById_highlighted (x : string) (panel : nat) (d : Document) :
  getElementById x (highlighted panel d) = getElementById x d.
Proof.
  unfold getElementById. destruct (Js.truthy x); [|done].
  apply querySelector_highlighted. by intros e e' (_ & -> & _).
Qed.

Lemma byAttr_classOnly (name v : string) (e e' : Element) :
  classOnly e e' -> byAttr name v e' = byAttr name v e.
Proof. intros (_ & _ & Ha & _). unfold byAttr, getAttribute. by rewrite Ha. Qed.

(** The listener of [initializeTimeline] on the trigger of a collapsed
    panel runs the expanding branch of [toggleDetailPanel]. *)
Lemma expandListener_expands (w : World) (panel button : nat) (b : Element)
    (panelId : string) :
  doc w !! button = Some b ->
  getAttribute "aria-controls" b = Some panelId ->
  getAttribute "aria-expanded" b = Some "false" ->
  getElementById panelId (doc w) = Some panel ->
  listenerTurn (expandListener button) w =
  mkWorld
    (update button (setAttribute "aria-expanded" "true")
       (update panel (setHidden false) (doc w)))
    (setExpandedPanels (expandedPanels (state w) ++ [panelId]) (state w))
    (bodyOverflow w) (localStorage w)
    (trace w ++ [SetTimeout (ScrollPanelIntoView panel) 100]).
Proof.
  intros Hb Hc He Hp. unfold listenerTurn, expandListener. rewrite Hb, Hc. simpl.
  unfold toggleDetailPanel. by rewrite Hp, Hb, He.
Qed.

Lemma afterHighlight_doc (w : World) (panel button : nat) (p b : Element) (x : bool) :
  detailPanelPair (doc w) panel button p b x ->
  doc (afterHighlight w panel button x) =
    (if x then highlighted panel (doc w)
     else update button (setAttribute "aria-expanded" "true")
            (update panel (setHidden false) (highlighted panel (doc w)))) /\
  state (afterHighlight w panel button x) =
    (if x then state w
     else setExpandedPanels (expandedPanels (state w) ++ [elementId p]) (state w)).
Proof.
  intros (Hp & Hb & _ & Hid & Hq & Ha & _).
  unfold afterHighlight. destruct x; [done|]. simpl.
  destruct (highlighted_lookup panel (doc w) button b Hb)
    as (b2 & Hb2 & (Ht2 & _ & Ha2 & _ & Hw2) & _).
  apply querySelector_Some in Hq as (b' & Hb' & Hc).
  rewrite Hb in Hb'. injection Hb' as <-.
  apply bool_decide_eq_true in Hc.
  erewrite (expandListener_expands _ panel button b2 (elementId p)); try done.
  - unfold getAttribute in *. by rewrite Ha2.
  - unfold getAttribute in *. by rewrite Ha2.
  - simpl. by rewrite getElementById_highlighted.
Qed.

Section SearchProperties.

Variable engine : string -> Document -> option (option nat).
Variable click : nat -> World -> World.

Lemma highlightSearchResults_single (w : World) (panel button : nat)
    (p b : Element) (x : bool) (title : string) :
  detailPanelPair (doc w) panel button p b x ->
  clicksExpand click button ->
  highlightSearchResults engine click [mkMatch Detail (Some panel) title] w =
  Return tt (afterHighlight w panel button x).
Proof.
  intros (Hp & Hb & Hpl & Hid & Hq & Ha & _) Hclick.
  destruct (highlighted_lookup panel (doc w) panel p Hp) as (p2 & Hp2 & (_ & Hi2 & _) & _).
  destruct (highlighted_lookup panel (doc w) button b Hb) as (b2 & Hb2 & (_ & _ & Ha2 & _) & _).
  unfold highlightSearchResults, afterHighlight, forEach, highlightMatch, elementAt.
  unfold querySelectorWith, selectWith.
  unfold mbind, M_bind, lift, getWorld, deref, mret, M_ret. simpl.
  fold (highlighted panel (doc w)).
  rewrite Hp2. simpl. rewrite Hi2, Hpl.
  rewrite querySelector_highlighted by (intros; by apply byAttr_classOnly).
  rewrite Hq. simpl. rewrite Hb2. simpl.
  unfold getAttribute in *. rewrite Ha2, Ha.
  destruct x; [done|]. simpl. by rewrite Hclick.
Qed.

(** C6 as amended: a query whose normalised form is not empty and occurs
    in the text of exactly one detail panel and of no timeline card, where
    the panel has a heading and is paired with its trigger as
    [detailPanelPair] describes, and a click on the trigger runs the
    listener of [initializeTimeline].  The scan returns one match, of kind
    Detail, for that panel; [performSearch] completes, reports one result,
    and leaves the panel marked and open: shown, its trigger saying
    expanded, its id in [expandedPanels].  A panel that was collapsed is
    opened by the click on its trigger, that is by [toggleDetailPanel],
    which pushes the id; a panel that was open is left as it was. *)
Theorem search_single_detail_match (Q : string) (w : World)
    (panel button h3 : nat) (p b heading : Element) (x : bool) :
  Js.truthy (Js.trim (Js.toLowerCase Q)) = true ->
  (forall i e, doc w !! i = Some e -> byClass "timeline-card" e = true ->
               textMatches (Js.trim (Js.toLowerCase Q)) e = false) ->
  byClass "detail-panel" p = true ->
  textMatches (Js.trim (Js.toLowerCase Q)) p = true ->
  (forall i e, i <> panel -> doc w !! i = Some e ->
               byClass "detail-panel" e = true ->
               textMatches (Js.trim (Js.toLowerCase Q)) e = false) ->
  querySelectorIn panel (byTag "h3") (doc w) = Some h3 ->
  doc w !! h3 = Some heading ->
  detailPanelPair (doc w) panel button p b x ->
  clicksExpand click button ->
  bool_decide (elementId p ∈ expandedPanels (state w)) = x ->
  findMatches (Js.trim (Js.toLowerCase Q)) w =
    Return [mkMatch Detail (Some panel) (textContent heading)] w /\
  exists w',
    performSearch engine click Q w = Return tt w' /\
    hidden <$> doc w' !! panel = Some false /\
    getAttribute "aria-expanded" <$> doc w' !! button = Some (Some "true") /\
    bool_decide (elementId p ∈ expandedPanels (state w')) = true /\
    expandedPanels (state w') =
      (if x then expandedPanels (state w)
       else expandedPanels (state w) ++ [elementId p]) /\
    contains "search-highlight" <$> doc w' !! panel = Some true /\
    textContent <$> last (doc w') =
      Some (foundMessage 1 (Js.trim (Js.toLowerCase Q))).
Proof.
  intros Hq Hcards Hcl Hhit Hothers Hh Hhe Hpair Hclick Hmem.
  pose proof Hpair as (Hp & Hb & Hpl & Hid & Hsel & Ha & Hhid).
  pose proof (findMatches_single _ w panel h3 p heading
                Hcards Hp Hcl Hhit Hothers Hh Hhe) as Hfind.
  split; [exact Hfind|].
  destruct (afterHighlight_doc w panel button p b x Hpair) as [Hdoc Hst].
  unfold performSearch.
  set (term := Js.trim (Js.toLowerCase Q)) in *.
  assert (String.eqb term "" = false) as -> by by destruct term.
  unfold mbind, M_bind. rewrite Hfind. cbv iota beta.
  rewrite (highlightSearchResults_single w panel button p b x _ Hpair Hclick).
  revert Hdoc Hst. generalize (afterHighlight w panel button x). intros W Hdoc Hst.
  unfold lift, deref, mret, M_ret. simpl.
  eexists. split; [reflexivity|].
  unfold showNotification. simpl.
  rewrite Hdoc, Hst.
  destruct (highlighted_lookup panel (doc w) panel p Hp)
    as (p2 & Hp2 & (_ & _ & _ & Hh2 & _) & Hmark).
  destruct (highlighted_lookup panel (doc w) button b Hb)
    as (b2 & Hb2 & (_ & _ & Ha2 & _) & _).
  assert (panel < length (highlighted panel (doc w))) as Hlp
    by by eapply lookup_lt_Some.
  assert (button < length (highlighted panel (doc w))) as Hlb
    by by eapply lookup_lt_Some.
  rewrite last_snoc.
  destruct x; simpl.
  - rewrite !lookup_app_l by done. rewrite Hp2, Hb2. simpl.
    unfold getAttribute in *. rewrite Hh2, Hhid, Ha2, Ha, Hmem, (Hmark eq_refl).
    done.
  - rewrite !lookup_app_l by (by rewrite !length_update).
    rewrite !lookup_update, Hp2, Hb2. simpl.
    rewrite elem_of_push_id.
    repeat split; try done.
    + by repeat (case_decide; simpl).
    + rewrite decide_True by done. unfold getAttribute, setAttribute. simpl.
      by rewrite lookup_insert_eq.
    + repeat (case_decide; simpl); unfold contains in *; simpl;
        by rewrite (Hmark eq_refl).
Qed.

End SearchProperties.

(** A property of every element of a concrete page, by enumeration. *)
Lemma forall_lookup_check (d : Document) (P : nat -> Element -> bool) :
  forallb (fun i => match d !! i with Some e => P i e | None => true end)
          (seq 0 (length d)) = true ->
  forall i e, d !! i = Some e -> P i e = true.
Proof.
  intros H i e He. rewrite forallb_forall in H.
  specialize (H i). rewrite He in H. apply H, in_seq.
  apply lookup_lt_Some in He. lia.
Qed.

(** The query Density on the page: only the second detail panel holds
    the word; the search opens it. *)
Lemma search_single_detail_match_witness :
  exists w',
    performSearch Samples.engine Samples.click " Density " Page.world0 = Return tt w' /\
    hidden <$> doc w' !! 14 = Some false /\
    getAttribute "aria-expanded" <$> doc w' !! 13 = Some (Some "true") /\
    expandedPanels (state w') = ["detail-2"].
Proof.
  destruct (search_single_detail_match Samples.engine Samples.click
              " Density " Page.world0 14 13 15
              (Page.node "div" "detail-2" ["detail-panel"] [] true
                 "Review details Density and height" (Some 10))
              (setExpandWired true
                 (Page.node "button" "" ["btn-expand"]
                    [("aria-controls", "detail-2"); ("aria-expanded", "false")]
                    false "Expand" (Some 11)))
              (Page.node "h3" "" [] [] false "Review details" (Some 14))
              false)
    as [_ (w' & E & Hh & Ha & _ & Hs & _)].
  - reflexivity.
  - intros i e He Hc.
    pose proof (forall_lookup_check (doc Page.world0)
      (fun _ e => implb (byClass "timeline-card" e)
                    (negb (textMatches (Js.trim (Js.toLowerCase " Density ")) e)))
      ltac:(vm_compute; reflexivity) i e He) as H.
    simpl in H. rewrite Hc in H. simpl in H. by apply negb_true_iff in H.
  - reflexivity.
  - vm_compute. reflexivity.
  - intros i e Hne He Hc.
    pose proof (forall_lookup_check (doc Page.world0)
      (fun i e => (i =? 14)%nat ||
                  implb (byClass "detail-panel" e)
                    (negb (textMatches (Js.trim (Js.toLowerCase " Density ")) e)))
      ltac:(vm_compute; reflexivity) i e He) as H.
    simpl in H. rewrite Hc in H. apply Nat.eqb_neq in Hne. rewrite Hne in H.
    simpl in H. by apply negb_true_iff in H.
  - vm_compute. reflexivity.
  - reflexivity.
  - unfold detailPanelPair. repeat split; vm_compute; reflexivity.
  - intros w. reflexivity.
  - vm_compute. reflexivity.
  - exists w'. repeat split; try done.
Defined.

(** C6 as stated fails on a page whose only element is a detail panel
    without a heading: the query occurs in that panel and in no timeline
    card, and [performSearch] throws a TypeError at the heading while it
    collects the matches.  No match set is produced and the panel stays
    hidden, whatever the selector parser and the click listeners. *)
Lemma search_match_without_heading_throws :
  map (byClass "detail-panel") (doc Samples.headlessWorld) = [true] /\
  map (byClass "timeline-card") (doc Samples.headlessWorld) = [false] /\
  map (textMatches (Js.trim (Js.toLowerCase "density"))) (doc Samples.headlessWorld) =
    [true] /\
  map hidden (doc Samples.headlessWorld) = [true] /\
  forall (engine : string -> Document -> option (option nat))
         (click : nat -> World -> World),
    performSearch engine click "density" Samples.headlessWorld =
    Throw (TypeError "panel.querySelector('h3').textContent") Samples.headlessWorld.
Proof.
  split; [vm_compute; reflexivity|].
  split; [vm_compute; reflexivity|].
  split; [vm_compute; reflexivity|].
  split; [vm_compute; reflexivity|].
  intros engine click. vm_compute. reflexivity.
Qed.

(** * Further properties of the controllers *)

(** ** Keyboard navigation of the tabs *)

Lemma indexOf_lookup (tabs : list nat) (k target : nat) :
  NoDup tabs -> tabs !! k = Some target -> indexOf target tabs = Z.of_nat k.
Proof.
  revert k. induction tabs as [|t r IH]; intros k Hnd Hk; [done|].
  apply NoDup_cons in Hnd as [Ht Hnd]. simpl.
  destruct k as [|k]; simpl in Hk.
  - injection Hk as ->. by rewrite Nat.eqb_refl.
  - destruct (Nat.eqb_spec t target) as [->|Hne].
    + exfalso. apply Ht. by eapply list_elem_of_lookup_2.
    + rewrite (IH k Hnd Hk).
      destruct (Z.ltb_spec (Z.of_nat k) 0); lia.
Qed.

Lemma item_of_nat (tabs : list nat) (i : nat) :
  item tabs (Z.of_nat i) = tabs !! i.
Proof.
  unfold item. destruct (Z.ltb_spec (Z.of_nat i) 0); [lia|].
  by rewrite Nat2Z.id.
Qed.

(** Closes [item tabs i = Some t] from [H : tabs !! j = Some t], at the
    index [i] that a key computes. *)
Ltac item_at H :=
  cbv beta iota zeta;
  repeat match goal with
         | |- context [(?a <=? ?b)%Z] => destruct (Z.leb_spec a b); try lia
         | |- context [(?a <? ?b)%Z] => destruct (Z.ltb_spec a b); try lia
         end;
  rewrite <- item_of_nat in H; rewrite <- H; f_equal; lia.

Section TabKeyboardProperties.

Variable clickTab : nat -> World -> World.

Lemma handleTabKeyboard_index (key : string) (target : nat) (tabs : list nat)
    (k : nat) (n : Z) (t : nat) (w : World) :
  NoDup tabs -> tabs !! k = Some target ->
  newIndexFor key (Z.of_nat k) (Z.of_nat (length tabs)) = Some n ->
  item tabs n = Some t ->
  handleTabKeyboard clickTab key target tabs w = Return true (clickTab t (emit (Focus t) w)).
Proof.
  intros Hnd Hk Hn Ht. unfold handleTabKeyboard.
  rewrite (indexOf_lookup tabs k target Hnd Hk), Hn.
  unfold mbind, M_bind, deref. by rewrite Ht.
Qed.

(** X1: on a tab of the list, ArrowRight moves to the next tab and from the
    last one to the first, ArrowLeft moves to the previous tab and from the
    first one to the last, Home moves to the first tab and End to the last.
    Each time the handler completes, the tab is focused, then clicked, and
    the default action of the key is prevented. *)
Theorem tab_keyboard_wraps (target : nat) (tabs : list nat) (k : nat) (w : World) :
  NoDup tabs -> tabs !! k = Some target ->
  (exists t, tabs !! ((k + 1) mod length tabs) = Some t /\
     handleTabKeyboard clickTab "ArrowRight" target tabs w = Return true (clickTab t (emit (Focus t) w))) /\
  (exists t, tabs !! ((k + length tabs - 1) mod length tabs) = Some t /\
     handleTabKeyboard clickTab "ArrowLeft" target tabs w = Return true (clickTab t (emit (Focus t) w))) /\
  (exists t, tabs !! 0 = Some t /\
     handleTabKeyboard clickTab "Home" target tabs w = Return true (clickTab t (emit (Focus t) w))) /\
  (exists t, tabs !! (length tabs - 1) = Some t /\
     handleTabKeyboard clickTab "End" target tabs w = Return true (clickTab t (emit (Focus t) w))).
Proof.
  intros Hnd Hk.
  assert (k < length tabs) as Hlt by by eapply lookup_lt_Some.
  assert (forall i, i < length tabs -> exists t, tabs !! i = Some t) as Hex
    by (intros i Hi; by apply lookup_lt_is_Some_2).
  repeat split.
  - destruct (Hex ((k + 1) mod length tabs)) as [t Ht];
      [apply Nat.mod_upper_bound; lia|].
    exists t. split; [done|].
    eapply (handleTabKeyboard_index _ _ _ k); try done.
    rewrite <- item_of_nat in Ht. rewrite <- Ht. f_equal. simpl.
    destruct (Z.leb_spec (Z.of_nat (length tabs)) (Z.of_nat k + 1)).
    + replace (k + 1) with (length tabs) by lia. by rewrite Nat.Div0.mod_same.
    + rewrite Nat.mod_small by lia. lia.
  - destruct (Hex ((k + length tabs - 1) mod length tabs)) as [t Ht];
      [apply Nat.mod_upper_bound; lia|].
    exists t. split; [done|].
    eapply (handleTabKeyboard_index _ _ _ k); try done.
    rewrite <- item_of_nat in Ht. rewrite <- Ht. f_equal. simpl.
    destruct (Z.ltb_spec (Z.of_nat k - 1) 0).
    + replace k with 0 by lia. simpl.
      rewrite Nat.mod_small by lia. lia.
    + replace (k + length tabs - 1) with (k - 1 + 1 * length tabs) by lia.
      rewrite Nat.Div0.mod_add, Nat.mod_small by lia. lia.
  - destruct (Hex 0) as [t Ht]; [lia|]. exists t. split; [done|].
    eapply (handleTabKeyboard_index _ _ _ k); try done.
  - destruct (Hex (length tabs - 1)) as [t Ht]; [lia|]. exists t. split; [done|].
    eapply (handleTabKeyboard_index _ _ _ k); try done.
    rewrite <- item_of_nat in Ht. rewrite <- Ht. f_equal. simpl. lia.
Qed.

(** X2: ArrowLeft undoes ArrowRight and ArrowRight undoes ArrowLeft: from
    the tab that either key moves to, the other key moves back to the tab
    where the first key was pressed. *)
Theorem tab_keyboard_inverse (target : nat) (tabs : list nat) (k : nat)
    (w w' : World) :
  NoDup tabs -> tabs !! k = Some target ->
  (exists t,
     handleTabKeyboard clickTab "ArrowRight" target tabs w = Return true (clickTab t (emit (Focus t) w)) /\
     handleTabKeyboard clickTab "ArrowLeft" t tabs w' = Return true (clickTab target (emit (Focus target) w'))) /\
  (exists t,
     handleTabKeyboard clickTab "ArrowLeft" target tabs w = Return true (clickTab t (emit (Focus t) w)) /\
     handleTabKeyboard clickTab "ArrowRight" t tabs w' = Return true (clickTab target (emit (Focus target) w'))).
Proof.
  intros Hnd Hk.
  assert (k < length tabs) as Hlt by by eapply lookup_lt_Some.
  assert (forall i, i < length tabs -> exists t, tabs !! i = Some t) as Hex
    by (intros i Hi; by apply lookup_lt_is_Some_2).
  split.
  - destruct (Z.leb_spec (Z.of_nat (length tabs)) (Z.of_nat k + 1)) as [Hw|Hw].
    + destruct (Hex 0) as [t Ht]; [lia|]. exists t. split.
      * eapply (handleTabKeyboard_index _ _ _ k); try done. item_at Ht.
      * eapply (handleTabKeyboard_index _ _ _ 0); try done. item_at Hk.
    + destruct (Hex (k + 1)) as [t Ht]; [lia|]. exists t. split.
      * eapply (handleTabKeyboard_index _ _ _ k); try done. item_at Ht.
      * eapply (handleTabKeyboard_index _ _ _ (k + 1)); try done. item_at Hk.
  - destruct (Z.ltb_spec (Z.of_nat k - 1) 0) as [Hw|Hw].
    + destruct (Hex (length tabs - 1)) as [t Ht]; [lia|]. exists t. split.
      * eapply (handleTabKeyboard_index _ _ _ k); try done. item_at Ht.
      * eapply (handleTabKeyboard_index _ _ _ (length tabs - 1)); try done.
        item_at Hk.
    + destruct (Hex (k - 1)) as [t Ht]; [lia|]. exists t. split.
      * eapply (handleTabKeyboard_index _ _ _ k); try done. item_at Ht.
      * eapply (handleTabKeyboard_index _ _ _ (k - 1)); try done. item_at Hk.
Qed.

(** X3: a key without a case leaves the world as it is and does not
    prevent the default action; on an empty list of tabs each of the four
    navigation keys throws a TypeError at [tabs[newIndex].focus()], before
    anything is focused or clicked. *)
Theorem tab_keyboard_edges (key : string) (target : nat) (tabs : list nat)
    (w : World) :
  (key <> "ArrowLeft" -> key <> "ArrowRight" -> key <> "Home" -> key <> "End" ->
   handleTabKeyboard clickTab key target tabs w = Return false w) /\
  (key = "ArrowLeft" \/ key = "ArrowRight" \/ key = "Home" \/ key = "End" ->
   handleTabKeyboard clickTab key target [] w =
     Throw (TypeError "tabs[newIndex].focus") w).
Proof.
  split.
  - intros H1 H2 H3 H4. unfold handleTabKeyboard, newIndexFor.
    apply String.eqb_neq in H1, H2, H3, H4. by rewrite H1, H2, H3, H4.
  - intros [-> | [-> | [-> | ->]]]; reflexivity.
Qed.

End TabKeyboardProperties.

(** On the page: ArrowRight on the second (last) tab moves to the first,
    ArrowLeft on the first moves to the second, and the click selects it. *)
Lemma tab_keyboard_wraps_witness :
  handleTabKeyboard Samples.clickTab "ArrowRight" 1 Samples.tabs Page.world0 =
    Return true (Samples.clickTab 0 (emit (Focus 0) Page.world0)) /\
  handleTabKeyboard Samples.clickTab "ArrowLeft" 0 Samples.tabs Page.world0 =
    Return true (Samples.clickTab 1 (emit (Focus 1) Page.world0)).
Proof.
  assert (NoDup Samples.tabs) as Hnd
    by (apply (bool_decide_unpack _); vm_compute; exact I).
  destruct (tab_keyboard_wraps Samples.clickTab 1 Samples.tabs 1 Page.world0
              Hnd eq_refl) as ((t & Ht & E) & _).
  destruct (tab_keyboard_wraps Samples.clickTab 0 Samples.tabs 0 Page.world0
              Hnd eq_refl) as (_ & (t' & Ht' & E') & _).
  injection Ht as <-. injection Ht' as <-. by split.
Defined.

Lemma tab_keyboard_inverse_witness :
  exists t,
    handleTabKeyboard Samples.clickTab "ArrowRight" 1 Samples.tabs Page.world0 =
      Return true (Samples.clickTab t (emit (Focus t) Page.world0)) /\
    handleTabKeyboard Samples.clickTab "ArrowLeft" t Samples.tabs Page.world0 =
      Return true (Samples.clickTab 1 (emit (Focus 1) Page.world0)).
Proof.
  assert (NoDup Samples.tabs) as Hnd
    by (apply (bool_decide_unpack _); vm_compute; exact I).
  exact (proj1 (tab_keyboard_inverse Samples.clickTab 1 Samples.tabs 1
                  Page.world0 Page.world0 Hnd eq_refl)).
Defined.

Lemma tab_keyboard_edges_witness :
  handleTabKeyboard Samples.clickTab "Enter" 0 Samples.tabs Page.world0 =
    Return false Page.world0 /\
  handleTabKeyboard Samples.clickTab "Home" 0 [] Page.world0 =
    Throw (TypeError "tabs[newIndex].focus") Page.world0.
Proof.
  destruct (tab_keyboard_edges Samples.clickTab "Enter" 0 Samples.tabs Page.world0)
    as [H _].
  destruct (tab_keyboard_edges Samples.clickTab "Home" 0 Samples.tabs Page.world0)
    as [_ H'].
  split; [by apply H | apply H'; auto].
Defined.

(** ** The glossary overlay *)

Lemma toggleGlossary_returns (w : World) (g t : nat) :
  getElementById "glossary" (doc w) = Some g ->
  getElementById "glossaryToggle" (doc w) = Some t ->
  toggleGlossary w =
  Return tt
    (mkWorld
       (update t (setAttribute "aria-expanded"
                    (Js.boolToString (negb (glossaryOpen (state w)))))
          (update g (setHidden (glossaryOpen (state w))) (doc w)))
       (setGlossaryOpen (negb (glossaryOpen (state w))) (state w))
       (bodyOverflow w) (localStorage w)
       (if glossaryOpen (state w) then trace w
        else trace w ++ [SetTimeout FocusGlossarySearch 100])).
Proof.
  intros Hg Ht. unfold toggleGlossary, mbind, M_bind, getWorld, lift, deref.
  cbv beta iota zeta. rewrite Hg, Ht. simpl.
  rewrite negb_involutive. by destruct (glossaryOpen (state w)).
Qed.

Lemma lookup_glossary_nodes (d : Document) (g t : nat) (h : bool) (v : string) :
  g < length d -> t < length d ->
  hidden <$> update t (setAttribute "aria-expanded" v)
               (update g (setHidden h) d) !! g = Some h /\
  getAttribute "aria-expanded" <$>
    update t (setAttribute "aria-expanded" v) (update g (setHidden h) d) !! t =
    Some (Some v).
Proof.
  intros Hg Ht.
  destruct (lookup_lt_is_Some_2 d g Hg) as [eg Heg].
  destruct (lookup_lt_is_Some_2 d t Ht) as [et Het].
  split.
  - rewrite !lookup_update, Heg. simpl.
    repeat (case_decide; simpl); done.
  - rewrite !lookup_update, Het. simpl.
    unfold getAttribute, setAttribute.
    repeat (case_decide; simpl); try done; by rewrite lookup_insert_eq.
Qed.

(** X4: when the overlay and its control are in the page, [toggleGlossary]
    completes, flips [glossaryOpen], and makes the overlay's [hidden] flag
    and the control's [aria-expanded] attribute say the new value, whatever
    they said before; the focus timer is scheduled only on opening.  A
    second call restores [glossaryOpen] and leaves both nodes in agreement
    with it. *)
Theorem glossary_toggle_agrees (w : World) (g t : nat) :
  getElementById "glossary" (doc w) = Some g ->
  getElementById "glossaryToggle" (doc w) = Some t ->
  exists w1 w2,
    toggleGlossary w = Return tt w1 /\
    glossaryOpen (state w1) = negb (glossaryOpen (state w)) /\
    hidden <$> doc w1 !! g = Some (negb (glossaryOpen (state w1))) /\
    getAttribute "aria-expanded" <$> doc w1 !! t =
      Some (Some (Js.boolToString (glossaryOpen (state w1)))) /\
    trace w1 = (if glossaryOpen (state w1)
                then trace w ++ [SetTimeout FocusGlossarySearch 100]
                else trace w) /\
    toggleGlossary w1 = Return tt w2 /\
    glossaryOpen (state w2) = glossaryOpen (state w) /\
    hidden <$> doc w2 !! g = Some (negb (glossaryOpen (state w))) /\
    getAttribute "aria-expanded" <$> doc w2 !! t =
      Some (Some (Js.boolToString (glossaryOpen (state w)))).
Proof.
  intros Hg Ht.
  pose proof (toggleGlossary_returns w g t Hg Ht) as E1.
  match type of E1 with _ = Return tt ?x => set (w1 := x) in * end.
  assert (getElementById "glossary" (doc w1) = Some g) as Hg1
    by (simpl; by rewrite !getElementById_update).
  assert (getElementById "glossaryToggle" (doc w1) = Some t) as Ht1
    by (simpl; by rewrite !getElementById_update).
  pose proof (toggleGlossary_returns w1 g t Hg1 Ht1) as E2.
  apply getElementById_Some in Hg as (eg & Heg%lookup_lt_Some & _).
  apply getElementById_Some in Ht as (et & Het%lookup_lt_Some & _).
  eexists w1, _. split; [exact E1|]. split; [done|].
  destruct (lookup_glossary_nodes (doc w) g t (glossaryOpen (state w))
              (Js.boolToString (negb (glossaryOpen (state w)))) Heg Het) as [Hh Ha].
  split; [simpl; by rewrite negb_involutive|]. split; [exact Ha|].
  split; [simpl; by destruct (glossaryOpen (state w))|].
  split; [exact E2|]. simpl. rewrite negb_involutive. split; [done|].
  apply lookup_glossary_nodes; by rewrite !length_update.
Qed.

(** X5: when the overlay is not in the page [toggleGlossary] throws, and
    yet [glossaryOpen] has been flipped: the flag changes although nothing
    was shown or hidden.  When only the control is missing, the overlay has
    been shown or hidden as well before the call throws. *)
Theorem glossary_toggle_missing_node (w : World) :
  (getElementById "glossary" (doc w) = None ->
   toggleGlossary w =
     Throw (TypeError "glossary.hidden")
       (setState (setGlossaryOpen (negb (glossaryOpen (state w))) (state w)) w)) /\
  (forall g,
     getElementById "glossary" (doc w) = Some g ->
     getElementById "glossaryToggle" (doc w) = None ->
     toggleGlossary w =
       Throw (TypeError "toggleButton.setAttribute")
         (setDoc (update g (setHidden (glossaryOpen (state w))) (doc w))
            (setState (setGlossaryOpen (negb (glossaryOpen (state w))) (state w)) w))).
Proof.
  split.
  - intros Hg. unfold toggleGlossary, mbind, M_bind, getWorld, lift, deref.
    cbv beta iota zeta. by rewrite Hg.
  - intros g Hg Ht. unfold toggleGlossary, mbind, M_bind, getWorld, lift, deref.
    cbv beta iota zeta. rewrite Hg, Ht. simpl. by rewrite negb_involutive.
Qed.

Lemma glossary_toggle_agrees_witness :
  exists w1 w2,
    toggleGlossary Samples.glossaryWorld = Return tt w1 /\
    glossaryOpen (state w1) = true /\
    hidden <$> doc w1 !! 25 = Some false /\
    getAttribute "aria-expanded" <$> doc w1 !! 26 = Some (Some "true") /\
    toggleGlossary w1 = Return tt w2 /\
    glossaryOpen (state w2) = false /\
    hidden <$> doc w2 !! 25 = Some true.
Proof.
  destruct (glossary_toggle_agrees Samples.glossaryWorld 25 26 eq_refl eq_refl)
    as (w1 & w2 & E1 & Ho & Hh & Ha & _ & E2 & Ho2 & Hh2 & _).
  exists w1, w2. rewrite Ho in Hh, Ha. by repeat split.
Defined.

Lemma glossary_toggle_missing_node_witness :
  toggleGlossary Page.world0 =
    Throw (TypeError "glossary.hidden")
      (setState (setGlossaryOpen true (state Page.world0)) Page.world0).
Proof.
  exact (proj1 (glossary_toggle_missing_node Page.world0) eq_refl).
Defined.

(** ** The decision tree: composition *)

Lemma filter_filter_id (c : string) (l : list string) :
  List.filter (fun x => negb (String.eqb x c))
    (List.filter (fun x => negb (String.eqb x c)) l) =
  List.filter (fun x => negb (String.eqb x c)) l.
Proof.
  induction l as [|x l IH]; [done|]. simpl.
  destruct (negb (String.eqb x c)) eqn:E; simpl; rewrite ?E, IH; done.
Qed.

Lemma classRemove_idem (c : string) (e : Element) :
  classRemove c (classRemove c e) = classRemove c e.
Proof. unfold classRemove, setClassList. simpl. by rewrite filter_filter_id. Qed.

Lemma classRemove_classAdd (c : string) (e : Element) :
  classRemove c (classAdd c (classRemove c e)) = classRemove c e.
Proof.
  unfold classAdd. rewrite contains_classRemove, String.eqb_refl, andb_false_r.
  unfold classRemove, setClassList. simpl.
  rewrite List.filter_app, filter_filter_id. simpl.
  by rewrite String.eqb_refl, app_nil_r.
Qed.

(** The two clearing loops together remove [active] from the decision
    nodes and leave every other element alone. *)
Lemma deactivate_eq (e : Element) :
  deactivate e = if isDecisionNode e then classRemove "active" e else e.
Proof.
  unfold deactivate, isDecisionNode, byClass.
  destruct (contains "decision-step" e) eqn:E1; simpl.
  - rewrite contains_classRemove. simpl. rewrite andb_true_r.
    destruct (contains "decision-result" e); [apply classRemove_idem | done].
  - by destruct (contains "decision-result" e).
Qed.

Lemma isDecisionNode_deactivate (e : Element) :
  isDecisionNode (deactivate e) = isDecisionNode e.
Proof. unfold isDecisionNode. by rewrite !deactivate_class. Qed.

Lemma deactivate_idem (e : Element) : deactivate (deactivate e) = deactivate e.
Proof.
  rewrite (deactivate_eq (deactivate e)), isDecisionNode_deactivate, deactivate_eq.
  destruct (isDecisionNode e); [apply classRemove_idem | done].
Qed.

Lemma deactivate_classAdd (e : Element) :
  isDecisionNode e = true ->
  deactivate (classAdd "active" (deactivate e)) = deactivate e.
Proof.
  intros H.
  assert (isDecisionNode (classAdd "active" (deactivate e)) =
          isDecisionNode (deactivate e)) as H'.
  { unfold isDecisionNode, byClass. rewrite !contains_classAdd. simpl.
    by rewrite !orb_false_r. }
  rewrite (deactivate_eq (classAdd _ _)), H', isDecisionNode_deactivate, H.
  rewrite deactivate_eq, H. apply classRemove_classAdd.
Qed.

Lemma deactivateAll_idem (d : Document) : deactivateAll (deactivateAll d) = deactivateAll d.
Proof.
  apply list_eq. intros i. rewrite !lookup_deactivateAll.
  destruct (d !! i); simpl; [by rewrite deactivate_idem | done].
Qed.

Lemma deactivateAll_activated (d : Document) (i : nat) (e : Element) :
  d !! i = Some e -> isDecisionNode e = true ->
  deactivateAll (update i (classAdd "active") (deactivateAll d)) = deactivateAll d.
Proof.
  intros Hi He. apply list_eq. intros j.
  rewrite !lookup_deactivateAll, lookup_update, lookup_deactivateAll.
  destruct (decide (i = j)) as [<-|].
  - rewrite Hi. simpl. by rewrite deactivate_classAdd.
  - destruct (d !! j); simpl; [by rewrite deactivate_idem | done].
Qed.

Lemma world_eq (a b : World) :
  doc a = doc b -> state a = state b -> bodyOverflow a = bodyOverflow b ->
  localStorage a = localStorage b -> trace a = trace b -> a = b.
Proof. destruct a, b. simpl. by intros -> -> -> -> ->. Qed.

Lemma showDecisionStep_rest (n : Js.Num) (w : World) :
  bodyOverflow (showDecisionStep n w) = bodyOverflow w /\
  localStorage (showDecisionStep n w) = localStorage w /\
  trace (showDecisionStep n w) = trace w.
Proof. unfold showDecisionStep. by destruct (querySelector _ _). Qed.

Lemma showDecisionResult_rest (r : string) (w : World) :
  bodyOverflow (showResultPlain r w) = bodyOverflow w /\
  localStorage (showResultPlain r w) = localStorage w /\
  trace (showResultPlain r w) = trace w.
Proof. unfold showResultPlain. by destruct (querySelector _ _). Qed.

Lemma showDecisionStep_doc (n : Js.Num) (w : World) :
  doc (showDecisionStep n w) =
  match querySelector (questionWithStep n) (deactivateAll (doc w)) with
  | Some i => update i (classAdd "active") (deactivateAll (doc w))
  | None => deactivateAll (doc w)
  end.
Proof.
  unfold showDecisionStep. simpl. fold (deactivateAll (doc w)).
  fold (questionWithStep n). by destruct (querySelector _ _).
Qed.

Lemma showDecisionResult_doc (r : string) (w : World) :
  doc (showResultPlain r w) =
  match querySelector (resultNamed r) (deactivateAll (doc w)) with
  | Some i => update i (classAdd "active") (deactivateAll (doc w))
  | None => deactivateAll (doc w)
  end.
Proof.
  unfold showResultPlain. simpl. fold (deactivateAll (doc w)).
  fold (resultNamed r). by destruct (querySelector _ _).
Qed.

Section DecisionComposition.

Variable engine : string -> Document -> option (option nat).

Lemma plain_staysInTree (r : string) (w : World) :
  classify r = PlainValue -> staysInTree engine (ShowResult r) w.
Proof.
  intros H i e. simpl. rewrite selectWith_plain by done. intros [= Hq] He.
  apply querySelector_Some in Hq as (e' & He' & [Hc _]%andb_true_iff).
  rewrite lookup_deactivateAll, He in He'. injection He' as <-.
  rewrite deactivate_class in Hc by done.
  unfold isDecisionNode. by rewrite Hc, orb_true_r.
Qed.

(** Clearing the tree after a call gives the cleared tree of before. *)
Lemma deactivateAll_runCall (w : World) (c : DecisionCall) :
  staysInTree engine c w ->
  deactivateAll (doc (runCall engine w c)) = deactivateAll (doc w).
Proof.
  destruct c as [n|r]; simpl; intros Hin.
  - unfold showDecisionStep. simpl. fold (deactivateAll (doc w)).
    destruct (querySelector _ (deactivateAll (doc w))) as [i|] eqn:E; simpl.
    + apply querySelector_Some in E as (e' & He' & [Hc _]%andb_true_iff).
      rewrite lookup_deactivateAll in He'.
      destruct (doc w !! i) as [e|] eqn:He; [|done]. injection He' as <-.
      apply (deactivateAll_activated _ _ e He).
      rewrite deactivate_class in Hc by done.
      unfold isDecisionNode. by rewrite Hc.
    + apply deactivateAll_idem.
  - rewrite showDecisionResult_cases.
    destruct (selectWith _ _ _ _ _) as [[i|]|] eqn:E; simpl;
      try apply deactivateAll_idem.
    destruct (doc w !! i) as [e|] eqn:He.
    + apply (deactivateAll_activated _ _ e He). by eapply Hin.
    + apply list_eq. intros j.
      rewrite !lookup_deactivateAll, lookup_update, lookup_deactivateAll.
      destruct (decide (i = j)) as [<-|]; [by rewrite He|].
      destruct (doc w !! j); simpl; [by rewrite deactivate_idem | done].
Qed.

Lemma runCall_rest (c : DecisionCall) (w : World) :
  bodyOverflow (runCall engine w c) = bodyOverflow w /\
  localStorage (runCall engine w c) = localStorage w /\
  trace (runCall engine w c) = trace w.
Proof.
  destruct c as [n|r]; simpl; [apply showDecisionStep_rest|].
  rewrite showDecisionResult_cases. by destruct (selectWith _ _ _ _ _) as [[i|]|].
Qed.

(** X6: the decision display keeps no memory.  Take any earlier call of
    [showDecisionStep] or [showDecisionResult] whose lookup returned no
    node from outside the decision tree (so it is for every step number and
    for every result name that is plain in a selector; the call may also
    have thrown).  Then a call [showDecisionStep n] gives the very world
    that it gives without the earlier call, and a call
    [showDecisionResult r] has the same outcome as without it, up to the
    step of the earlier call, which the state keeps since
    [showDecisionResult] does not write it. *)
Theorem decision_display_last_call_wins (c1 : DecisionCall) (w : World) :
  staysInTree engine c1 w ->
  (forall n, showDecisionStep n (runCall engine w c1) = showDecisionStep n w) /\
  (forall r,
     showDecisionResult engine r (runCall engine w c1) =
     match showDecisionResult engine r w with
     | Return a w' => Return a (setState (state (runCall engine w c1)) w')
     | Throw e w' => Throw e (setState (state (runCall engine w c1)) w')
     end /\
     doc (worldOf (showDecisionResult engine r (runCall engine w c1))) =
       doc (worldOf (showDecisionResult engine r w)) /\
     state (worldOf (showDecisionResult engine r (runCall engine w c1))) =
       state (runCall engine w c1)).
Proof.
  intros Hin. pose proof (deactivateAll_runCall w c1 Hin) as Hd.
  destruct (runCall_rest c1 w) as (Hb & Hl & Ht).
  split.
  - intros n. apply world_eq.
    + by rewrite !showDecisionStep_doc, Hd.
    + rewrite !showDecisionStep_state.
      destruct c1; simpl;
        by rewrite ?showDecisionStep_state, ?showDecisionResult_state.
    + destruct (showDecisionStep_rest n (runCall engine w c1)) as (-> & _ & _).
      by destruct (showDecisionStep_rest n w) as (-> & _ & _).
    + destruct (showDecisionStep_rest n (runCall engine w c1)) as (_ & -> & _).
      by destruct (showDecisionStep_rest n w) as (_ & -> & _).
    + destruct (showDecisionStep_rest n (runCall engine w c1)) as (_ & _ & ->).
      by destruct (showDecisionStep_rest n w) as (_ & _ & ->).
  - intros r.
    assert (showDecisionResult engine r (runCall engine w c1) =
            match showDecisionResult engine r w with
            | Return a w' => Return a (setState (state (runCall engine w c1)) w')
            | Throw e w' => Throw e (setState (state (runCall engine w c1)) w')
            end) as E.
    { rewrite !showDecisionResult_cases, Hd.
      destruct (selectWith _ _ _ _ _) as [[i|]|]; f_equal;
        apply world_eq; simpl; done. }
    split; [exact E|]. rewrite E.
    by destruct (showDecisionResult engine r w).
Qed.

End DecisionComposition.

(** After the result of [Page.page] has been shown, the first question
    comes up as it does from the start. *)
Lemma decision_display_last_call_wins_witness :
  showDecisionStep (Js.Int 1)
    (runCall Samples.engine Page.world0 (ShowResult "rezoning-required")) =
  showDecisionStep (Js.Int 1) Page.world0.
Proof.
  apply (decision_display_last_call_wins Samples.engine
           (ShowResult "rezoning-required") Page.world0).
  apply (plain_staysInTree Samples.engine). reflexivity.
Defined.

(** The condition on the earlier call is needed.  A result name that
    closes the quoted value and goes on with a selector of its own turns
    the text into a list of selectors, and a parser that reads it so
    returns the first heading of the page; that node then carries the class
    [active], which no later call removes. *)
Lemma injected_selector_marks_other_node :
  classify Injected.name = Escaping /\
  Injected.engine (resultText Injected.name) (doc Page.world0) = Some (Some 6) /\
  contains "active" <$>
    doc (showDecisionStep (Js.Int 1)
           (runCall Injected.engine Page.world0 (ShowResult Injected.name))) !! 6 =
    Some true /\
  contains "active" <$> doc (showDecisionStep (Js.Int 1) Page.world0) !! 6 = Some false.
Proof. vm_compute. repeat split; reflexivity. Qed.

(** ** Going back in the decision tree *)

Lemma goBackDecision_step (w : World) (N : Z) :
  decisionTreeStep (state w) = Js.Int N -> (1 <= N <= 2 ^ 53)%Z ->
  decisionTreeStep (state (goBackDecision w)) = Js.Int (if (1 <? N)%Z then N - 1 else N).
Proof.
  intros H HN. unfold goBackDecision. rewrite H, sub_exact by done. simpl.
  destruct (1 <? N)%Z; [by rewrite showDecisionStep_state | done].
Qed.

(** X7: from a step N with 1 <= N <= 2^53, [k] presses of Back leave the
    step at max(1, N - k): Back counts down one step at a time and never
    goes below the first question, and once it is there a further press
    changes nothing at all. *)
Theorem goBack_stops_at_first_step (w : World) (N : Z) (k : nat) :
  decisionTreeStep (state w) = Js.Int N -> (1 <= N <= 2 ^ 53)%Z ->
  decisionTreeStep (state (Nat.iter k goBackDecision w)) =
    Js.Int (Z.max 1 (N - Z.of_nat k)) /\
  ((N - Z.of_nat k <= 1)%Z ->
   goBackDecision (Nat.iter k goBackDecision w) = Nat.iter k goBackDecision w).
Proof.
  intros H HN.
  assert (decisionTreeStep (state (Nat.iter k goBackDecision w)) =
          Js.Int (Z.max 1 (N - Z.of_nat k))) as Hk.
  { induction k as [|k IH].
    - simpl. rewrite H. f_equal. lia.
    - rewrite Nat.iter_succ, (goBackDecision_step _ _ IH) by lia. f_equal.
      destruct (Z.ltb_spec 1 (Z.max 1 (N - Z.of_nat k))); lia. }
  split; [exact Hk|].
  intros Hle. replace (Z.max 1 (N - Z.of_nat k)) with 1%Z in Hk by lia.
  revert Hk. generalize (Nat.iter k goBackDecision w). intros w' Hk.
  unfold goBackDecision. by rewrite Hk.
Qed.

Lemma goBack_stops_at_first_step_witness :
  decisionTreeStep
    (state (Nat.iter 5 goBackDecision (showDecisionStep (Js.Int 2) Page.world0))) =
  Js.Int 1.
Proof.
  exact (proj1 (goBack_stops_at_first_step
                  (showDecisionStep (Js.Int 2) Page.world0) 2 5 eq_refl
                  ltac:(lia))).
Defined.

(** X8: a choice whose next reference [parseInt] cannot read as a number
    is followed all the same: the call completes, the step becomes NaN,
    only a question whose step identity is the text NaN could be shown,
    and Back does nothing from then on, however often it is pressed. *)
Theorem non_numeric_next_disables_back
    (engine : string -> Document -> option (option nat))
    (button : Element) (w : World) (k : nat) :
  carries (dataset "next" button) = true ->
  Js.parseInt (default "" (dataset "next" button)) = Js.NaN ->
  exists w',
    handleDecisionTreeChoice engine button w = Return tt w' /\
    decisionTreeStep (state w') = Js.NaN /\
    visibleDecisionNodes w' =
      option_list (querySelector (questionWithStep Js.NaN) (doc w)) /\
    Nat.iter k goBackDecision w' = w'.
Proof.
  intros Hc Hp. unfold handleDecisionTreeChoice. rewrite Hc, Hp.
  eexists. split; [done|].
  assert (decisionTreeStep (state (showDecisionStep Js.NaN w)) = Js.NaN) as Hs
    by by rewrite showDecisionStep_state.
  split; [exact Hs|]. split; [apply showDecisionStep_visible|].
  induction k as [|k IH]; [done|].
  rewrite Nat.iter_succ, IH.
  revert Hs. generalize (showDecisionStep Js.NaN w). intros w' Hs.
  unfold goBackDecision. by rewrite Hs.
Qed.

Lemma non_numeric_next_disables_back_witness :
  exists w',
    handleDecisionTreeChoice Samples.engine Samples.wordButton Page.world0 =
      Return tt w' /\
    decisionTreeStep (state w') = Js.NaN /\
    visibleDecisionNodes w' = [] /\
    Nat.iter 3 goBackDecision w' = w'.
Proof.
  destruct (non_numeric_next_disables_back Samples.engine Samples.wordButton
              Page.world0 3 eq_refl eq_refl) as (w' & E & Hs & Hv & Hb).
  exists w'. split; [exact E|]. split; [exact Hs|]. split; [by rewrite Hv | exact Hb].
Defined.

(** ** Opening and closing the modal *)

Lemma deactivate_classOnly (e : Element) : classOnly e (deactivate e).
Proof. rewrite deactivate_eq. by destruct (isDecisionNode e). Qed.

Lemma showDecisionStep_lookup (n : Js.Num) (w : World) (i : nat) (e : Element) :
  doc w !! i = Some e ->
  exists e', doc (showDecisionStep n w) !! i = Some e' /\ classOnly e e'.
Proof.
  intros He. rewrite showDecisionStep_doc.
  destruct (querySelector _ _) as [j|].
  - rewrite lookup_update, lookup_deactivateAll, He. simpl.
    eexists. split; [done|]. eapply classOnly_trans; [apply deactivate_classOnly|].
    case_decide; [apply classOnly_classAdd | apply classOnly_refl].
  - rewrite lookup_deactivateAll, He. simpl.
    eexists. split; [done|]. apply deactivate_classOnly.
Qed.

Lemma length_showDecisionStep (n : Js.Num) (w : World) :
  length (doc (showDecisionStep n w)) = length (doc w).
Proof.
  rewrite showDecisionStep_doc.
  destruct (querySelector _ _); by rewrite ?length_update, length_deactivateAll.
Qed.

Lemma getElementById_showDecisionStep (x : string) (n : Js.Num) (w : World) :
  getElementById x (doc (showDecisionStep n w)) = getElementById x (doc w).
Proof.
  unfold getElementById. destruct (Js.truthy x); [|done].
  apply querySelector_ext; [apply length_showDecisionStep|].
  intros i e' e He' He.
  destruct (showDecisionStep_lookup n w i e He) as (y & Hy & (_ & Hid & _)).
  rewrite Hy in He'. injection He' as <-. by rewrite Hid.
Qed.

Lemma closeDecisionTree_returns (w : World) (modal opener : nat) :
  getElementById "decisionTreeModal" (doc w) = Some modal ->
  getElementById "openDecisionTree" (doc w) = Some opener ->
  closeDecisionTree w =
  Return tt
    (mkWorld (update modal (setHidden true) (doc w)) (state w) ""
       (localStorage w) (trace w ++ [Focus opener])).
Proof.
  intros Hm Ho. unfold closeDecisionTree, mbind, M_bind, getWorld, lift, deref.
  rewrite Hm. simpl. rewrite getElementById_update by done. by rewrite Ho.
Qed.

(** X9: opening and then closing the modal, when the modal and the button
    that opens it are in the page.  Both calls complete.  While the modal
    is open it is shown and the body does not scroll; after closing, the
    modal is hidden, the scroll lock is released, the focus goes back to
    the opening button, and the state and the visible question are what
    opening left (step 1): closing resets nothing in the tree. *)
Theorem modal_open_then_close (w : World) (modal opener : nat) :
  getElementById "decisionTreeModal" (doc w) = Some modal ->
  getElementById "openDecisionTree" (doc w) = Some opener ->
  exists w1 w2,
    openDecisionTreeModal w = Return tt w1 /\
    hidden <$> doc w1 !! modal = Some false /\
    bodyOverflow w1 = "hidden" /\
    closeDecisionTree w1 = Return tt w2 /\
    hidden <$> doc w2 !! modal = Some true /\
    bodyOverflow w2 = "" /\
    last (trace w2) = Some (Focus opener) /\
    state w2 = state w1 /\
    decisionTreeStep (state w2) = Js.Int 1 /\
    visibleDecisionNodes w2 = visibleDecisionNodes w1.
Proof.
  intros Hm Ho.
  destruct (openDecisionTreeModal_returns w modal Hm) as [tr E1].
  match type of E1 with _ = Return tt ?x => set (w1 := x) in * end.
  set (w0 := setDoc (update modal (setHidden false) (doc w)) w) in *.
  assert (getElementById "decisionTreeModal" (doc w1) = Some modal) as Hm1.
  { simpl. rewrite getElementById_showDecisionStep. unfold w0. simpl.
    by rewrite getElementById_update. }
  assert (getElementById "openDecisionTree" (doc w1) = Some opener) as Ho1.
  { simpl. rewrite getElementById_showDecisionStep. unfold w0. simpl.
    by rewrite getElementById_update. }
  pose proof (closeDecisionTree_returns w1 modal opener Hm1 Ho1) as E2.
  apply getElementById_Some in Hm as (em & Hem & _).
  assert (doc w0 !! modal = Some (setHidden false em)) as Hem0.
  { unfold w0. simpl. rewrite lookup_update, Hem. simpl. by rewrite decide_True. }
  destruct (showDecisionStep_lookup (Js.Int 1) w0 modal _ Hem0)
    as (em1 & Hem1 & (_ & _ & _ & Hh1 & _)).
  eexists w1, _. split; [exact E1|].
  split; [simpl; by rewrite Hem1; simpl; rewrite Hh1|].
  split; [done|]. split; [exact E2|]. simpl.
  split; [|split; [done|split; [apply last_snoc|split; [done|split; [done|]]]]].
  - rewrite lookup_update, Hem1. simpl. by rewrite decide_True.
  - unfold visibleDecisionNodes. simpl.
    apply querySelectorAll_ext; [apply length_update|].
    intros i e e'. rewrite lookup_update. intros He He'. rewrite He' in He.
    simpl in He. injection He as <-. by case_decide.
Qed.

Lemma modal_open_then_close_witness :
  exists w1 w2,
    openDecisionTreeModal Page.world0 = Return tt w1 /\
    closeDecisionTree w1 = Return tt w2 /\
    hidden <$> doc w2 !! 16 = Some true /\
    bodyOverflow w2 = "" /\
    last (trace w2) = Some (Focus 22).
Proof.
  destruct (modal_open_then_close Page.world0 16 22 eq_refl eq_refl)
    as (w1 & w2 & E1 & _ & _ & E2 & Hh & Hb & Hf & _).
  by exists w1, w2.
Defined.

(** X10: [closeDecisionTree] with a node missing.  Without the modal the
    call throws before it changes anything.  With the modal and without
    the opening button it throws after the modal has been hidden and the
    scroll lock released: the close takes effect, only the focus is not
    returned. *)
Theorem closeDecisionTree_missing_node (w : World) :
  (getElementById "decisionTreeModal" (doc w) = None ->
   closeDecisionTree w = Throw (TypeError "modal.hidden") w) /\
  (forall modal,
     getElementById "decisionTreeModal" (doc w) = Some modal ->
     getElementById "openDecisionTree" (doc w) = None ->
     closeDecisionTree w =
       Throw (TypeError "openDecisionTree.focus")
         (setBodyOverflow "" (setDoc (update modal (setHidden true) (doc w)) w))).
Proof.
  split.
  - intros Hm. unfold closeDecisionTree, mbind, M_bind, getWorld, deref.
    by rewrite Hm.
  - intros modal Hm Ho.
    unfold closeDecisionTree, mbind, M_bind, getWorld, lift, deref.
    rewrite Hm. simpl. rewrite getElementById_update by done. by rewrite Ho.
Qed.

Lemma closeDecisionTree_missing_node_witness :
  closeDecisionTree Page.worldGlossary = Throw (TypeError "modal.hidden") Page.worldGlossary.
Proof.
  exact (proj1 (closeDecisionTree_missing_node Page.worldGlossary) eq_refl).
Defined.

(** ** Filtering the glossary *)

Lemma string_app_assoc (a b c : string) : (a +:+ b) +:+ c = a +:+ (b +:+ c).
Proof.
  induction a as [|x a IH]; [done|].
  change (String x ((a +:+ b) +:+ c) = String x (a +:+ b +:+ c)). by rewrite IH.
Qed.

Lemma includes_trans (s t u : string) :
  Js.includes s t = true -> Js.includes t u = true -> Js.includes s u = true.
Proof.
  rewrite !includes_spec. intros (a & b & ->) (c & d & ->).
  exists (a +:+ c), (d +:+ b). by rewrite !string_app_assoc.
Qed.

Lemma includes_empty (u : string) : Js.includes "" u = true -> u = "".
Proof. by destruct u. Qed.

Lemma searchableText_setHidden (h : bool) (e : Element) :
  searchableText (setHidden h e) = searchableText e.
Proof. done. Qed.

(** X11: the filter keeps no memory of earlier queries: filtering by one
    query and then by another gives the very world that the second query
    gives on its own. *)
Theorem filterGlossary_last_query_wins (q1 q2 : string) (w : World) :
  filterGlossary q2 (filterGlossary q1 w) = filterGlossary q2 w.
Proof.
  apply world_eq; try done.
  unfold filterGlossary, forEachMatch. simpl. rewrite map_map.
  apply map_ext. intros e. unfold byClass, contains.
  destruct (bool_decide ("glossary-item" ∈ classList e)) eqn:E; simpl; by rewrite ?E.
Qed.

(** X12: a longer query never brings an entry back.  When the normalised
    form of one query occurs in the normalised form of another, every
    glossary entry that the first query hides is hidden by the second too. *)
Theorem filterGlossary_refines (q1 q2 : string) (w : World) (i : nat) (item : Element) :
  doc w !! i = Some item -> byClass "glossary-item" item = true ->
  Js.includes (Js.trim (Js.toLowerCase q2)) (Js.trim (Js.toLowerCase q1)) = true ->
  hidden <$> doc (filterGlossary q1 w) !! i = Some true ->
  hidden <$> doc (filterGlossary q2 w) !! i = Some true.
Proof.
  intros Hi Hc Hinc.
  rewrite !(filterGlossary_hidden _ w i item Hi Hc).
  intros [= [Hne Hmiss]%andb_true_iff]. f_equal. apply andb_true_iff. split.
  - apply negb_true_iff, String.eqb_neq. intros Heq. rewrite Heq in Hinc.
    apply includes_empty in Hinc. rewrite Hinc in Hne. by simpl in Hne.
  - apply negb_true_iff. apply negb_true_iff in Hmiss.
    destruct (Js.includes (searchableText item) (Js.trim (Js.toLowerCase q2))) eqn:E;
      [|done].
    by rewrite (includes_trans _ _ _ E Hinc) in Hmiss.
Qed.

(** On the page: the query zoning hides the first entry (tagged fsr), and
    so does the longer query rezoning. *)
Lemma filterGlossary_refines_witness :
  hidden <$> doc (filterGlossary " Rezoning " Page.world0) !! 23 = Some true.
Proof.
  apply (filterGlossary_refines "zoning" " Rezoning " Page.world0 23
           (Page.node "dt" "" ["glossary-item"] [("data-term", "fsr")] false
              "FSR Floor space ratio" None));
    vm_compute; reflexivity.
Defined.

(** ** Search: no match, and a match without a heading *)

Lemma findMatches_none (term : string) (w : World) :
  (forall i e, doc w !! i = Some e -> byClass "timeline-card" e = true ->
               textMatches term e = false) ->
  (forall i e, doc w !! i = Some e -> byClass "detail-panel" e = true ->
               textMatches term e = false) ->
  findMatches term w = Return [] w.
Proof.
  intros Hcards Hpanels. unfold findMatches, mbind, M_bind, getWorld.
  rewrite collectMatches_miss.
  - apply collectMatches_miss.
    intros i (e & He & Hc)%elem_of_querySelectorAll.
    eapply detailMatch_miss; [done|]. by eapply Hpanels.
  - intros i (e & He & Hc)%elem_of_querySelectorAll.
    eapply timelineMatch_miss; [done|]. by eapply Hcards.
Qed.

(** X13: a query (not blank) that occurs in no timeline card and in no
    detail panel.  [performSearch] completes; the tree is the old one with
    one warning notification appended, so every element keeps its handle,
    its markers and its visibility; the state is unchanged; the only new
    effect is the timer that dismisses the notification: no alert, no
    scroll, no click, and the markers of an earlier search are not
    cleared. *)
Theorem performSearch_no_match
    (engine : string -> Document -> option (option nat))
    (click : nat -> World -> World) (q : string) (w : World) :
  Js.truthy (Js.trim (Js.toLowerCase q)) = true ->
  (forall i e, doc w !! i = Some e -> byClass "timeline-card" e = true ->
               textMatches (Js.trim (Js.toLowerCase q)) e = false) ->
  (forall i e, doc w !! i = Some e -> byClass "detail-panel" e = true ->
               textMatches (Js.trim (Js.toLowerCase q)) e = false) ->
  exists w' n,
    performSearch engine click q w = Return tt w' /\
    doc w' = doc w ++ [n] /\
    textContent n = notFoundMessage (Js.trim (Js.toLowerCase q)) /\
    classList n = ["notification"; "notification-warning"] /\
    state w' = state w /\
    localStorage w' = localStorage w /\
    trace w' = trace w ++ [SetTimeout (DismissNotification (length (doc w))) 5000].
Proof.
  intros Hq Hcards Hpanels. unfold performSearch.
  set (term := Js.trim (Js.toLowerCase q)) in *.
  assert (String.eqb term "" = false) as -> by by destruct term.
  unfold mbind, M_bind. rewrite (findMatches_none term w Hcards Hpanels).
  cbv beta iota. unfold lift, showNotification. by eexists _, _.
Qed.

Lemma performSearch_no_match_witness :
  exists w' n,
    performSearch Samples.engine Samples.click "parking" Page.world0 = Return tt w' /\
    doc w' = doc Page.world0 ++ [n] /\
    state w' = state Page.world0.
Proof.
  destruct (performSearch_no_match Samples.engine Samples.click "parking" Page.world0)
    as (w' & n & E & Hd & _ & _ & Hs & _).
  - reflexivity.
  - intros i e He Hc.
    pose proof (forall_lookup_check (doc Page.world0)
      (fun _ e => implb (byClass "timeline-card" e)
                    (negb (textMatches (Js.trim (Js.toLowerCase "parking")) e)))
      ltac:(vm_compute; reflexivity) i e He) as H.
    simpl in H. rewrite Hc in H. simpl in H. by apply negb_true_iff in H.
  - intros i e He Hc.
    pose proof (forall_lookup_check (doc Page.world0)
      (fun _ e => implb (byClass "detail-panel" e)
                    (negb (textMatches (Js.trim (Js.toLowerCase "parking")) e)))
      ltac:(vm_compute; reflexivity) i e He) as H.
    simpl in H. rewrite Hc in H. simpl in H. by apply negb_true_iff in H.
  - by exists w', n.
Defined.

Lemma timelineMatch_pure (term : string) (w : World) : pureAt (timelineMatch term) w.
Proof.
  intros i. unfold timelineMatch, elementAt, mbind, M_bind, getWorld, deref.
  destruct (doc w !! i) as [c|]; simpl; [|right; eauto].
  destruct (Js.includes _ term); [|left; eauto].
  destruct (querySelectorIn _ _ _) as [h|]; simpl; [|right; eauto].
  destruct (doc w !! h); simpl; [left | right]; eauto.
Qed.

Lemma detailMatch_pure (term : string) (w : World) : pureAt (detailMatch term) w.
Proof.
  intros i. unfold detailMatch, elementAt, mbind, M_bind, getWorld, deref.
  destruct (doc w !! i) as [c|]; simpl; [|right; eauto].
  destruct (Js.includes _ term); [|left; eauto].
  destruct (querySelectorIn _ _ _) as [h|]; simpl; [|right; eauto].
  destruct (doc w !! h); simpl; [left | right]; eauto.
Qed.

Lemma collectMatches_pure (l : list nat) (body : nat -> M (option Match))
    (matches : list Match) (w : World) :
  pureAt body w ->
  (exists ms, collectMatches l body matches w = Return ms w) \/
  (exists what, collectMatches l body matches w = Throw (TypeError what) w).
Proof.
  intros Hp. revert matches. induction l as [|x l IH]; intros matches; simpl.
  - left. by eexists.
  - unfold mbind, M_bind. destruct (Hp x) as [[r ->] | [what ->]]; [apply IH|].
    right. eauto.
Qed.

Lemma collectMatches_throws (l : list nat) (body : nat -> M (option Match))
    (matches : list Match) (w : World) (i : nat) (what : string) :
  pureAt body w -> i ∈ l -> body i w = Throw (TypeError what) w ->
  exists what', collectMatches l body matches w = Throw (TypeError what') w.
Proof.
  intros Hp Hin Hi. revert matches. induction l as [|x l IH]; intros matches.
  - by apply elem_of_nil in Hin.
  - simpl. unfold mbind, M_bind. apply elem_of_cons in Hin as [<-|Hin].
    + rewrite Hi. eauto.
    + destruct (Hp x) as [[r ->] | [what' ->]]; [by apply IH | eauto].
Qed.

(** X14: when the query occurs in a timeline card that has no [h4], or in
    a detail panel that has no [h3], [performSearch] throws a TypeError
    while it collects the matches, and the world is left as it was: no
    marker, no opened panel, no scroll, no notification, whatever else
    matches, whatever the selector parser and the click listeners. *)
Theorem performSearch_missing_heading
    (engine : string -> Document -> option (option nat))
    (click : nat -> World -> World)
    (q : string) (w : World) (i : nat) (e : Element) :
  Js.truthy (Js.trim (Js.toLowerCase q)) = true ->
  doc w !! i = Some e ->
  textMatches (Js.trim (Js.toLowerCase q)) e = true ->
  (byClass "timeline-card" e = true /\ querySelectorIn i (byTag "h4") (doc w) = None) \/
  (byClass "detail-panel" e = true /\ querySelectorIn i (byTag "h3") (doc w) = None) ->
  exists what, performSearch engine click q w = Throw (TypeError what) w.
Proof.
  intros Hq He Hm Hcase. unfold performSearch.
  set (term := Js.trim (Js.toLowerCase q)) in *.
  assert (String.eqb term "" = false) as -> by by destruct term.
  unfold mbind, M_bind, findMatches, getWorld. unfold mbind, M_bind.
  destruct Hcase as [[Hc Hh] | [Hc Hh]].
  - destruct (collectMatches_throws
                (querySelectorAll (byClass "timeline-card") (doc w))
                (timelineMatch term) [] w i "card.querySelector('h4').textContent")
      as [what ->]; eauto.
    + apply timelineMatch_pure.
    + apply elem_of_querySelectorAll. eauto.
    + unfold timelineMatch, elementAt, mbind, M_bind, getWorld, deref.
      rewrite He. simpl. unfold textMatches in Hm. by rewrite Hm, Hh.
  - destruct (collectMatches_pure
                (querySelectorAll (byClass "timeline-card") (doc w))
                (timelineMatch term) [] w (timelineMatch_pure term w))
      as [[ms ->] | [what ->]]; [|eauto].
    destruct (collectMatches_throws
                (querySelectorAll (byClass "detail-panel") (doc w))
                (detailMatch term) ms w i "panel.querySelector('h3').textContent")
      as [what ->]; eauto.
    + apply detailMatch_pure.
    + apply elem_of_querySelectorAll. eauto.
    + unfold detailMatch, elementAt, mbind, M_bind, getWorld, deref.
      rewrite He. simpl. unfold textMatches in Hm. by rewrite Hm, Hh.
Qed.

Lemma performSearch_missing_heading_witness :
  exists what,
    performSearch Samples.engine Samples.click "density" Samples.headlessWorld =
      Throw (TypeError what) Samples.headlessWorld.
Proof.
  apply (performSearch_missing_heading Samples.engine Samples.click
           "density" Samples.headlessWorld 0
           (Page.node "div" "detail-3" ["detail-panel"] [] true "Density bonus" None));
    [reflexivity | reflexivity | vm_compute; reflexivity |].
  right. split; vm_compute; reflexivity.
Defined.

(** ** Search: the markers *)

Lemma sameClasses_refl (d : Document) : sameClasses d d.
Proof. split; eauto. Qed.

Lemma sameClasses_trans (d1 d2 d3 : Document) :
  sameClasses d1 d2 -> sameClasses d2 d3 -> sameClasses d1 d3.
Proof.
  intros [Hl1 H1] [Hl2 H2]. split; [congruence|].
  intros i e He. destruct (H1 i e He) as (e2 & He2 & Hc2 & Hi2).
  destruct (H2 i e2 He2) as (e3 & He3 & Hc3 & Hi3). exists e3.
  split; [done | split; congruence].
Qed.

Lemma sameClasses_update (i : nat) (f : Element -> Element) (d : Document) :
  (forall e, classList (f e) = classList e) ->
  (forall e, elementId (f e) = elementId e) ->
  sameClasses d (update i f d).
Proof.
  intros Hf Hg. split; [apply length_update|].
  intros j e He. rewrite lookup_update, He. simpl. eexists. split; [done|].
  by case_decide.
Qed.

Lemma toggleDetailPanel_classes (panelId : string) (button : nat) (w : World) :
  sameClasses (doc w) (doc (worldOf (toggleDetailPanel panelId button w))).
Proof.
  unfold toggleDetailPanel.
  destruct (doc w !! button) as [b|]; [|apply sameClasses_refl].
  destruct (getElementById panelId (doc w)) as [p|]; [|apply sameClasses_refl].
  destruct (bool_decide _); simpl;
    (eapply sameClasses_trans; [|by apply sameClasses_update]);
    by apply sameClasses_update.
Qed.

(** The listener of [initializeTimeline] changes no class list and no
    id. *)
Lemma expandListener_classes (button : nat) (w : World) :
  sameClasses (doc w) (doc (listenerTurn (expandListener button) w)).
Proof.
  unfold listenerTurn, expandListener.
  destruct (doc w !! button) as [b|]; [|apply sameClasses_refl].
  pose proof (toggleDetailPanel_classes
                (default "null" (getAttribute "aria-controls" b)) button w) as H.
  by destruct (toggleDetailPanel _ button w).
Qed.

Section Markers.

Variable engine : string -> Document -> option (option nat).
Variable click : nat -> World -> World.

(** The clicks of the page change no class list and no id. *)
Hypothesis click_classes : forall b w, sameClasses (doc w) (doc (click b w)).

(** One match: the call completes and marks the element of the match, and
    no other class of any element changes. *)
Lemma highlightMatch_marks (m : Match) (el : nat) (e : Element) (w : World) :
  element m = Some el -> doc w !! el = Some e ->
  (mtype m = Detail -> classify (elementId e) = PlainValue) ->
  exists w',
    highlightMatch engine click m w = Return tt w' /\
    sameClasses (update el (classAdd "search-highlight") (doc w)) (doc w').
Proof.
  intros Hel He Hpl.
  unfold highlightMatch, elementAt, mbind, M_bind, getWorld, lift, deref.
  unfold querySelectorWith, selectWith.
  rewrite Hel. simpl.
  destruct (mtype m); [eexists; split; [done|apply sameClasses_refl]|].
  set (d2 := update el (classAdd "search-highlight") (doc w)).
  assert (d2 !! el = Some (classAdd "search-highlight" e)) as He2.
  { unfold d2. rewrite lookup_update, He. simpl. by rewrite decide_True. }
  cbn [doc setDoc]. rewrite He2. unfold mret, M_ret. cbn [doc setDoc].
  assert (elementId (classAdd "search-highlight" e) = elementId e) as ->
    by (unfold classAdd; by destruct (contains _ e)).
  rewrite Hpl by done.
  destruct (querySelector _ d2) as [b|] eqn:Hq;
    [|eexists; split; [done|apply sameClasses_refl]].
  apply querySelector_Some in Hq as (be & Hbe & _).
  cbn [doc setDoc]. rewrite Hbe.
  destruct (bool_decide _); eexists; (split; [done|]).
  - apply (click_classes b (setDoc d2 w)).
  - apply sameClasses_refl.
Qed.

Lemma forEach_highlightMatch (matches : list Match) (w : World) :
  (forall m, m ∈ matches ->
     exists el e, element m = Some el /\ doc w !! el = Some e /\
       (mtype m = Detail -> classify (elementId e) = PlainValue)) ->
  exists w',
    forEach matches (highlightMatch engine click) w = Return tt w' /\
    length (doc w') = length (doc w) /\
    forall i e, doc w !! i = Some e ->
      exists e', doc w' !! i = Some e' /\
        (contains "search-highlight" e' = true <->
         contains "search-highlight" e = true \/
         exists m, m ∈ matches /\ element m = Some i).
Proof.
  revert w. induction matches as [|m ms IH]; intros w Hall.
  - exists w. split; [done|]. split; [done|]. intros i e He. exists e. split; [done|].
    split; [by left|]. intros [H | (m & Hm & _)]; [done|]. by apply elem_of_nil in Hm.
  - destruct (Hall m) as (el & x & Hel & Hx & Hpl); [apply elem_of_cons; by left|].
    destruct (highlightMatch_marks m el x w Hel Hx Hpl) as (w1 & E1 & Hl1 & H1).
    rewrite length_update in Hl1.
    destruct (IH w1) as (w' & E' & Hl' & H').
    { intros m' Hm'.
      destruct (Hall m') as (el' & x' & ? & Hx' & Hpl'); [apply elem_of_cons; by right|].
      destruct (H1 el' ((if decide (el = el') then classAdd "search-highlight"
                         else fun y => y) x'))
        as (x1 & Hx1 & _ & Hid); [by rewrite lookup_update, Hx'|].
      exists el', x1. split; [done|]. split; [done|].
      rewrite Hid. by destruct (decide (el = el')); unfold classAdd;
        try destruct (contains _ x'). }
    exists w'. simpl. unfold mbind, M_bind. rewrite E1.
    split; [exact E'|]. split; [congruence|].
    intros i e He.
    destruct (H1 i ((if decide (el = i) then classAdd "search-highlight" else fun x => x) e))
      as (e1 & He1 & Hc1 & _); [by rewrite lookup_update, He|].
    destruct (H' i e1 He1) as (e' & He' & Hc'). exists e'. split; [done|].
    assert (contains "search-highlight" e1 =
            contains "search-highlight"
              ((if decide (el = i) then classAdd "search-highlight" else fun x => x) e))
      as Hc by (unfold contains; by rewrite Hc1).
    rewrite Hc', Hc. clear Hc Hc1 He1.
    destruct (decide (el = i)) as [->|Hne].
    + rewrite contains_classAdd, String.eqb_refl, orb_true_r. split; [|by left].
      intros _. right. exists m. split; [apply elem_of_cons; by left | done].
    + split.
      * intros [Hc | (m' & Hm' & Hel')]; [by left|].
        right. exists m'. split; [apply elem_of_cons; by right | done].
      * intros [Hc | (m' & Hm' & Hel')]; [by left|].
        apply elem_of_cons in Hm' as [-> | Hm'].
        -- congruence.
        -- right. eauto.
Qed.


End Markers.


(** ** Saving and loading the state *)

Lemma assign_asParsed (s s' : State) : assign s' (asParsed s) = s.
Proof. by destruct s. Qed.

(** X16: a saved state comes back.  When the storage is available, the
    blob fits the quota, is not empty, and parses to the fields it was made
    from, [saveState] followed by [loadState] restores the saved state,
    whatever the state has become in between; neither call logs a warning
    or touches the tree. *)
Theorem save_then_load_restores (JSON_stringify : State -> string)
    (JSON_parse : string -> option Parsed) (w : World) (later : State) :
  accessDenied (localStorage w) = false ->
  String.length (JSON_stringify (state w)) <= quota (localStorage w) ->
  Js.truthy (JSON_stringify (state w)) = true ->
  JSON_parse (JSON_stringify (state w)) = Some (asParsed (state w)) ->
  exists w1 w2,
    saveState JSON_stringify w = Return tt w1 /\
    items (localStorage w1) !! "rezoningGuideState" = Some (JSON_stringify (state w)) /\
    loadState JSON_parse (setState later w1) = Return tt w2 /\
    state w2 = state w /\
    doc w2 = doc w /\
    trace w2 = trace w.
Proof.
  intros Hd Hq Ht Hp.
  rewrite saveState_cases. cbv zeta. rewrite Hd.
  assert ((quota (localStorage w) <? String.length (JSON_stringify (state w)))%nat = false)
    as -> by (apply Nat.ltb_ge; lia).
  eexists _, _. split; [reflexivity|].
  split; [simpl; by rewrite lookup_insert_eq|].
  rewrite loadState_cases. simpl. rewrite lookup_insert_eq. simpl.
  rewrite Ht, Hp. split; [reflexivity|]. simpl.
  by rewrite assign_asParsed.
Qed.

Lemma save_then_load_restores_witness :
  exists w1 w2,
    saveState (fun _ => "blob") Page.world0 = Return tt w1 /\
    loadState (fun _ => Some (asParsed initialState))
      (setState (mkState "developer" ["detail-1"] (Js.Int 2) true) w1) = Return tt w2 /\
    state w2 = initialState.
Proof.
  destruct (save_then_load_restores (fun _ => "blob")
              (fun _ => Some (asParsed initialState)) Page.world0
              (mkState "developer" ["detail-1"] (Js.Int 2) true))
    as (w1 & w2 & E1 & _ & E2 & Hs & _); try reflexivity.
  - vm_compute. lia.
  - by exists w1, w2.
Defined.

(** ** The panels and the state stay in agreement *)

Lemma mem_push (P P0 : string) (l : list string) :
  bool_decide (P ∈ l ++ [P0]) = bool_decide (P ∈ l) || bool_decide (P = P0).
Proof.
  apply eq_true_iff_eq.
  rewrite orb_true_iff, !bool_decide_eq_true, elem_of_app, list_elem_of_singleton.
  done.
Qed.

Lemma mem_remove (P P0 : string) (l : list string) :
  bool_decide (P ∈ List.filter (fun id => negb (String.eqb id P0)) l) =
  bool_decide (P ∈ l) && negb (bool_decide (P = P0)).
Proof.
  apply eq_true_iff_eq.
  rewrite andb_true_iff, negb_true_iff, !bool_decide_eq_true, bool_decide_eq_false.
  rewrite !list_elem_of_In, filter_In, negb_true_iff, String.eqb_neq. done.
Qed.

Lemma byAttr_setAttribute_ne (name v k u : string) (e : Element) :
  k <> name -> byAttr name v (setAttribute k u e) = byAttr name v e.
Proof.
  intros Hk. unfold byAttr, getAttribute, setAttribute. simpl.
  by rewrite lookup_insert_ne.
Qed.

Lemma toggled_lookup (panel button : nat) (x : bool) (d : Document) (i : nat) :
  toggled panel button x d !! i =
  (fun e => (if decide (button = i)
             then setAttribute "aria-expanded" (Js.boolToString (negb x))
             else fun e => e)
              ((if decide (panel = i) then setHidden x else fun e => e) e)) <$> d !! i.
Proof. unfold toggled. rewrite !lookup_update. by destruct (d !! i). Qed.

Lemma toggled_controls (panel button : nat) (x : bool) (d : Document) (P : string) :
  querySelector (byAttr "aria-controls" P) (toggled panel button x d) =
  querySelector (byAttr "aria-controls" P) d.
Proof.
  unfold toggled. rewrite !querySelector_update; try done.
  intros e. by apply byAttr_setAttribute_ne.
Qed.

Lemma toggled_ids (panel button : nat) (x : bool) (d : Document) (P : string) :
  getElementById P (toggled panel button x d) = getElementById P d.
Proof. unfold toggled. by rewrite !getElementById_update. Qed.

(** X17: the click listener of [initializeTimeline] keeps the panels and
    the state in agreement.  From a world where they agree, a turn of the
    listener on a node that carries it leads to a world where they agree
    again. *)
Theorem click_keeps_sync (button : nat) (bj : Element) (w : World) :
  InSync w -> doc w !! button = Some bj -> expandWired bj = true ->
  InSync (listenerTurn (expandListener button) w).
Proof.
  intros [Hnd Htr] Hj Hw. unfold listenerTurn, expandListener. rewrite Hj.
  destruct (Htr button bj Hj Hw) as (P0 & p0 & e0 & Hc0 & Hq0 & Hg0 & He0 & Ha0 & Hh0).
  rewrite Hc0. simpl.
  destruct (toggleDetailPanel_returns P0 button p0 bj w Hg0 Hj) as [tr E].
  rewrite E. clear E.
  set (l := expandedPanels (state w)) in *.
  assert (bool_decide (getAttribute "aria-expanded" bj = Some "true") =
          bool_decide (P0 ∈ l)) as Hx
    by (rewrite Ha0; by destruct (bool_decide (P0 ∈ l))).
  rewrite Hx. set (x := bool_decide (P0 ∈ l)) in *.
  fold (toggled p0 button x (doc w)).
  set (l' := if x then List.filter (fun id => negb (String.eqb id P0)) l
             else l ++ [P0]).
  assert (forall P, bool_decide (P ∈ l') =
                    if bool_decide (P = P0) then negb x else bool_decide (P ∈ l)) as Hmem.
  { intros P. unfold l'.
    destruct x; [rewrite mem_remove | rewrite mem_push];
      by destruct (bool_decide (P = P0)), (bool_decide (P ∈ l)). }
  split; simpl.
  - fold l l'. unfold l'. destruct x eqn:Ex.
    + by apply NoDup_ListNoDup, List.NoDup_filter, NoDup_ListNoDup.
    + apply NoDup_app. split; [done|]. split; [|apply NoDup_singleton].
      intros P HP ->%list_elem_of_singleton.
      unfold x in Ex. by apply bool_decide_eq_false in Ex.
  - fold l l'. intros i b'. rewrite toggled_lookup.
    destruct (doc w !! i) as [b|] eqn:Hi; [|done]. simpl. intros [= <-] Hwi.
    assert (expandWired b = true) as Hwb by (by repeat case_decide).
    destruct (Htr i b Hi Hwb) as (P & p & e & Hc & Hq & Hg & He & Ha & Hh).
    exists P, p. eexists.
    rewrite toggled_controls, toggled_ids, toggled_lookup, He, Hmem. simpl.
    split; [|split; [done|split; [done|split; [done|]]]].
    { unfold getAttribute in *. repeat case_decide; simpl; rewrite ?lookup_insert_ne; done. }
    destruct (decide (button = i)) as [->|Hne].
    + rewrite Hj in Hi. injection Hi as <-.
      rewrite Hc0 in Hc. injection Hc as <-.
      rewrite Hg0 in Hg. injection Hg as <-.
      rewrite bool_decide_eq_true_2 by done.
      rewrite (decide_True (P := p0 = p0)) by done.
      split.
      * unfold getAttribute. simpl. by rewrite lookup_insert_eq.
      * rewrite negb_involutive. by destruct (decide (i = p0)).
    + assert (P <> P0) as HP by (intros ->; congruence).
      rewrite bool_decide_eq_false_2 by done.
      assert (p0 <> p) as Hp.
      { intros ->. apply getElementById_Some in Hg as (y & Hy & Hid).
        apply getElementById_Some in Hg0 as (y0 & Hy0 & Hid0). congruence. }
      rewrite (decide_False (P := p0 = p)) by done.
      split.
      * rewrite <- Ha. by destruct (decide (p0 = i)).
      * rewrite <- Hh. by destruct (decide (button = p)).
Qed.

Lemma settled_refl (e : Element) : settled e e.
Proof. unfold settled. tauto. Qed.

Lemma settled_trans (e1 e2 e3 : Element) :
  settled e1 e2 -> settled e2 e3 -> settled e1 e3.
Proof.
  intros ((Ht1 & Ho1 & Hx1' & Hp1) & Hi1 & Hc1 & Hw1 & Ha1 & Hx1 & Hh1)
         ((Ht2 & Ho2 & Hx2' & Hp2) & Hi2 & Hc2 & Hw2 & Ha2 & Hx2 & Hh2).
  unfold settled. repeat split; try congruence.
  - intros k Hk. by rewrite Ha2, Ha1.
  - destruct Hx2 as [-> | ->]; [exact Hx1 | by right].
  - destruct Hh2 as [-> | ->]; [exact Hh1 | by right].
Qed.

Lemma settled_setHidden (e : Element) : settled e (setHidden true e).
Proof. unfold settled. simpl. tauto. Qed.

Lemma settled_setExpanded (e : Element) :
  settled e (setAttribute "aria-expanded" "false" e).
Proof.
  unfold settled, getAttribute. simpl. repeat split; try tauto.
  - intros k Hk. by rewrite lookup_insert_ne.
  - right. by rewrite lookup_insert_eq.
Qed.

Lemma collapsePanel_settled (d : Document) (P : string) (i : nat) (e : Element) :
  d !! i = Some e ->
  exists e', collapsePlain d P !! i = Some e' /\ settled e e'.
Proof.
  intros He. unfold collapsePlain.
  destruct (getElementById P d) as [p|]; destruct (querySelector _ d) as [b|];
    rewrite ?lookup_update, He; simpl; eexists; (split; [done|]);
    repeat case_decide;
    eauto using settled_refl, settled_setHidden, settled_setExpanded, settled_trans.
Qed.

Lemma collapse_settled (ids : list string) (d : Document) (i : nat) (e : Element) :
  d !! i = Some e ->
  exists e', foldl collapsePlain d ids !! i = Some e' /\ settled e e'.
Proof.
  revert d e. induction ids as [|x ids IH]; intros d e He; simpl.
  - exists e. split; [done | apply settled_refl].
  - destruct (collapsePanel_settled d x i e He) as (e1 & He1 & Hs1).
    destruct (IH _ _ He1) as (e' & He' & Hs'). exists e'. split; [done|].
    by eapply settled_trans.
Qed.

Lemma settled_selectors (d d' : Document) :
  length d' = length d ->
  (forall i e, d !! i = Some e -> exists e', d' !! i = Some e' /\ settled e e') ->
  (forall x, getElementById x d' = getElementById x d) /\
  (forall P, querySelector (byAttr "aria-controls" P) d' =
             querySelector (byAttr "aria-controls" P) d).
Proof.
  intros Hl H. split.
  - intros x. unfold getElementById. destruct (Js.truthy x); [|done].
    apply querySelector_ext; [done|]. intros i e' e He' He.
    destruct (H i e He) as (y & Hy & (_ & Hid & _)). rewrite Hy in He'.
    injection He' as <-. by rewrite Hid.
  - intros P. apply querySelector_ext; [done|]. intros i e' e He' He.
    destruct (H i e He) as (y & Hy & (_ & _ & _ & _ & Ha & _)). rewrite Hy in He'.
    injection He' as <-. unfold byAttr, getAttribute. by rewrite Ha.
Qed.

Lemma collapsePanel_selectors (d : Document) (P : string) :
  (forall x, getElementById x (collapsePlain d P) = getElementById x d) /\
  (forall Q, querySelector (byAttr "aria-controls" Q) (collapsePlain d P) =
             querySelector (byAttr "aria-controls" Q) d).
Proof.
  apply settled_selectors; [apply length_collapsePanel|].
  intros i e. apply collapsePanel_settled.
Qed.

Lemma collapsePanel_hit (d : Document) (P : string) :
  (forall p, getElementById P d = Some p ->
     hidden <$> collapsePlain d P !! p = Some true) /\
  (forall b, querySelector (byAttr "aria-controls" P) d = Some b ->
     getAttribute "aria-expanded" <$> collapsePlain d P !! b = Some (Some "false")).
Proof.
  split.
  - intros p Hp. unfold collapsePlain. rewrite Hp.
    apply getElementById_Some in Hp as (e & He & _).
    destruct (querySelector _ d) as [b|]; rewrite ?lookup_update, He; simpl;
      rewrite ?(decide_True (P := p = p)) by done; [by case_decide | done].
  - intros b Hb. unfold collapsePlain. rewrite Hb.
    apply querySelector_Some in Hb as (e & He & _).
    destruct (getElementById P d) as [p|]; rewrite ?lookup_update, He; simpl;
      rewrite (decide_True (P := b = b)) by done;
      unfold getAttribute, setAttribute; simpl; by rewrite lookup_insert_eq.
Qed.

Lemma collapse_hit (ids : list string) (d : Document) (P : string) :
  P ∈ ids ->
  (forall p, getElementById P d = Some p ->
     hidden <$> foldl collapsePlain d ids !! p = Some true) /\
  (forall b, querySelector (byAttr "aria-controls" P) d = Some b ->
     getAttribute "aria-expanded" <$> foldl collapsePlain d ids !! b = Some (Some "false")).
Proof.
  revert d. induction ids as [|x ids IH]; intros d Hin; [by apply elem_of_nil in Hin|].
  simpl. destruct (collapsePanel_selectors d x) as [Hids Hctl].
  apply elem_of_cons in Hin as [->|Hin].
  - destruct (collapsePanel_hit d x) as [Hp Hb]. split.
    + intros p Hg. specialize (Hp p Hg).
      destruct (collapsePlain d x !! p) as [e1|] eqn:He1; [|done].
      destruct (collapse_settled ids _ p e1 He1) as (e' & -> & (_ & _ & _ & _ & _ & _ & Hh)).
      simpl in *. injection Hp as Hp. f_equal. destruct Hh; congruence.
    + intros b Hq. specialize (Hb b Hq).
      destruct (collapsePlain d x !! b) as [e1|] eqn:He1; [|done].
      destruct (collapse_settled ids _ b e1 He1) as (e' & -> & (_ & _ & _ & _ & _ & Hx & _)).
      simpl in *. injection Hb as Hb. f_equal. destruct Hx; congruence.
  - destruct (IH (collapsePlain d x) Hin) as [Hp Hb]. split.
    + intros p Hg. apply Hp. by rewrite Hids.
    + intros b Hq. apply Hb. by rewrite Hctl.
Qed.

Lemma collapseAllPlain_hides_listed (w : World) :
  expandedPanels (state (collapseAllPlain w)) = [] /\
  length (doc (collapseAllPlain w)) = length (doc w) /\
  (forall P p, P ∈ expandedPanels (state w) -> getElementById P (doc w) = Some p ->
     hidden <$> doc (collapseAllPlain w) !! p = Some true) /\
  (forall P b, P ∈ expandedPanels (state w) ->
     querySelector (byAttr "aria-controls" P) (doc w) = Some b ->
     getAttribute "aria-expanded" <$> doc (collapseAllPlain w) !! b =
       Some (Some "false")) /\
  (forall i e, doc w !! i = Some e ->
     exists e', doc (collapseAllPlain w) !! i = Some e' /\ settled e e').
Proof.
  unfold collapseAllPlain. simpl.
  split; [done|]. split; [apply length_collapse|].
  split; [|split].
  - intros P p Hin. by apply collapse_hit.
  - intros P b Hin. by apply collapse_hit.
  - intros i e. apply collapse_settled.
Qed.

(** X18: what [collapseAllPanels] does to the tree when every id of
    [expandedPanels] is plain in a selector.  The call completes.  Every
    id of the list that names an element leaves that element hidden, and
    the first control that refers to the id says collapsed; no element is
    shown and no attribute is set to expanded; nothing else changes in any
    element (tag, id, classes, listener, other attributes); and the list is
    empty afterwards. *)
Theorem collapseAllPanels_hides_listed
    (engine : string -> Document -> option (option nat)) (w : World) :
  allPlain (expandedPanels (state w)) ->
  exists w',
    collapseAllPanels engine w = Return tt w' /\
    expandedPanels (state w') = [] /\
    length (doc w') = length (doc w) /\
    (forall P p, P ∈ expandedPanels (state w) -> getElementById P (doc w) = Some p ->
       hidden <$> doc w' !! p = Some true) /\
    (forall P b, P ∈ expandedPanels (state w) ->
       querySelector (byAttr "aria-controls" P) (doc w) = Some b ->
       getAttribute "aria-expanded" <$> doc w' !! b = Some (Some "false")) /\
    (forall i e, doc w !! i = Some e ->
       exists e', doc w' !! i = Some e' /\ settled e e').
Proof.
  intros Hpl. exists (collapseAllPlain w).
  split; [by apply collapseAllPanels_plain|]. apply collapseAllPlain_hides_listed.
Qed.

Lemma collapseAllPlain_keeps_sync (w : World) :
  InSync w ->
  InSync (collapseAllPlain w) /\
  forall i b, doc (collapseAllPlain w) !! i = Some b -> expandWired b = true ->
    getAttribute "aria-expanded" b = Some "false".
Proof.
  intros [Hnd Htr].
  assert (InSync (collapseAllPlain w)) as Hsync.
  { unfold collapseAllPlain. split; simpl; [constructor|].
    set (l := expandedPanels (state w)) in *.
    set (d' := foldl collapsePlain (doc w) l).
    assert (length d' = length (doc w)) as Hl by apply length_collapse.
    destruct (settled_selectors (doc w) d' Hl) as [Hids Hctl];
      [intros i e; apply collapse_settled|].
    intros i b' Hb' Hw'.
    assert (i < length (doc w)) as Hlt by (rewrite <- Hl; by eapply lookup_lt_Some).
    destruct (lookup_lt_is_Some_2 _ _ Hlt) as [b Hb].
    destruct (collapse_settled l (doc w) i b Hb) as (y & Hy & Hs).
    fold d' in Hy. rewrite Hy in Hb'. injection Hb' as ->.
    destruct Hs as (_ & _ & _ & Hwb & Hab & Hxb & _).
    destruct (Htr i b Hb) as (P & p & e & Hc & Hq & Hg & He & Ha & Hh); [congruence|].
    destruct (collapse_settled l (doc w) p e He) as (e' & He' & Hs).
    fold d' in He'. destruct Hs as (_ & _ & _ & _ & _ & _ & Hhe).
    exists P, p, e'. rewrite Hctl, Hids.
    split; [unfold getAttribute in *; by rewrite Hab|].
    split; [done|]. split; [done|]. split; [done|].
    destruct (decide (P ∈ l)) as [Hin|Hout].
    - destruct (collapse_hit l (doc w) P Hin) as [Hp Hbt].
      specialize (Hp p Hg). specialize (Hbt i Hq). fold d' in Hp, Hbt.
      rewrite He' in Hp. rewrite Hy in Hbt. simpl in *. split; congruence.
    - rewrite (bool_decide_eq_false_2 (P ∈ l)) in Ha, Hh by done. simpl in *.
      split; [destruct Hxb; congruence | destruct Hhe; congruence]. }
  split; [exact Hsync|].
  intros i b Hb Hw. destruct Hsync as [_ H].
  destruct (H i b Hb Hw) as (P & _ & _ & _ & _ & _ & _ & Ha & _).
  by rewrite Ha.
Qed.

(** X19: [collapseAllPanels] keeps the panels and the state in
    agreement when every id of [expandedPanels] is plain in a selector: from
    a world where they agree the call completes in one where they agree,
    with every panel of a trigger hidden and every trigger saying
    collapsed. *)
Theorem collapseAllPanels_keeps_sync
    (engine : string -> Document -> option (option nat)) (w : World) :
  InSync w -> allPlain (expandedPanels (state w)) ->
  exists w',
    collapseAllPanels engine w = Return tt w' /\
    InSync w' /\
    forall i b, doc w' !! i = Some b -> expandWired b = true ->
      getAttribute "aria-expanded" b = Some "false".
Proof.
  intros Hs Hpl. exists (collapseAllPlain w).
  split; [by apply collapseAllPanels_plain|]. by apply collapseAllPlain_keeps_sync.
Qed.

Lemma inSyncb_sound (w : World) : inSyncb w = true -> InSync w.
Proof.
  intros [Hnd Hall]%andb_true_iff. split; [by apply bool_decide_eq_true in Hnd|].
  intros i b Hb Hw.
  pose proof (forall_lookup_check (doc w) (inSyncAt w) Hall i b Hb) as H.
  unfold inSyncAt in H. rewrite Hw in H.
  destruct (getAttribute "aria-controls" b) as [P|]; [|done].
  destruct (getElementById P (doc w)) as [p|] eqn:Hg; [|done].
  destruct (doc w !! p) as [e|] eqn:He; [|done].
  apply andb_true_iff in H as [[Hq Ha]%andb_true_iff Hh].
  apply bool_decide_eq_true in Hq, Ha, Hh.
  exists P, p, e. by repeat split.
Qed.

(** The page after loading agrees with the initial state, and still does
    after a click on the first trigger (which opens its panel) and a click
    on a node that is no trigger. *)
Lemma click_keeps_sync_witness :
  InSync (listenerTurn (expandListener 7) Page.world0) /\
  InSync (listenerTurn (expandListener 13) (listenerTurn (expandListener 7) Page.world0)) /\
  expandedPanels
    (state (listenerTurn (expandListener 13)
              (listenerTurn (expandListener 7) Page.world0))) = ["detail-1"; "detail-2"].
Proof.
  assert (InSync Page.world0) as H0 by (apply inSyncb_sound; vm_compute; reflexivity).
  pose proof (click_keeps_sync 7 _ Page.world0 H0 eq_refl eq_refl) as H1.
  pose proof (click_keeps_sync 13 _ _ H1 eq_refl eq_refl) as H2.
  split; [exact H1 | split; [exact H2 | vm_compute; reflexivity]].
Defined.

(** Collapsing after the first trigger has opened its panel. *)
Lemma collapseAllPanels_hides_listed_witness :
  exists w',
    collapseAllPanels Samples.engine (listenerTurn (expandListener 7) Page.world0) =
      Return tt w' /\
    hidden <$> doc w' !! 8 = Some true /\
    getAttribute "aria-expanded" <$> doc w' !! 7 = Some (Some "false").
Proof.
  destruct (collapseAllPanels_hides_listed Samples.engine
              (listenerTurn (expandListener 7) Page.world0))
    as (w' & E & _ & _ & Hp & Hb & _); [repeat constructor|].
  exists w'. split; [exact E|]. split.
  - apply (Hp "detail-1"); [|reflexivity].
    apply list_elem_of_singleton. reflexivity.
  - apply (Hb "detail-1"); [|reflexivity].
    apply list_elem_of_singleton. reflexivity.
Defined.

(** Collapsing after both triggers have opened their panels. *)
Lemma collapseAllPanels_keeps_sync_witness :
  exists w',
    collapseAllPanels Samples.engine
      (listenerTurn (expandListener 13) (listenerTurn (expandListener 7) Page.world0)) =
      Return tt w' /\
    InSync w'.
Proof.
  assert (InSync (listenerTurn (expandListener 13)
                    (listenerTurn (expandListener 7) Page.world0))) as H
    by (apply inSyncb_sound; vm_compute; reflexivity).
  destruct (collapseAllPanels_keeps_sync Samples.engine _ H) as (w' & E & Hs & _);
    [repeat constructor|].
  by exists w'.
Defined.

(** ** The emphasis of the timeline *)

(** The opacity that [highlightRelevantSteps] leaves on an element. *)
Lemma highlightRelevantSteps_opacity (tabId : string) (d : Document) (i : nat) (e : Element) :
  d !! i = Some e ->
  exists e', highlightRelevantSteps tabId d !! i = Some e' /\
    classList e' = classList e /\
    opacity e' =
      if byClass "timeline-item" e then
        if String.eqb tabId "resident" && negb (contains "has-influence" e)
        then "0.7" else "1"
      else opacity e.
Proof.
  intros He. unfold highlightRelevantSteps, byClass.
  destruct (String.eqb tabId "resident"); [|destruct (String.eqb tabId "developer")];
    rewrite !lookup_forEachMatch, He; simpl; eexists; (split; [done|]);
    unfold byClass;
    destruct (contains "timeline-item" e) eqn:Et; simpl; rewrite ?Et; simpl;
    try done;
    unfold contains in *; simpl; rewrite ?Et;
    by destruct (bool_decide ("has-influence" ∈ classList e)).
Qed.

(** Classes other than [active] are the same before and after [switchTabPlain]. *)
Lemma switchTab_classes (T : string) (w : World) (i : nat) (e : Element) :
  doc w !! i = Some e ->
  exists e3,
    foldl collapsePlain
      (forEachMatch (byClass "tab-content")
         (fun panel =>
            setHidden (negb (String.eqb (elementId panel) (T +:+ "-panel")))
              (classToggle "active" (String.eqb (elementId panel) (T +:+ "-panel")) panel))
         (forEachMatch (byClass "tab")
            (fun tab =>
               setAttribute "aria-selected"
                 (Js.boolToString (bool_decide (dataset "tab" tab = Some T)))
                 (classToggle "active" (bool_decide (dataset "tab" tab = Some T)) tab))
            (doc w)))
      (expandedPanels (state w)) !! i = Some e3 /\
    opacity e3 = opacity e /\
    forall c, c <> "active" -> contains c e3 = contains c e.
Proof.
  intros He.
  set (e1 := if byClass "tab" e
             then setAttribute "aria-selected"
                    (Js.boolToString (bool_decide (dataset "tab" e = Some T)))
                    (classToggle "active" (bool_decide (dataset "tab" e = Some T)) e)
             else e).
  set (e2 := if byClass "tab-content" e1
             then setHidden (negb (String.eqb (elementId e1) (T +:+ "-panel")))
                    (classToggle "active" (String.eqb (elementId e1) (T +:+ "-panel")) e1)
             else e1).
  assert (opacity e1 = opacity e /\ forall c, c <> "active" -> contains c e1 = contains c e)
    as [Ho1 Hc1].
  { unfold e1. destruct (byClass "tab" e); [|done]. split.
    - unfold classToggle, classAdd, classRemove. simpl.
      by destruct (bool_decide _); [destruct (contains "active" e)|].
    - intros c Hc. unfold contains at 1. simpl.
      fold (contains c (classToggle "active" (bool_decide (dataset "tab" e = Some T)) e)).
      by apply contains_classToggle. }
  assert (opacity e2 = opacity e /\ forall c, c <> "active" -> contains c e2 = contains c e)
    as [Ho2 Hc2].
  { unfold e2. destruct (byClass "tab-content" e1); [|done]. split.
    - rewrite <- Ho1. unfold classToggle, classAdd, classRemove. simpl.
      by destruct (String.eqb _ _); [destruct (contains "active" e1)|].
    - intros c Hc. rewrite <- (Hc1 c Hc). unfold contains at 1. simpl.
      fold (contains c (classToggle "active" (String.eqb (elementId e1) (T +:+ "-panel")) e1)).
      by apply contains_classToggle. }
  destruct (collapse_settled (expandedPanels (state w))
              (forEachMatch (byClass "tab-content")
                 (fun panel =>
                    setHidden (negb (String.eqb (elementId panel) (T +:+ "-panel")))
                      (classToggle "active"
                         (String.eqb (elementId panel) (T +:+ "-panel")) panel))
                 (forEachMatch (byClass "tab")
                    (fun tab =>
                       setAttribute "aria-selected"
                         (Js.boolToString (bool_decide (dataset "tab" tab = Some T)))
                         (classToggle "active"
                            (bool_decide (dataset "tab" tab = Some T)) tab))
                    (doc w))) i e2) as (e3 & He3 & Hs).
  { by rewrite !lookup_forEachMatch, He. }
  exists e3. split; [exact He3|].
  destruct Hs as ((_ & Ho3 & _) & _ & Hcl & _).
  split; [congruence|].
  intros c Hc. unfold contains at 1. rewrite Hcl. by apply Hc2.
Qed.

Lemma switchTabPlain_emphasis (T : string) (w : World) (i : nat) (e : Element) :
  doc w !! i = Some e ->
  exists e',
    doc (switchTabPlain T w) !! i = Some e' /\
    (forall c, c <> "active" -> contains c e' = contains c e) /\
    opacity e' =
      if byClass "timeline-item" e then
        if String.eqb T "resident" && negb (contains "has-influence" e)
        then "0.7" else "1"
      else opacity e.
Proof.
  intros He. rewrite switchTab_doc.
  destruct (switchTab_classes T w i e He) as (e3 & He3 & Ho3 & Hc3).
  destruct (highlightRelevantSteps_opacity T _ i e3 He3) as (e' & He' & Hcl & Ho).
  exists e'. split; [exact He'|]. split.
  - intros c Hc. unfold contains at 1. rewrite Hcl. by apply Hc3.
  - rewrite Ho. unfold byClass. rewrite !Hc3 by done. by rewrite Ho3.
Qed.

(** X20: the emphasis after [switchTab], when every id of
    [expandedPanels] is plain in a selector.  The call completes.  Every
    element keeps its classes other than [active]; a timeline item is at
    opacity 0.7 when the tab is resident and the item is not tagged
    has-influence, and at opacity 1 otherwise, for every other tab id,
    known or not; the opacity of the other elements is not touched. *)
Theorem switchTab_emphasis
    (engine : string -> Document -> option (option nat))
    (T : string) (w : World) (i : nat) (e : Element) :
  allPlain (expandedPanels (state w)) ->
  doc w !! i = Some e ->
  exists w' e',
    switchTab engine T w = Return tt w' /\
    doc w' !! i = Some e' /\
    (forall c, c <> "active" -> contains c e' = contains c e) /\
    opacity e' =
      if byClass "timeline-item" e then
        if String.eqb T "resident" && negb (contains "has-influence" e)
        then "0.7" else "1"
      else opacity e.
Proof.
  intros Hpl He. destruct (switchTabPlain_emphasis T w i e He) as (e' & H).
  exists (switchTabPlain T w), e'. split; [by apply switchTab_plain | exact H].
Qed.

(** The two timeline items of the page, for the resident tab and for a
    tab id that the page does not know. *)
Lemma switchTab_emphasis_witness :
  (exists w', switchTab Samples.engine "resident" Page.world0 = Return tt w' /\
     opacity <$> doc w' !! 4 = Some "1" /\
     opacity <$> doc w' !! 10 = Some "0.7") /\
  (exists w', switchTab Samples.engine "planner" Page.world0 = Return tt w' /\
     opacity <$> doc w' !! 10 = Some "1").
Proof.
  destruct (switchTab_emphasis Samples.engine "resident" Page.world0 4 _
              ltac:(constructor) eq_refl) as (w1 & e1 & E1 & He1 & _ & H1).
  destruct (switchTab_emphasis Samples.engine "resident" Page.world0 10 _
              ltac:(constructor) eq_refl) as (w2 & e2 & E2 & He2 & _ & H2).
  destruct (switchTab_emphasis Samples.engine "planner" Page.world0 10 _
              ltac:(constructor) eq_refl) as (w3 & e3 & E3 & He3 & _ & H3).
  rewrite E1 in E2. injection E2 as <-.
  split.
  - exists w1. split; [exact E1|]. rewrite He1, He2. simpl. by rewrite H1, H2.
  - exists w3. split; [exact E3|]. rewrite He3. simpl. by rewrite H3.
Defined.

(** ** Switching tabs keeps the panels and the state in agreement *)

Lemma panelsApart_check (d : Document) :
  forallb (panelsApartAt d) d = true -> panelsApart d.
Proof.
  intros Hall i b P p e Hb Hw Hc Hg He.
  rewrite forallb_forall in Hall.
  specialize (Hall b). unfold panelsApartAt in Hall.
  rewrite Hw, Hc, Hg, He in Hall. apply negb_true_iff, Hall.
  apply list_elem_of_In. by eapply list_elem_of_lookup_2.
Qed.

Lemma switchTab_tabLoops (T : string) (w : World) :
  doc (switchTabPlain T w) =
  highlightRelevantSteps T
    (foldl collapsePlain (tabLoops T (doc w)) (expandedPanels (state w))).
Proof. done. Qed.

(** What the whole of [switchTabPlain] may do to an element. *)
Lemma tabLoops_lookup (T : string) (d : Document) (i : nat) (e : Element) :
  d !! i = Some e ->
  exists e2, tabLoops T d !! i = Some e2 /\
    expandWired e2 = expandWired e /\ elementId e2 = elementId e /\
    (forall k, k <> "aria-selected" -> attributes e2 !! k = attributes e !! k) /\
    (hidden e2 = hidden e \/ byClass "tab-content" e = true).
Proof.
  intros He. unfold tabLoops. rewrite !lookup_forEachMatch, He. simpl.
  eexists. split; [done|].
  set (e1 := if byClass "tab" e then _ else e).
  assert (expandWired e1 = expandWired e /\ elementId e1 = elementId e /\
          (forall k, k <> "aria-selected" -> attributes e1 !! k = attributes e !! k) /\
          hidden e1 = hidden e /\
          byClass "tab-content" e1 = byClass "tab-content" e) as (Hw1 & Hi1 & Ha1 & Hh1 & Hc1).
  { unfold e1. destruct (byClass "tab" e); [|done].
    destruct (classToggle_fields "active" (bool_decide (dataset "tab" e = Some T)) e)
      as (Hat & Hht & Hit).
    repeat split; simpl; try done.
    - unfold classToggle, classAdd. by destruct (bool_decide _); [destruct (contains _ e)|].
    - intros k Hk. by rewrite lookup_insert_ne, Hat.
    - unfold byClass, contains. simpl.
      fold (contains "tab-content" (classToggle "active" (bool_decide (dataset "tab" e = Some T)) e)).
      by rewrite contains_classToggle. }
  rewrite Hc1. destruct (byClass "tab-content" e) eqn:Ec.
  - destruct (classToggle_fields "active" (String.eqb (elementId e1) (T +:+ "-panel")) e1)
      as (Hat & Hht & Hit).
    simpl. repeat split; try (by right).
    + rewrite <- Hw1. unfold classToggle, classAdd.
      by destruct (String.eqb _ _); [destruct (contains _ e1)|].
    + congruence.
    + intros k Hk. rewrite Hat. by apply Ha1.
  - repeat split; try done. by left.
Qed.

Lemma length_tabLoops (T : string) (d : Document) : length (tabLoops T d) = length d.
Proof. unfold tabLoops. by rewrite !length_forEachMatch. Qed.

Lemma highlightRelevantSteps_fields (tabId : string) (d : Document) (i : nat) (e : Element) :
  d !! i = Some e ->
  exists e', highlightRelevantSteps tabId d !! i = Some e' /\
    expandWired e' = expandWired e /\ elementId e' = elementId e /\
    attributes e' = attributes e /\ hidden e' = hidden e.
Proof.
  intros He. unfold highlightRelevantSteps.
  destruct (String.eqb tabId "resident"); [|destruct (String.eqb tabId "developer")];
    rewrite !lookup_forEachMatch, He; simpl; eexists; (split; [done|]);
    case_ifs; done.
Qed.

Lemma selectors_stable (d d' : Document) :
  length d' = length d ->
  (forall i e, d !! i = Some e ->
     exists e', d' !! i = Some e' /\ elementId e' = elementId e /\
       attributes e' !! "aria-controls" = attributes e !! "aria-controls") ->
  (forall x, getElementById x d' = getElementById x d) /\
  (forall P, querySelector (byAttr "aria-controls" P) d' =
             querySelector (byAttr "aria-controls" P) d).
Proof.
  intros Hl H. split.
  - intros x. unfold getElementById. destruct (Js.truthy x); [|done].
    apply querySelector_ext; [done|]. intros i e' e He' He.
    destruct (H i e He) as (y & Hy & Hid & _). rewrite Hy in He'.
    injection He' as <-. by rewrite Hid.
  - intros P. apply querySelector_ext; [done|]. intros i e' e He' He.
    destruct (H i e He) as (y & Hy & _ & Ha). rewrite Hy in He'.
    injection He' as <-. unfold byAttr, getAttribute. by rewrite Ha.
Qed.

(** The panels and the state agree after [switchTabPlain], with every trigger
    collapsed, when they agreed before and no controlled panel is a tab
    panel. *)
Lemma switchTab_sync (T : string) (w : World) :
  InSync w -> panelsApart (doc w) -> InSync (switchTabPlain T w).
Proof.
  intros [Hnd Htr] Hap.
  assert (expandedPanels (state (switchTabPlain T w)) = []) as Hst by done.
  split; [rewrite Hst; constructor|]. rewrite Hst, switchTab_tabLoops.
  set (l := expandedPanels (state w)) in *.
  set (d2 := tabLoops T (doc w)).
  set (d3 := foldl collapsePlain d2 l).
  set (d4 := highlightRelevantSteps T d3).
  assert (length d2 = length (doc w)) as Hl2 by apply length_tabLoops.
  assert (length d3 = length d2) as Hl3 by apply length_collapse.
  assert (length d4 = length d3) as Hl4 by apply length_highlightRelevantSteps.
  assert (forall i e, doc w !! i = Some e ->
    exists e2 e3 e4, d2 !! i = Some e2 /\ d3 !! i = Some e3 /\ d4 !! i = Some e4 /\
      expandWired e4 = expandWired e /\ elementId e4 = elementId e /\
      attributes e4 !! "aria-controls" = attributes e !! "aria-controls" /\
      (getAttribute "aria-expanded" e4 = getAttribute "aria-expanded" e \/
       getAttribute "aria-expanded" e4 = Some "false") /\
      (hidden e4 = hidden e \/ hidden e4 = true \/ byClass "tab-content" e = true) /\
      hidden e4 = hidden e3 /\
      getAttribute "aria-expanded" e4 = getAttribute "aria-expanded" e3) as Hthrough.
  { intros i e He.
    destruct (tabLoops_lookup T (doc w) i e He) as (e2 & He2 & Hw2 & Hi2 & Ha2 & Hh2).
    destruct (collapse_settled l d2 i e2 He2)
      as (e3 & He3 & (_ & Hi3 & _ & Hw3 & Ha3 & Hx3 & Hh3)).
    destruct (highlightRelevantSteps_fields T d3 i e3 He3)
      as (e4 & He4 & Hw4 & Hi4 & Ha4 & Hh4).
    exists e2, e3, e4. unfold getAttribute in *. rewrite Ha4, Hh4.
    repeat split; try done; try congruence.
    - by rewrite Ha3, Ha2.
    - rewrite <- (Ha2 "aria-expanded") by done. exact Hx3.
    - destruct Hh3 as [-> | ->]; [|by right; left].
      destruct Hh2 as [-> | Hc]; [by left | by right; right]. }
  destruct (selectors_stable (doc w) d2 Hl2) as [Hids2 Hctl2].
  { intros i e He. destruct (tabLoops_lookup T (doc w) i e He) as (e2 & He2 & _ & Hi2 & Ha2 & _).
    exists e2. repeat split; try done. by apply Ha2. }
  destruct (selectors_stable (doc w) d4) as [Hids Hctl]; [congruence | |].
  { intros i e He. destruct (Hthrough i e He) as (_ & _ & e4 & _ & _ & He4 & _ & Hi4 & Ha4 & _).
    by exists e4. }
  intros i b4 Hb4 Hw4.
  assert (i < length (doc w)) as Hlt
    by (rewrite <- Hl2, <- Hl3, <- Hl4; by eapply lookup_lt_Some).
  destruct (lookup_lt_is_Some_2 _ _ Hlt) as [b Hb].
  destruct (Hthrough i b Hb) as (b2 & b3 & y & Hb2 & Hb3 & Hy & Hwb & _ & Hcb & Hxb & _ & _ & Hx43).
  rewrite Hy in Hb4. injection Hb4 as ->.
  destruct (Htr i b Hb) as (P & p & e & Hc & Hq & Hg & He & Ha & Hh); [congruence|].
  destruct (Hthrough p e He) as (e2 & e3 & e4 & He2 & He3 & He4 & _ & _ & _ & _ & Hhe & Hh43 & _).
  exists P, p, e4. rewrite Hctl, Hids.
  split; [unfold getAttribute in *; congruence|].
  split; [done|]. split; [done|]. split; [done|].
  destruct (decide (P ∈ l)) as [Hin|Hout].
  - destruct (collapse_hit l d2 P Hin) as [Hp Hbt].
    specialize (Hp p). rewrite Hids2 in Hp. specialize (Hp Hg).
    specialize (Hbt i). rewrite Hctl2 in Hbt. specialize (Hbt Hq).
    fold d3 in Hp, Hbt. rewrite He3 in Hp. rewrite Hb3 in Hbt. simpl in *.
    split; congruence.
  - rewrite (bool_decide_eq_false_2 (P ∈ l)) in Ha, Hh by done. simpl in *.
    pose proof (Hap i b P p e Hb ltac:(congruence) Hc Hg He) as Hnot.
    split; [destruct Hxb; congruence|].
    destruct Hhe as [? | [? | ?]]; congruence.
Qed.

(** X21: [switchTab] keeps the panels and the state in agreement.  From
    a world where they agree, where no panel that a trigger controls is a
    tab panel and every id of [expandedPanels] is plain in a selector,
    [switchTab] completes in a world where they agree, with
    [expandedPanels] empty and every trigger saying collapsed, for any tab
    id. *)
Theorem switchTab_keeps_sync
    (engine : string -> Document -> option (option nat)) (T : string) (w : World) :
  InSync w -> panelsApart (doc w) -> allPlain (expandedPanels (state w)) ->
  exists w',
    switchTab engine T w = Return tt w' /\
    InSync w' /\
    expandedPanels (state w') = [] /\
    forall i b, doc w' !! i = Some b -> expandWired b = true ->
      getAttribute "aria-expanded" b = Some "false".
Proof.
  intros Hs Hap Hpl. pose proof (switchTab_sync T w Hs Hap) as H.
  exists (switchTabPlain T w). split; [by apply switchTab_plain|].
  split; [exact H|]. split; [done|].
  intros i b Hb Hw. destruct H as [_ H].
  destruct (H i b Hb Hw) as (P & _ & _ & _ & _ & _ & _ & Ha & _).
  by rewrite Ha.
Qed.

(** Switching to the developer tab after the first trigger has opened
    its panel. *)
Lemma switchTab_keeps_sync_witness :
  exists w',
    switchTab Samples.engine "developer"
      (listenerTurn (expandListener 7) Page.world0) = Return tt w' /\
    InSync w'.
Proof.
  assert (InSync (listenerTurn (expandListener 7) Page.world0)) as H
    by (apply inSyncb_sound; vm_compute; reflexivity).
  assert (panelsApart (doc (listenerTurn (expandListener 7) Page.world0))) as Hap
    by (apply panelsApart_check; vm_compute; reflexivity).
  destruct (switchTab_keeps_sync Samples.engine "developer" _ H Hap)
    as (w' & E & Hs & _); [repeat constructor|].
  by exists w'.
Defined.
